(** * contrib/generate.py: FIT SDK tables to JSON files

    A shallow embedding of [find_module], [extract_fit_objects],
    [write_json_file] and [main], together with the fragment of Python's
    [json] module that they call ([json.dumps] as invoked by the writer, and
    [json.loads] for the round-trip property), followed by the properties of
    the tool. *)

From Stdlib Require Import ZArith NArith List Ascii String Bool Lia.
From stdpp Require Import base option list gmap strings.

Local Open Scope N_scope.
Local Open Scope list_scope.

(** ** Python values *)

(** A Python [str] is a sequence of code points. *)
Definition pystr := list N.

(** The objects a module attribute can hold, as far as [json.dumps] tells
    them apart.  [PDict] keeps the insertion order of the dictionary.
    [PObj] stands for every object without a JSON mapping (sets, bytes,
    classes, functions, ...).  Floating-point numbers are not represented. *)
#[local] Unset Elimination Schemes.
Inductive pyval : Type :=
| PNone
| PBool (b : bool)
| PInt (n : Z)
| PStr (s : pystr)
| PList (items : list pyval)
| PTuple (items : list pyval)
| PDict (entries : list (pyval * pyval))
| PObj.
#[local] Set Elimination Schemes.

(** JSON text is kept as a list of characters while it is produced and
    scanned; what reaches a file is the corresponding [string]. *)
Definition text := list ascii.

Definition chars (s : string) : text := list_ascii_of_string s.

Definition dquote : ascii := "034"%char.
Definition backslash : ascii := "092"%char.
Definition newline : ascii := "010"%char.
Definition space : ascii := "032"%char.

(** [str(s)] for a 7-bit string literal of this file. *)
Definition py (s : string) : pystr := map N_of_ascii (chars s).

(** ** json.encoder *)

Definition hex_digit (n : N) : ascii :=
  if n <? 10 then ascii_of_N (48 + n) else ascii_of_N (87 + n).

(** ['{0:04x}'.format(n)] for [n < 0x10000]. *)
Definition hex4 (n : N) : text :=
  [hex_digit (n / 4096 mod 16); hex_digit (n / 256 mod 16);
   hex_digit (n / 16 mod 16); hex_digit (n mod 16)].

Definition u_escape (n : N) : text := backslash :: "u"%char :: hex4 n.

(** The [replace] callback of [py_encode_basestring_ascii], applied to every
    code point: [ESCAPE_ASCII] selects the backslash, the double quote and
    everything outside [' '..'~']; [ESCAPE_DCT] has the short escapes. *)
Definition escape_char (c : N) : text :=
  if c =? 92 then [backslash; backslash]
  else if c =? 34 then [backslash; dquote]
  else if (32 <=? c) && (c <=? 126) then [ascii_of_N c]
  else if c =? 8 then [backslash; "b"%char]
  else if c =? 12 then [backslash; "f"%char]
  else if c =? 10 then [backslash; "n"%char]
  else if c =? 13 then [backslash; "r"%char]
  else if c =? 9 then [backslash; "t"%char]
  else if c <? 65536 then u_escape c
  else
    let n := c - 65536 in
    let s1 := N.lor 55296 (N.land (N.shiftr n 10) 1023) in
    let s2 := N.lor 56320 (N.land n 1023) in
    u_escape s1 ++ u_escape s2.

Definition encode_basestring_ascii (s : pystr) : text :=
  dquote :: flat_map escape_char s ++ [dquote].

(** [int.__repr__]: decimal digits, most significant first. *)
Fixpoint digits_upto (fuel : nat) (n : N) (acc : text) : text :=
  match fuel with
  | O => acc
  | S fuel' =>
      let acc' := ascii_of_N (48 + n mod 10) :: acc in
      if n <? 10 then acc' else digits_upto fuel' (n / 10) acc'
  end.

Definition decimal (n : N) : text := digits_upto (S (N.to_nat (N.log2 n))) n [].

Definition int_repr (z : Z) : text :=
  match z with
  | Zneg p => "-"%char :: decimal (Npos p)
  | _ => decimal (Z.to_N z)
  end.

(** The key conversion of [_iterencode_dict]: strings are kept, [True],
    [False], [None] and integers are turned into strings, and any other key
    raises [TypeError] ([skipkeys] is false). *)
Definition dict_key (k : pyval) : option pystr :=
  match k with
  | PStr s => Some s
  | PBool true => Some (py "true")
  | PBool false => Some (py "false")
  | PNone => Some (py "null")
  | PInt n => Some (map N_of_ascii (int_repr n))
  | _ => None
  end.

Fixpoint join (sep : text) (chunks : list text) : text :=
  match chunks with
  | [] => []
  | [c] => c
  | c :: rest => c ++ sep ++ join sep rest
  end.

Section Encoder.
(** The three settings of a [JSONEncoder] the writer varies: the
    indentation width ([None] when [indent] is [None]) and the two
    separators. *)
Variable indent : option nat.
Variable item_separator key_separator : text.

(** ['\n' + _indent * level], or nothing without indentation. *)
Definition newline_indent (level : nat) : text :=
  match indent with
  | None => []
  | Some w => newline :: repeat space (w * level)
  end.

Definition inner_level (level : nat) : nat :=
  match indent with None => level | Some _ => S level end.

Definition bracketed (opening closing : ascii) (level : nat) (chunks : list text) : text :=
  match chunks with
  | [] => [opening; closing]
  | _ =>
      opening :: newline_indent (inner_level level)
        ++ join (item_separator ++ newline_indent (inner_level level)) chunks
        ++ newline_indent level ++ [closing]
  end.

(** [_iterencode] with its two helpers [_iterencode_list] and
    [_iterencode_dict]; [None] is the [TypeError] raised for an object
    that is not JSON serializable or for an unsupported key. *)
Fixpoint iterencode (o : pyval) (level : nat) {struct o} : option text :=
  let iterencode_list :=
    fix each (l : list pyval) (lvl : nat) : option (list text) :=
      match l with
      | [] => Some []
      | x :: rest =>
          match iterencode x lvl, each rest lvl with
          | Some c, Some cs => Some (c :: cs)
          | _, _ => None
          end
      end in
  let iterencode_dict :=
    fix each (d : list (pyval * pyval)) (lvl : nat) : option (list text) :=
      match d with
      | [] => Some []
      | (k, v) :: rest =>
          match dict_key k, iterencode v lvl, each rest lvl with
          | Some ks, Some c, Some cs =>
              Some ((encode_basestring_ascii ks ++ key_separator ++ c) :: cs)
          | _, _, _ => None
          end
      end in
  match o with
  | PStr s => Some (encode_basestring_ascii s)
  | PNone => Some (chars "null")
  | PBool true => Some (chars "true")
  | PBool false => Some (chars "false")
  | PInt n => Some (int_repr n)
  | PList l | PTuple l =>
      match iterencode_list l (inner_level level) with
      | Some cs => Some (bracketed "["%char "]"%char level cs)
      | None => None
      end
  | PDict d =>
      match iterencode_dict d (inner_level level) with
      | Some cs => Some (bracketed "{"%char "}"%char level cs)
      | None => None
      end
  | PObj => None
  end.
End Encoder.

(** [json.dumps(data)] uses the default encoder, whose separators are
    [', '] and [': ']; [json.dumps(data, indent=2)] builds an encoder whose
    item separator is [','] because an indentation is given. *)
Definition json_dumps (indent : option nat) (data : pyval) : option text :=
  match indent with
  | None => iterencode None (chars ", ") (chars ": ") data 0
  | Some w => iterencode (Some w) (chars ",") (chars ": ") data 0
  end.

(** ** json.decoder and json.scanner *)

Definition is_ws (c : ascii) : bool :=
  let n := N_of_ascii c in (n =? 32) || (n =? 9) || (n =? 10) || (n =? 13).

(** [WHITESPACE.match(s, end).end()] *)
Fixpoint skip_ws (s : text) : text :=
  match s with
  | c :: rest => if is_ws c then skip_ws rest else s
  | [] => []
  end.

Definition is_digit (c : ascii) : bool :=
  let n := N_of_ascii c in (48 <=? n) && (n <=? 57).

Definition hex_value (c : ascii) : option N :=
  let n := N_of_ascii c in
  if (48 <=? n) && (n <=? 57) then Some (n - 48)
  else if (97 <=? n) && (n <=? 102) then Some (n - 87)
  else if (65 <=? n) && (n <=? 70) then Some (n - 55)
  else None.

(** [_decode_uXXXX]: exactly four hexadecimal digits, or a decode error. *)
Definition decode_uXXXX (a b c d : ascii) : option N :=
  match hex_value a, hex_value b, hex_value c, hex_value d with
  | Some x, Some y, Some z, Some w => Some (((x * 16 + y) * 16 + z) * 16 + w)
  | _, _, _, _ => None
  end.

(** The [BACKSLASH] table of the decoder. *)
Definition unescape (e : ascii) : option N :=
  let n := N_of_ascii e in
  if n =? 34 then Some 34
  else if n =? 92 then Some 92
  else if n =? 47 then Some 47
  else if n =? 98 then Some 8
  else if n =? 102 then Some 12
  else if n =? 110 then Some 10
  else if n =? 114 then Some 13
  else if n =? 116 then Some 9
  else None.

Definition is_high_surrogate (n : N) : bool := (55296 <=? n) && (n <=? 56319).
Definition is_low_surrogate (n : N) : bool := (56320 <=? n) && (n <=? 57343).

Definition cons_char (c : N) (r : option (pystr * text)) : option (pystr * text) :=
  match r with
  | Some (s, rest) => Some (c :: s, rest)
  | None => None
  end.

(** [py_scanstring] in strict mode, started just after the opening quote:
    the decoded string and the text after the closing quote. *)
Fixpoint scanstring (s : text) : option (pystr * text) :=
  match s with
  | [] => None
  | c :: r =>
      if Ascii.eqb c dquote then Some ([], r)
      else if Ascii.eqb c backslash then
        match r with
        | [] => None
        | e :: r1 =>
            if Ascii.eqb e "u"%char then
              match r1 with
              | h1 :: h2 :: h3 :: h4 :: r2 =>
                  match decode_uXXXX h1 h2 h3 h4 with
                  | None => None
                  | Some uni =>
                      match r2 with
                      | b :: u :: r3 =>
                          if is_high_surrogate uni && Ascii.eqb b backslash
                             && Ascii.eqb u "u"%char
                          then
                            match r3 with
                            | l1 :: l2 :: l3 :: l4 :: r4 =>
                                match decode_uXXXX l1 l2 l3 l4 with
                                | None => None
                                | Some uni2 =>
                                    if is_low_surrogate uni2
                                    then cons_char
                                           (65536 + N.lor (N.shiftl (uni - 55296) 10)
                                                          (uni2 - 56320))
                                           (scanstring r4)
                                    else cons_char uni (scanstring r2)
                                end
                            | _ => None
                            end
                          else cons_char uni (scanstring r2)
                      | _ => cons_char uni (scanstring r2)
                      end
                  end
              | _ => None
              end
            else
              match unescape e with
              | Some ch => cons_char ch (scanstring r1)
              | None => None
              end
        end
      else if N_of_ascii c <? 32 then None
      else cons_char (N_of_ascii c) (scanstring r)
  end.

Fixpoint take_digits (s : text) : text * text :=
  match s with
  | c :: rest =>
      if is_digit c then let (ds, tl) := take_digits rest in (c :: ds, tl)
      else ([], s)
  | [] => ([], [])
  end.

(** [int(digits)] for a run of decimal digits. *)
Definition digits_value (ds : text) : N :=
  fold_left (fun acc c => acc * 10 + (N_of_ascii c - 48)) ds 0.

(** Whether [NUMBER_RE] goes on after the integer part with a fraction or an
    exponent, which makes the literal a float. *)
Definition float_tail (s : text) : bool :=
  match s with
  | c :: d :: rest =>
      if Ascii.eqb c "."%char then is_digit d
      else if Ascii.eqb c "e"%char || Ascii.eqb c "E"%char then
        if Ascii.eqb d "+"%char || Ascii.eqb d "-"%char
        then match rest with f :: _ => is_digit f | [] => false end
        else is_digit d
      else false
  | _ => false
  end.

(** [NUMBER_RE.match] followed by [int(integer)].  [None] when the text does
    not start with a number, and also for a float literal (not represented). *)
Definition match_number (s : text) : option (Z * text) :=
  let '(negative, body) :=
    match s with
    | c :: rest => if Ascii.eqb c "-"%char then (true, rest) else (false, s)
    | [] => (false, s)
    end in
  match body with
  | c :: rest =>
      if is_digit c then
        let '(ds, tl) :=
          if Ascii.eqb c "0"%char then ([c], rest)
          else let (more, tl) := take_digits rest in (c :: more, tl) in
        if float_tail tl then None
        else
          let n := Z.of_N (digits_value ds) in
          Some (if negative then (- n)%Z else n, tl)
      else None
  | [] => None
  end.

(** [dict(pairs)]: a repeated key keeps its first position and takes the
    last value. *)
Fixpoint dict_set (k : pystr) (v : pyval) (d : list (pystr * pyval)) : list (pystr * pyval) :=
  match d with
  | [] => [(k, v)]
  | (k', v') :: rest =>
      if decide (k = k') then (k', v) :: rest else (k', v') :: dict_set k v rest
  end.

Definition dict_of_pairs (pairs : list (pystr * pyval)) : pyval :=
  PDict (map (fun kv => (PStr (fst kv), snd kv))
             (fold_left (fun d kv => dict_set (fst kv) (snd kv) d) pairs [])).

Definition strip_prefix (p s : text) : option text :=
  if decide (take (length p) s = p) then Some (drop (length p) s) else None.

(** [scan_once], [JSONArray] and [JSONObject].  The recursion of the scanner
    follows the nesting of the text; [fuel] bounds it. *)
Fixpoint scan_once (fuel : nat) (s : text) {struct fuel} : option (pyval * text) :=
  match fuel with
  | O => None
  | S fuel' =>
      match s with
      | [] => None
      | c :: r =>
          if Ascii.eqb c dquote then
            match scanstring r with
            | Some (str, rest) => Some (PStr str, rest)
            | None => None
            end
          else if Ascii.eqb c "{"%char then
            match skip_ws r with
            | c' :: r' =>
                if Ascii.eqb c' "}"%char then Some (PDict [], r')
                else if Ascii.eqb c' dquote then json_object fuel' r' []
                else None
            | [] => None
            end
          else if Ascii.eqb c "["%char then
            match skip_ws r with
            | c' :: r' =>
                if Ascii.eqb c' "]"%char then Some (PList [], r')
                else json_array fuel' (c' :: r') []
            | [] => None
            end
          else if Ascii.eqb c "n"%char then
            match strip_prefix (chars "null") s with
            | Some rest => Some (PNone, rest)
            | None => None
            end
          else if Ascii.eqb c "t"%char then
            match strip_prefix (chars "true") s with
            | Some rest => Some (PBool true, rest)
            | None => None
            end
          else if Ascii.eqb c "f"%char then
            match strip_prefix (chars "false") s with
            | Some rest => Some (PBool false, rest)
            | None => None
            end
          else
            match match_number s with
            | Some (n, rest) => Some (PInt n, rest)
            | None => None
            end
      end
  end
with json_array (fuel : nat) (s : text) (seen : list pyval) {struct fuel}
  : option (pyval * text) :=
  match fuel with
  | O => None
  | S fuel' =>
      match scan_once fuel' s with
      | None => None
      | Some (v, rest) =>
          match skip_ws rest with
          | c :: r =>
              if Ascii.eqb c "]"%char then Some (PList (rev (v :: seen)), r)
              else if Ascii.eqb c ","%char then json_array fuel' (skip_ws r) (v :: seen)
              else None
          | [] => None
          end
      end
  end
with json_object (fuel : nat) (s : text) (seen : list (pystr * pyval)) {struct fuel}
  : option (pyval * text) :=
  (* [s] starts just after the opening quote of a property name *)
  match fuel with
  | O => None
  | S fuel' =>
      match scanstring s with
      | None => None
      | Some (key, rest) =>
          match skip_ws rest with
          | c :: r =>
              if Ascii.eqb c ":"%char then
                match scan_once fuel' (skip_ws r) with
                | None => None
                | Some (v, rest') =>
                    match skip_ws rest' with
                    | c' :: r' =>
                        if Ascii.eqb c' "}"%char
                        then Some (dict_of_pairs (rev ((key, v) :: seen)), r')
                        else if Ascii.eqb c' ","%char then
                          match skip_ws r' with
                          | q :: r'' =>
                              if Ascii.eqb q dquote
                              then json_object fuel' r'' ((key, v) :: seen)
                              else None
                          | [] => None
                          end
                        else None
                    | [] => None
                    end
                end
              else None
          | [] => None
          end
      end
  end.

(** [json.loads]: one value, surrounded by optional whitespace, and nothing
    else.  [None] is a [JSONDecodeError] (or a float literal).  The text is
    made of 8-bit characters, each standing for the code point of the same
    number; the encoder above writes 7-bit text only. *)
Definition json_loads (s : text) : option pyval :=
  match scan_once (S (length s)) (skip_ws s) with
  | Some (v, rest) =>
      match skip_ws rest with
      | [] => Some v
      | _ :: _ => None
      end
  | None => None
  end.

(** ** The environment: file system, interpreter, console *)

Abbreviation namespace := (gmap string pyval).

Inductive exn : Type :=
| TypeError | ValueError | OSError | AttributeError | SyntaxError | OtherError.

(** What executing a file as a module does: it runs to completion and leaves
    its top-level names, or an exception leaves it.  What the code of a
    module does besides (printing, writing files, ending the process) is not
    represented. *)
Inductive source : Type :=
| Defines (ns : namespace)
| Fails (e : exn).

Inductive node : Type :=
| Directory
| Regular (src : source).

(** A [pathlib.Path], by its [parts]. *)
Abbreviation pure_path := (list string).

(** How writing one output file ends: all of it is written; [open] raises;
    or the file is opened (and emptied) and only [kept] characters reach it
    before the write raises. *)
Inductive io_outcome : Type :=
| IoOk
| IoRefused
| IoBroken (kept : nat).

Record world : Type := {
  nodes : gmap string node;             (* what [os.path] sees *)
  extension_suffixes : list string;     (* the platform's extension-module suffixes *)
  mkdir_ok : pure_path -> bool;         (* [mkdir(parents=True, exist_ok=True)] succeeds *)
  write_outcome : pure_path -> io_outcome
}.

(** One constructor per [print] of the program.  The [Err] and [Warn]
    messages go to [sys.stderr], the others to [sys.stdout]. *)
Inductive message : Type :=
| ErrModule (module_name path : string)
| ErrNoProfile
| ErrNoFitObjects
| ErrWrite (output_path : pure_path)
| WarnNoData (filename : string)
| WroteProfile (profile_path : pure_path)
| WroteFile (filename : string) (file_path : pure_path)
| AllExported (output : string).

Record state : Type := {
  files : gmap pure_path string;        (* the contents of the output files *)
  dirs : gset pure_path;                (* the directories made so far *)
  console : list message
}.

Inductive outcome (A : Type) : Type :=
| Ret (a : A)
| Raise (e : exn)
| SysExit (code : Z).
Arguments Ret {A} a.
Arguments Raise {A} e.
Arguments SysExit {A} code.

(** A run of Python code: it may change the files and the console, and it
    returns, raises, or exits. *)
Definition proc (A : Type) : Type := state -> outcome A * state.

#[export] Instance proc_ret : MRet proc := fun A a st => (Ret a, st).

#[export] Instance proc_bind : MBind proc := fun A B k m st =>
  match m st with
  | (Ret a, st') => k a st'
  | (Raise e, st') => (Raise e, st')
  | (SysExit c, st') => (SysExit c, st')
  end.

Definition raise {A : Type} (e : exn) : proc A := fun st => (Raise e, st).

(** [sys.exit(code)] *)
Definition sys_exit {A : Type} (code : Z) : proc A := fun st => (SysExit code, st).

Definition print (m : message) : proc unit := fun st =>
  (Ret tt, {| files := files st; dirs := dirs st; console := console st ++ [m] |}).

(** [try: body except (...) as e: handler] *)
Definition try_except {A : Type} (body : proc A) (caught : exn -> bool)
    (handler : proc A) : proc A := fun st =>
  match body st with
  | (Raise e, st') => if caught e then handler st' else (Raise e, st')
  | r => r
  end.

(** The exit status of the interpreter: 0 when [main] returns, the argument
    of [sys.exit], and 1 after a traceback. *)
Definition exit_code (r : outcome unit) : Z :=
  match r with
  | Ret _ => 0
  | SysExit c => c
  | Raise _ => 1
  end.

(** *** os.path and importlib *)

Definition ends_with (s suffix : string) : bool :=
  bool_decide (chars suffix `suffix_of` chars s).

Definition starts_with (s prefix : string) : bool :=
  bool_decide (chars prefix `prefix_of` chars s).

(** [posixpath.join(a, b)] *)
Definition os_path_join (a b : string) : string :=
  if starts_with b "/" then b
  else if bool_decide (a = "") || ends_with a "/" then a +:+ b
  else a +:+ "/" +:+ b.

Definition os_path_exists (w : world) (path : string) : bool :=
  bool_decide (is_Some (nodes w !! path)).

Definition os_path_isdir (w : world) (path : string) : bool :=
  match nodes w !! path with
  | Some Directory => true
  | _ => false
  end.

(** [importlib.util.spec_from_file_location] returns a spec when one of the
    file loaders handles the suffix of the location, and [None] otherwise. *)
Definition spec_from_file_location (w : world) (location : string) : option string :=
  if existsb (ends_with location) ([".py"; ".pyc"] ++ extension_suffixes w)
  then Some location else None.

(** [spec.loader.exec_module(module)].  The bytecode cache that the loader
    may write beside the source file is not represented: [files] and [dirs]
    hold what the program itself writes and makes. *)
Definition exec_module (w : world) (location : string) : proc namespace :=
  match nodes w !! location with
  | Some (Regular (Defines ns)) => mret ns
  | Some (Regular (Fails e)) => raise e
  | Some Directory | None => raise OSError
  end.

Definition hasattr (module : namespace) (name : string) : bool :=
  bool_decide (is_Some (module !! name)).

Definition getattr (module : namespace) (name : string) : proc pyval :=
  match module !! name with
  | Some v => mret v
  | None => raise AttributeError
  end.

(** *** pathlib *)

Fixpoint segments (s : string) : list string :=
  match s with
  | EmptyString => [EmptyString]
  | String c rest =>
      if Ascii.eqb c "/"%char then EmptyString :: segments rest
      else match segments rest with
           | seg :: more => String c seg :: more
           | [] => [String c EmptyString]
           end
  end.

(** The root of a POSIX path: exactly two leading slashes are kept apart. *)
Definition path_root (s : string) : list string :=
  if starts_with s "///" then ["/"]
  else if starts_with s "//" then ["//"]
  else if starts_with s "/" then ["/"]
  else [].

(** [Path(s)]: the root, then the components that are neither empty nor
    ["."]. *)
Definition Path (s : string) : pure_path :=
  path_root s ++ filter (fun seg => seg <> "" /\ seg <> ".") (segments s).

(** [p / name] for a one-component relative [name]. *)
Definition joinpath (p : pure_path) (name : string) : pure_path := p ++ [name].

(** [p.parent] *)
Definition parent (p : pure_path) : pure_path :=
  match p with
  | [a] => if bool_decide (a = "/" \/ a = "//") then p else []
  | _ => removelast p
  end.

(** ** The program *)

(** [find_module(path, module_name)] *)
Definition find_module (w : world) (path module_name : string) : proc (option namespace) :=
  if negb (os_path_exists w path) then mret None
  else
    let located :=
      if os_path_isdir w path then
        let module_path := os_path_join path (module_name +:+ ".py") in
        if negb (os_path_exists w module_path) then None else Some module_path
      else Some path in
    match located with
    | None => mret None
    | Some path =>
        match spec_from_file_location w path with
        | None => mret None
        | Some location =>
            module ← exec_module w location;
            mret (Some module)
        end
    end.

Definition copy_attr (module : namespace) (name : string) (objects : namespace) : namespace :=
  match module !! name with
  | Some v => <[name := v]> objects
  | None => objects
  end.

(** [extract_fit_objects(fit_module)] *)
Definition extract_fit_objects (fit_module : namespace) : namespace :=
  let objects := ∅ in
  let objects := copy_attr fit_module "BASE_TYPE" objects in
  let objects := copy_attr fit_module "FIELD_TYPE_TO_BASE_TYPE" objects in
  let objects := copy_attr fit_module "BASE_TYPE_DEFINITIONS" objects in
  let objects := copy_attr fit_module "NUMERIC_FIELD_TYPES" objects in
  objects.

(** [json.dumps(data, indent=2)] or [json.dumps(data)], raising [TypeError]
    where the encoder does.  The values are finite trees without floats, so
    the [ValueError] of a circular reference or of a float that JSON cannot
    hold, and the limits of the interpreter (recursion depth), do not
    arise. *)
Definition dumps (data : pyval) (pretty : bool) : proc text :=
  match json_dumps (if pretty then Some 2%nat else None) data with
  | Some json_str => mret json_str
  | None => raise TypeError
  end.

(** The directories [p.mkdir(parents=True, exist_ok=True)] makes sure exist:
    [p] and every ancestor of it. *)
Definition ancestors (p : pure_path) : list pure_path :=
  map (fun n => take n p) (seq 1 (length p)).

(** [p.mkdir(parents=True, exist_ok=True)]; a failing call is taken to make
    no directory. *)
Definition mkdir (w : world) (p : pure_path) : proc unit := fun st =>
  if mkdir_ok w p
  then (Ret tt, {| files := files st;
                   dirs := list_to_set (ancestors p) ∪ dirs st;
                   console := console st |})
  else (Raise OSError, st).

(** [with open(output_path, "w") as fd: fd.write(json_str)] *)
Definition open_and_write (w : world) (output_path : pure_path) (json_str : text) : proc unit :=
  fun st =>
    match write_outcome w output_path with
    | IoOk =>
        (Ret tt, {| files := <[output_path := string_of_list_ascii json_str]> (files st);
                    dirs := dirs st;
                    console := console st |})
    | IoRefused => (Raise OSError, st)
    | IoBroken kept =>
        (Raise OSError,
         {| files := <[output_path := string_of_list_ascii (take kept json_str)]> (files st);
            dirs := dirs st;
            console := console st |})
    end.

Definition write_errors (e : exn) : bool :=
  match e with
  | TypeError | ValueError | OSError => true
  | _ => false
  end.

(** [write_json_file(data, output_path, pretty)] *)
Definition write_json_file (w : world) (data : pyval) (output_path : pure_path)
    (pretty : bool) : proc bool :=
  try_except
    (json_str ← dumps data pretty;
     mkdir w (parent output_path);;
     open_and_write w output_path json_str;;
     mret true)
    write_errors
    (print (ErrWrite output_path);;
     mret false).

Record args : Type := {
  args_path : string;
  args_output : string;
  args_pretty : bool
}.

(** [dict.get(key)]: the value, or [None] when the key is absent. *)
Definition dict_get (d : namespace) (key : string) : pyval :=
  default PNone (d !! key).

Definition fit_files (fit_objects : namespace) : list (string * pyval) :=
  [("base_type.json", dict_get fit_objects "BASE_TYPE");
   ("field_type_to_base_type.json", dict_get fit_objects "FIELD_TYPE_TO_BASE_TYPE");
   ("base_type_definitions.json", dict_get fit_objects "BASE_TYPE_DEFINITIONS");
   ("numeric_field_types.json", dict_get fit_objects "NUMERIC_FIELD_TYPES")].

(** The loop over [fit_files.items()], returning the final [success]. *)
Fixpoint write_fit_files (w : world) (output_dir : pure_path) (pretty : bool)
    (items : list (string * pyval)) (success : bool) : proc bool :=
  match items with
  | [] => mret success
  | (filename, data) :: rest =>
      match data with
      | PNone =>
          print (WarnNoData filename);;
          write_fit_files w output_dir pretty rest success
      | _ =>
          let file_path := joinpath output_dir filename in
          ok ← write_json_file w data file_path pretty;
          if ok : bool then
            print (WroteFile filename file_path);;
            write_fit_files w output_dir pretty rest success
          else write_fit_files w output_dir pretty rest false
      end
  end.

(** [main()], after [parser.parse_args()]. *)
Definition main (w : world) (a : args) : proc unit :=
  profile_module ← find_module w (args_path a) "profile";
  match profile_module with
  | None => print (ErrModule "profile" (args_path a));; sys_exit 1
  | Some profile_module =>
      if negb (hasattr profile_module "Profile") then
        print ErrNoProfile;; sys_exit 1
      else
        fit_module ← find_module w (args_path a) "fit";
        match fit_module with
        | None => print (ErrModule "fit" (args_path a));; sys_exit 1
        | Some fit_module =>
            let fit_objects := extract_fit_objects fit_module in
            if bool_decide (fit_objects = ∅) then
              print ErrNoFitObjects;; sys_exit 1
            else
              let output_dir := Path (args_output a) in
              mkdir w output_dir;;
              let profile_path := joinpath output_dir "profile.json" in
              profile ← getattr profile_module "Profile";
              ok ← write_json_file w profile profile_path (args_pretty a);
              if negb ok then sys_exit 1
              else
                print (WroteProfile profile_path);;
                success ← write_fit_files w output_dir (args_pretty a)
                            (fit_files fit_objects) true;
                if success : bool then print (AllExported (args_output a))
                else sys_exit 1
        end
  end.

(** [main] from the creation of the output directory on, for the value of
    [Profile] and the extracted fit objects. *)
Definition write_outputs (w : world) (a : args) (profile : pyval) (fit_objects : namespace)
  : proc unit :=
  let output_dir := Path (args_output a) in
  mkdir w output_dir;;
  let profile_path := joinpath output_dir "profile.json" in
  ok ← write_json_file w profile profile_path (args_pretty a);
  if negb ok then sys_exit 1
  else
    print (WroteProfile profile_path);;
    success ← write_fit_files w output_dir (args_pretty a) (fit_files fit_objects) true;
    if success : bool then print (AllExported (args_output a)) else sys_exit 1.

(** ** Observations on a run *)

(** The output files the run tried to write, in order: every call of
    [write_json_file] from [main] prints exactly one message, the error of
    the writer or the success line of [main]. *)
Definition attempt_of (m : message) : option pure_path :=
  match m with
  | ErrWrite p | WroteProfile p | WroteFile _ p => Some p
  | _ => None
  end.

Definition attempted (log : list message) : list pure_path := omap attempt_of log.

(** The output files reported as written. *)
Definition written_of (m : message) : option pure_path :=
  match m with
  | WroteProfile p | WroteFile _ p => Some p
  | _ => None
  end.

Definition written (log : list message) : list pure_path := omap written_of log.

Definition indent_of (pretty : bool) : option nat :=
  if pretty then Some 2%nat else None.

(** Whether writing [data] to [p] goes through: the value is serializable,
    the parent directory can be made, and the file takes the whole text. *)
Definition write_succeeds (w : world) (pretty : bool) (entry : pure_path * pyval) : bool :=
  bool_decide (is_Some (json_dumps (indent_of pretty) entry.2))
  && mkdir_ok w (parent entry.1)
  && match write_outcome w entry.1 with IoOk => true | _ => false end.

(** What the file at the path of [entry] holds after [write_json_file] has
    been called for it, given what it held before: the whole text after a
    complete write, the part that reached it after a write that broke, and
    what it held before in every other case (no text, no parent directory,
    or [open] refused). *)
Definition file_after (w : world) (pretty : bool) (before : option string)
    (entry : pure_path * pyval) : option string :=
  match json_dumps (indent_of pretty) entry.2 with
  | None => before
  | Some t =>
      if mkdir_ok w (parent entry.1) then
        match write_outcome w entry.1 with
        | IoOk => Some (string_of_list_ascii t)
        | IoRefused => before
        | IoBroken kept => Some (string_of_list_ascii (take kept t))
        end
      else before
  end.

(** The four names read from the fit module and the file of each. *)
Definition fit_table : list (string * string) :=
  [("BASE_TYPE", "base_type.json");
   ("FIELD_TYPE_TO_BASE_TYPE", "field_type_to_base_type.json");
   ("BASE_TYPE_DEFINITIONS", "base_type_definitions.json");
   ("NUMERIC_FIELD_TYPES", "numeric_field_types.json")].

Definition profile_entry (a : args) (profile : pyval) : pure_path * pyval :=
  (joinpath (Path (args_output a)) "profile.json", profile).

(** One output per fit name that exists on the module. *)
Definition fit_entries (a : args) (fit_module : namespace) : list (pure_path * pyval) :=
  omap (fun nf => v ← fit_module !! nf.1;
                  Some (joinpath (Path (args_output a)) nf.2, v)) fit_table.

(** [data is None] *)
Definition is_pynone (v : pyval) : bool :=
  match v with PNone => true | _ => false end.

(** The fit outputs the loop goes for: the names whose value is not [None]. *)
Definition fit_writes (a : args) (fit_module : namespace) : list (pure_path * pyval) :=
  filter (fun e => is_pynone e.2 = false) (fit_entries a fit_module).

(** Both modules load at the configured path and the profile module has a
    [Profile]. *)
Definition resolves (w : world) (a : args) (profile_module : namespace)
    (profile : pyval) (fit_module : namespace) : Prop :=
  (forall st, find_module w (args_path a) "profile" st = (Ret (Some profile_module), st))
  /\ profile_module !! "Profile" = Some profile
  /\ (forall st, find_module w (args_path a) "fit" st = (Ret (Some fit_module), st)).

Definition start (fs : gmap pure_path string) : state :=
  {| files := fs; dirs := ∅; console := [] |}.

(** A run that adds to the files and to the console without looking at
    them. *)
Definition framed {A : Type} (m : proc A) : Prop :=
  exists (r : outcome A) (new_files : gmap pure_path string) (new_dirs : gset pure_path)
         (log : list message),
    forall st, m st = (r, {| files := new_files ∪ files st;
                             dirs := new_dirs ∪ dirs st;
                             console := console st ++ log |}).

(** The entries of [fit_files] the loop writes, with their paths. *)
Definition loop_writes (out : pure_path) (items : list (string * pyval))
  : list (pure_path * pyval) :=
  omap (fun it => if is_pynone it.2 then None else Some (joinpath out it.1, it.2)) items.

Definition warning_of (m : message) : option string :=
  match m with WarnNoData f => Some f | _ => None end.

Definition warned (log : list message) : list string := omap warning_of log.

Definition fit_names : list string := fit_table.*1.

(** ** Values with a faithful JSON form *)

(** A code point that is a Unicode scalar value: in range and not a
    surrogate. *)
Definition scalar_value (c : N) : bool :=
  (c <? 55296) || ((57343 <? c) && (c <? 1114112)).

Definition plain_str (s : pystr) : Prop := Forall (fun c => scalar_value c = true) s.

(** [None], booleans, integers, strings of scalar values, lists of such
    values, and dictionaries whose keys are (distinct) strings of scalar
    values. *)
Fixpoint json_value (v : pyval) : bool :=
  match v with
  | PNone | PBool _ | PInt _ => true
  | PStr s => forallb scalar_value s
  | PList l => forallb json_value l
  | PDict d =>
      forallb (fun kv =>
                 match kv with
                 | (PStr s, x) => forallb scalar_value s && json_value x
                 | _ => false
                 end) d
      && bool_decide (NoDup (omap (fun kv => match kv.1 with
                                             | PStr s => Some s
                                             | _ => None
                                             end) d))
  | PTuple _ | PObj => false
  end.

(** The entries of a dictionary as the decoder collects them. *)
Definition pairs_of (d : list (pyval * pyval)) : list (pystr * pyval) :=
  omap (fun kv => match kv.1 with PStr s => Some (s, kv.2) | _ => None end) d.

(** ** What the scanner meets *)

Definition first_is (P : ascii -> Prop) (t : text) : Prop :=
  match t with
  | c :: _ => P c
  | [] => False
  end.

(** What may follow a value inside a document. *)
Definition delimiter (c : ascii) : bool :=
  is_ws c || Ascii.eqb c ","%char || Ascii.eqb c "]"%char || Ascii.eqb c "}"%char.

Definition delimited (rest : text) : Prop :=
  match rest with
  | [] => True
  | c :: _ => delimiter c = true
  end.

(** The first character of a JSON number. *)
Definition starts_number (c : ascii) : Prop := is_digit c = true \/ c = "-"%char.

Definition blank (t : text) : Prop := Forall (fun c => is_ws c = true) t.

(** A character a value can start with: not whitespace, not a closing
    bracket. *)
Definition value_start (c : ascii) : Prop :=
  is_ws c = false /\ Ascii.eqb c "]"%char = false /\ Ascii.eqb c "}"%char = false.

(** The scanner reads back what an encoder with these settings wrote for
    [x], wherever it stands in a document. *)
Definition reads_back (indent : option nat) (item_separator key_separator : text)
    (x : pyval) : Prop :=
  forall level t, iterencode indent item_separator key_separator x level = Some t ->
  forall fuel rest, (length t < fuel)%nat -> delimited rest ->
  scan_once fuel (t ++ rest) = Some (x, rest).

(** ** The layout of the text *)

(** Where a left-to-right reader of a JSON text stands: inside a line after
    a token, just after an opening bracket, just after an item separator,
    inside a string literal (possibly after a backslash), or in the
    indentation of a line that has to start with an item or with a closing
    bracket. *)
Inductive layout_mode : Type :=
| Outside
| Opened
| Comma
| InString
| Escaped
| IndentItem (spaces : nat)
| IndentClose (spaces : nat).

Definition is_opening (c : ascii) : bool := Ascii.eqb c "["%char || Ascii.eqb c "{"%char.
Definition is_closing (c : ascii) : bool := Ascii.eqb c "]"%char || Ascii.eqb c "}"%char.

(** A character met between tokens, [depth] brackets being open. *)
Definition layout_outside (depth : nat) (c : ascii) : option (layout_mode * nat) :=
  if Ascii.eqb c dquote then Some (InString, depth)
  else if is_opening c then Some (Opened, S depth)
  else if is_closing c then None
  else if Ascii.eqb c ","%char then Some (Comma, depth)
  else if Ascii.eqb c newline then Some (IndentClose 0, depth)
  else Some (Outside, depth).

(** One character of the layout with [width] spaces per level: an opening
    bracket is followed by its closing bracket or by a line break; an item
    separator is followed by a line break; an item starts its line after
    [width * depth] spaces; a closing bracket that ends a non-empty
    container starts its line after [width * (depth - 1)] spaces. *)
Definition layout_step (width : nat) (st : option (layout_mode * nat)) (c : ascii)
  : option (layout_mode * nat) :=
  match st with
  | None => None
  | Some (Outside, depth) => layout_outside depth c
  | Some (Opened, depth) =>
      if is_closing c then Some (Outside, pred depth)
      else if Ascii.eqb c newline then Some (IndentItem 0, depth)
      else None
  | Some (Comma, depth) =>
      if Ascii.eqb c newline then Some (IndentItem 0, depth) else None
  | Some (InString, depth) =>
      if Ascii.eqb c dquote then Some (Outside, depth)
      else if Ascii.eqb c backslash then Some (Escaped, depth)
      else Some (InString, depth)
  | Some (Escaped, depth) => Some (InString, depth)
  | Some (IndentItem k, depth) =>
      if Ascii.eqb c space then Some (IndentItem (S k), depth)
      else if Nat.eqb k (width * depth) then layout_outside depth c
      else None
  | Some (IndentClose k, depth) =>
      if Ascii.eqb c space then Some (IndentClose (S k), depth)
      else if is_closing c && Nat.eqb k (width * pred depth) then Some (Outside, pred depth)
      else None
  end.

Definition layout_run (width : nat) (t : text) (st : option (layout_mode * nat))
  : option (layout_mode * nat) :=
  fold_left (layout_step width) t st.

(** The text is laid out one item per line with [width] spaces of
    indentation per nesting level. *)
Definition indented_by (width : nat) (t : text) : Prop :=
  layout_run width t (Some (Outside, 0%nat)) = Some (Outside, 0%nat).

(** The text has no line break. *)
Definition one_line (t : text) : Prop := Forall (fun c => c <> newline) t.

(** No text with the same parse is shorter. *)
Definition minimal_form (t : text) : Prop :=
  forall u, json_loads u = json_loads t -> (length t <= length u)%nat.

Definition quoted (s : string) : text := dquote :: chars s ++ [dquote].

(** A character that is part of a token and changes nothing between
    tokens. *)
Definition inert (c : ascii) : Prop :=
  forall depth, layout_outside depth c = Some (Outside, depth).

(** Where a reader of the one-line form stands: between tokens, inside a
    string literal (possibly after a backslash), or just after a separating
    comma or colon. *)
Inductive compact_mode : Type :=
| Between
| Quoted
| QuotedEscape
| Separated.

(** One character of the one-line form: a comma or a colon outside a string
    is followed by one space, and there is no other whitespace outside
    strings. *)
Definition compact_step (st : option compact_mode) (c : ascii) : option compact_mode :=
  match st with
  | None => None
  | Some Between =>
      if Ascii.eqb c dquote then Some Quoted
      else if Ascii.eqb c ","%char || Ascii.eqb c ":"%char then Some Separated
      else if is_ws c then None
      else Some Between
  | Some Separated => if Ascii.eqb c space then Some Between else None
  | Some Quoted =>
      if Ascii.eqb c dquote then Some Between
      else if Ascii.eqb c backslash then Some QuotedEscape
      else Some Quoted
  | Some QuotedEscape => Some Quoted
  end.

Definition compact_run (t : text) (st : option compact_mode) : option compact_mode :=
  fold_left compact_step t st.

(** The text is written with the separators [", "] and [": "] and no other
    whitespace between its tokens. *)
Definition default_separators (t : text) : Prop :=
  compact_run t (Some Between) = Some Between.

(** A character of a token that is neither a quote, a separator nor
    whitespace. *)
Definition calm (c : ascii) : Prop := compact_step (Some Between) c = Some Between.

(** ** Further observations on a run *)

(** The messages that begin with ["Error:"]. *)
Definition is_error (m : message) : bool :=
  match m with
  | ErrModule _ _ | ErrNoProfile | ErrNoFitObjects | ErrWrite _ => true
  | _ => false
  end.

(** The one line the loop prints for an entry of [fit_files]. *)
Definition loop_message (w : world) (out : pure_path) (pretty : bool)
    (item : string * pyval) : message :=
  if is_pynone item.2 then WarnNoData item.1
  else if write_succeeds w pretty (joinpath out item.1, item.2)
       then WroteFile item.1 (joinpath out item.1)
       else ErrWrite (joinpath out item.1).

(** What a run prints once both modules are loaded and the output directory
    is made. *)
Definition transcript (w : world) (a : args) (profile : pyval) (fit_module : namespace)
  : list message :=
  let out := Path (args_output a) in
  if write_succeeds w (args_pretty a) (profile_entry a profile) then
    WroteProfile (joinpath out "profile.json")
    :: map (loop_message w out (args_pretty a)) (fit_files (extract_fit_objects fit_module))
    ++ (if forallb (write_succeeds w (args_pretty a)) (fit_writes a fit_module)
        then [AllExported (args_output a)] else [])
  else [ErrWrite (joinpath out "profile.json")].

(** The five files a run can write. *)
Definition output_paths (a : args) : list pure_path :=
  map (joinpath (Path (args_output a))) ("profile.json" :: fit_table.*2).

(** A run that leaves the file [q] as it is. *)
Definition keeps_file {A : Type} (q : pure_path) (m : proc A) : Prop :=
  forall st, files (m st).2 !! q = files st !! q.

(** A run that makes no directory outside [D]. *)
Definition dirs_within {A : Type} (D : gset pure_path) (m : proc A) : Prop :=
  forall st, dirs (m st).2 ⊆ D ∪ dirs st.

(** ** Further observations on the JSON text *)

(** The printable 7-bit characters, [' '] to ['~']. *)
Definition printable (c : ascii) : bool :=
  let n := N_of_ascii c in (32 <=? n) && (n <=? 126).

(** A character of a written file: printable, or a line feed when the text
    is indented. *)
Definition text_char (pretty : bool) (c : ascii) : bool :=
  printable c || (pretty && Ascii.eqb c newline).

(** The values [json.dumps] accepts: no object without a JSON mapping, and
    no dictionary key other than a string, an integer, a boolean or
    [None]. *)
Fixpoint serializable (v : pyval) : bool :=
  match v with
  | PNone | PBool _ | PInt _ | PStr _ => true
  | PList l | PTuple l => forallb serializable l
  | PDict d =>
      forallb (fun kv =>
                 match kv with
                 | (k, x) => bool_decide (is_Some (dict_key k)) && serializable x
                 end) d
  | PObj => false
  end.

(** The value as JSON has it: tuples are arrays, and every dictionary key is
    the string the encoder writes for it. *)
Fixpoint json_form (v : pyval) : pyval :=
  match v with
  | PList l | PTuple l => PList (map json_form l)
  | PDict d =>
      PDict (map (fun kv =>
                    match kv with
                    | (k, x) =>
                        (match dict_key k with Some s => PStr s | None => k end,
                         json_form x)
                    end) d)
  | _ => v
  end.

(** ** The claims as the specification states them *)

(** C1, as the specification states it: the files written are those of the
    names that exist, and the exit code is 0 exactly when every attempted
    write succeeded. *)
Definition exact_outputs (w : world) (a : args) (profile : pyval) (fit_module : namespace)
    (fs : gmap pure_path string) : Prop :=
  let run := main w a (start fs) in
  written (console run.2) = (profile_entry a profile :: fit_entries a fit_module).*1
  /\ (exit_code run.1 = 0%Z <->
      forall e, e ∈ profile_entry a profile :: fit_entries a fit_module ->
                e.1 ∈ attempted (console run.2) ->
                write_succeeds w (args_pretty a) e = true).

(** C2, as the specification states it: with a profile module that has
    [Profile] and no fit module, [profile.json] is written and the exit code
    is not 0. *)
Definition profile_written_before_fit (w : world) (a : args) (fs : gmap pure_path string)
  : Prop :=
  let run := main w a (start fs) in
  is_Some (files run.2 !! joinpath (Path (args_output a)) "profile.json")
  /\ exit_code run.1 <> 0%Z.



(** C6, as the specification states it for [pretty=false]: the compact text
    is the minimal one. *)
Definition compact_is_minimal : Prop :=
  forall data t, json_dumps (indent_of false) data = Some t -> minimal_form t.

(** ** Example runs *)

Definition example_profile : pyval := PDict [(PStr (py "a"), PInt 1)].

Definition example_fit : namespace :=
  {[ "BASE_TYPE" := PDict [(PStr (py "enum"), PInt 0)] ]}.

(** A directory [sdk] with [profile.py], and [fit.py] when [fit] is given. *)
Definition example_nodes (profile_src : source) (fit : option source) : gmap string node :=
  let base : gmap string node :=
    {[ "sdk" := Directory; "sdk/profile.py" := Regular profile_src ]} in
  match fit with
  | Some src => <["sdk/fit.py" := Regular src]> base
  | None => base
  end.

Definition example_world (profile_src : source) (fit : option source)
    (io : pure_path -> io_outcome) : world :=
  {| nodes := example_nodes profile_src fit;
     extension_suffixes := [".so"];
     mkdir_ok := fun _ => true;
     write_outcome := io |}.

Definition profile_src : source := Defines {[ "Profile" := example_profile ]}.

Definition io_fine : pure_path -> io_outcome := fun _ => IoOk.

(** Every file can be written except [profile.json]. *)
Definition io_profile_refused : pure_path -> io_outcome :=
  fun p => if bool_decide (p = ["out"; "profile.json"]) then IoRefused else IoOk.

(** Every file can be written, but the write of [base_type.json] breaks
    after [kept] characters. *)
Definition io_base_type_broken (kept : nat) : pure_path -> io_outcome :=
  fun p => if bool_decide (p = ["out"; "base_type.json"]) then IoBroken kept else IoOk.

(** Every file can be written except [base_type.json]. *)
Definition io_base_type_refused : pure_path -> io_outcome :=
  fun p => if bool_decide (p = ["out"; "base_type.json"]) then IoRefused else IoOk.

Definition example_args : args :=
  {| args_path := "sdk"; args_output := "out"; args_pretty := false |}.

Definition full_world : world := example_world profile_src (Some (Defines example_fit)) io_fine.





(** The example modules where no directory can be made. *)
Definition no_mkdir_world : world :=
  {| nodes := example_nodes profile_src (Some (Defines example_fit));
     extension_suffixes := [".so"];
     mkdir_ok := fun _ => false;
     write_outcome := io_fine |}.

(** The example modules where every write breaks after [kept] characters. *)
Definition broken_write_world (kept : nat) : world :=
  example_world profile_src (Some (Defines example_fit)) (fun _ => IoBroken kept).


(** A fit module with two of the four names. *)
Definition two_fit : namespace :=
  {[ "BASE_TYPE" := PDict [(PStr (py "enum"), PInt 0)];
     "NUMERIC_FIELD_TYPES" := PList [PStr (py "sint8")] ]}.

(** A dictionary with an integer key, a boolean key and a tuple. *)
Definition mixed_keys : pyval :=
  PDict [(PInt 13, PTuple [PInt 1; PStr (py "x")]); (PBool true, PNone)].

(** ** Induction on values *)

Section PyvalInduction.
Variable P : pyval -> Prop.
Hypothesis HNone : P PNone.
Hypothesis HBool : forall b, P (PBool b).
Hypothesis HInt : forall n, P (PInt n).
Hypothesis HStr : forall s, P (PStr s).
Hypothesis HList : forall l, Forall P l -> P (PList l).
Hypothesis HTuple : forall l, Forall P l -> P (PTuple l).
Hypothesis HDict : forall d, Forall (fun kv => P kv.2) d -> P (PDict d).
Hypothesis HObj : P PObj.

Fixpoint pyval_nested_ind (v : pyval) : P v :=
  let all :=
    fix all (l : list pyval) : Forall P l :=
      match l with
      | [] => List.Forall_nil P
      | x :: rest => @List.Forall_cons _ P x rest (pyval_nested_ind x) (all rest)
      end in
  match v with
  | PNone => HNone
  | PBool b => HBool b
  | PInt n => HInt n
  | PStr s => HStr s
  | PList l => HList l (all l)
  | PTuple l => HTuple l (all l)
  | PDict d =>
      HDict d
        ((fix values (d : list (pyval * pyval)) : Forall (fun kv => P kv.2) d :=
            match d with
            | [] => List.Forall_nil _
            | (k, x) :: rest =>
                @List.Forall_cons _ (fun kv => P kv.2) (k, x) rest
                  (pyval_nested_ind x) (values rest)
            end) d)
  | PObj => HObj
  end.
End PyvalInduction.

(** ** Properties of the monad *)

Lemma bind_ret {A B : Type} (a : A) (k : A -> proc B) (st : state) :
  (mret a ≫= k) st = k a st.
Proof. reflexivity. Qed.

Lemma bind_eq {A B : Type} (m : proc A) (k : A -> proc B) (st st' : state) (a : A) :
  m st = (Ret a, st') -> (m ≫= k) st = k a st'.
Proof. intros H. unfold mbind, proc_bind. now rewrite H. Qed.

Lemma bind_raise {A B : Type} (m : proc A) (k : A -> proc B) (st st' : state) (e : exn) :
  m st = (Raise e, st') -> (m ≫= k) st = (Raise e, st').
Proof. intros H. unfold mbind, proc_bind. now rewrite H. Qed.

Lemma bind_exit {A B : Type} (m : proc A) (k : A -> proc B) (st st' : state) (c : Z) :
  m st = (SysExit c, st') -> (m ≫= k) st = (SysExit c, st').
Proof. intros H. unfold mbind, proc_bind. now rewrite H. Qed.

Lemma state_eta (st : state) :
  {| files := files st; dirs := dirs st; console := console st |} = st.
Proof. now destruct st. Qed.

Section Frames.
Context {A B : Type}.

Lemma framed_ret (a : A) : framed (mret a : proc A).
Proof.
  exists (Ret a), ∅, ∅, []. intros [fs ds log]. unfold mret, proc_ret. cbn.
  now rewrite !(left_id_L ∅ (∪)), app_nil_r.
Qed.

Lemma framed_raise (e : exn) : framed (raise e : proc A).
Proof.
  exists (Raise e), ∅, ∅, []. intros [fs ds log]. unfold raise. cbn.
  now rewrite !(left_id_L ∅ (∪)), app_nil_r.
Qed.

Lemma framed_sys_exit (c : Z) : framed (sys_exit c : proc A).
Proof.
  exists (SysExit c), ∅, ∅, []. intros [fs ds log]. unfold sys_exit. cbn.
  now rewrite !(left_id_L ∅ (∪)), app_nil_r.
Qed.

Lemma framed_bind (m : proc A) (k : A -> proc B) :
  framed m -> (forall a, framed (k a)) -> framed (m ≫= k).
Proof.
  intros (r & M & D & log & Hm) Hk. destruct r as [a | e | c].
  - destruct (Hk a) as (r' & M' & D' & log' & Hka).
    exists r', (M' ∪ M), (D' ∪ D), (log ++ log'). intros st.
    rewrite (bind_eq _ _ _ _ _ (Hm st)), Hka. cbn.
    now rewrite !(assoc_L (∪)), app_assoc.
  - exists (Raise e), M, D, log. intros st. now rewrite (bind_raise _ _ _ _ _ (Hm st)).
  - exists (SysExit c), M, D, log. intros st. now rewrite (bind_exit _ _ _ _ _ (Hm st)).
Qed.
End Frames.

Lemma framed_print (m : message) : framed (print m).
Proof.
  exists (Ret tt), ∅, ∅, [m]. intros st. unfold print.
  now rewrite !(left_id_L ∅ (∪)).
Qed.

Lemma framed_try_except {A : Type} (body handler : proc A) (caught : exn -> bool) :
  framed body -> framed handler -> framed (try_except body caught handler).
Proof.
  intros (r & M & D & log & Hb) (r' & M' & D' & log' & Hh). unfold try_except.
  destruct r as [a | e | c].
  - exists (Ret a), M, D, log. intros st. now rewrite Hb.
  - destruct (caught e) eqn:Hc.
    + exists r', (M' ∪ M), (D' ∪ D), (log ++ log'). intros st. rewrite Hb, Hc, Hh. cbn.
      now rewrite !(assoc_L (∪)), app_assoc.
    + exists (Raise e), M, D, log. intros st. now rewrite Hb, Hc.
  - exists (SysExit c), M, D, log. intros st. now rewrite Hb.
Qed.

Lemma framed_open_and_write (w : world) (p : pure_path) (json_str : text) :
  framed (open_and_write w p json_str).
Proof.
  unfold open_and_write. destruct (write_outcome w p) as [| | kept].
  - exists (Ret tt), {[p := string_of_list_ascii json_str]}, ∅, []. intros st.
    now rewrite insert_union_singleton_l, (left_id_L ∅ (∪)), app_nil_r.
  - exists (Raise OSError), ∅, ∅, []. intros [fs ds log]. cbn.
    now rewrite !(left_id_L ∅ (∪)), app_nil_r.
  - exists (Raise OSError), {[p := string_of_list_ascii (take kept json_str)]}, ∅, [].
    intros st. now rewrite insert_union_singleton_l, (left_id_L ∅ (∪)), app_nil_r.
Qed.

Lemma framed_dumps (data : pyval) (pretty : bool) : framed (dumps data pretty).
Proof.
  unfold dumps. destruct (json_dumps _ data); [apply framed_ret | apply framed_raise].
Qed.

Lemma framed_mkdir (w : world) (p : pure_path) : framed (mkdir w p).
Proof.
  unfold mkdir. destruct (mkdir_ok w p); [| apply framed_raise].
  exists (Ret tt), ∅, (list_to_set (ancestors p)), []. intros st.
  now rewrite (left_id_L ∅ (∪)), app_nil_r.
Qed.

Create HintDb frames.
#[local] Hint Resolve framed_ret framed_raise framed_sys_exit framed_print
  framed_open_and_write framed_dumps framed_mkdir : frames.

Ltac frame :=
  repeat first
    [ solve [ auto with frames ]
    | match goal with
      | |- framed (match ?x with _ => _ end) => destruct x
      | |- framed (if ?b then _ else _) => destruct b
      end
    | apply framed_bind; [ | intros ? ]
    | apply framed_try_except ].

Lemma framed_find_module (w : world) (path module_name : string) :
  framed (find_module w path module_name).
Proof. unfold find_module, exec_module. frame. Qed.

Lemma framed_write_json_file (w : world) (data : pyval) (p : pure_path) (pretty : bool) :
  framed (write_json_file w data p pretty).
Proof. unfold write_json_file. frame. Qed.

Lemma framed_write_fit_files (w : world) (out : pure_path) (pretty : bool)
    (items : list (string * pyval)) (success : bool) :
  framed (write_fit_files w out pretty items success).
Proof.
  revert success. induction items as [| [filename data] rest IH]; intros success; cbn.
  - frame.
  - pose proof (framed_write_json_file w data (joinpath out filename) pretty).
    destruct data; frame; auto.
Qed.

Lemma framed_main (w : world) (a : args) : framed (main w a).
Proof.
  unfold main, getattr.
  pose proof framed_find_module. pose proof framed_write_json_file.
  pose proof framed_write_fit_files. frame; auto.
Qed.

(** ** The writer, step by step *)

Lemma write_json_file_succeeds (w : world) (d : pyval) (p : pure_path) (pretty : bool)
    (st : state) :
  write_succeeds w pretty (p, d) = true ->
  exists s, json_dumps (indent_of pretty) d = Some s /\
    write_json_file w d p pretty st =
      (Ret true, {| files := <[p := string_of_list_ascii s]> (files st);
                    dirs := list_to_set (ancestors (parent p)) ∪ dirs st;
                    console := console st |}).
Proof.
  unfold write_succeeds. cbn [fst snd]. intros H.
  apply andb_prop in H as [H Hio]. apply andb_prop in H as [Hser Hdir].
  apply bool_decide_eq_true in Hser as [s Hs]. exists s. split; [exact Hs |].
  unfold write_json_file, try_except, dumps, mkdir, open_and_write, mbind, proc_bind,
    indent_of in *.
  rewrite Hs, Hdir. cbn. destruct (write_outcome w p); try discriminate. reflexivity.
Qed.

Lemma write_json_file_fails (w : world) (d : pyval) (p : pure_path) (pretty : bool)
    (st : state) :
  write_succeeds w pretty (p, d) = false ->
  exists fs' ds', write_json_file w d p pretty st =
    (Ret false, {| files := fs'; dirs := ds'; console := console st ++ [ErrWrite p] |}).
Proof.
  unfold write_succeeds. cbn [fst snd]. intros H.
  unfold write_json_file, try_except, dumps, mkdir, open_and_write, mbind, proc_bind,
    indent_of in *.
  destruct (json_dumps _ d) as [s |] eqn:Hs; cbn.
  - destruct (mkdir_ok w (parent p)) eqn:Hdir; cbn.
    + destruct (write_outcome w p) eqn:Hio; cbn; eauto.
      exfalso. rewrite bool_decide_eq_true_2 in H by eauto. discriminate.
    + eauto.
  - eauto.
Qed.

Lemma write_json_file_true (w : world) (d : pyval) (p : pure_path) (pretty : bool)
    (st st' : state) :
  write_json_file w d p pretty st = (Ret true, st') ->
  write_succeeds w pretty (p, d) = true.
Proof.
  intros H. destruct (write_succeeds w pretty (p, d)) eqn:E; [reflexivity |].
  destruct (write_json_file_fails w d p pretty st E) as (fs' & ds' & H').
  rewrite H' in H. discriminate.
Qed.

Lemma attempted_app (l1 l2 : list message) :
  attempted (l1 ++ l2) = attempted l1 ++ attempted l2.
Proof. apply omap_app. Qed.

Lemma written_app (l1 l2 : list message) : written (l1 ++ l2) = written l1 ++ written l2.
Proof. apply omap_app. Qed.

Lemma warned_app (l1 l2 : list message) : warned (l1 ++ l2) = warned l1 ++ warned l2.
Proof. apply omap_app. Qed.

Lemma write_fit_files_run (w : world) (out : pure_path) (pretty : bool)
    (items : list (string * pyval)) :
  forall (success : bool) (st : state),
  exists fs' ds' log,
    write_fit_files w out pretty items success st =
      (Ret (success && forallb (write_succeeds w pretty) (loop_writes out items)),
       {| files := fs'; dirs := ds'; console := console st ++ log |})
    /\ attempted log = (loop_writes out items).*1
    /\ written log = (filter (fun e => write_succeeds w pretty e = true)
                             (loop_writes out items)).*1
    /\ warned log = (filter (fun it => is_pynone it.2 = true) items).*1.
Proof.
  induction items as [| [filename data] rest IH]; intros success st.
  - exists (files st), (dirs st), []. cbn. rewrite app_nil_r, andb_true_r, state_eta. auto.
  - destruct (is_pynone data) eqn:Hnone.
    + destruct data; try discriminate. cbn [write_fit_files].
      destruct (IH success {| files := files st; dirs := dirs st;
                              console := console st ++ [WarnNoData filename] |})
        as (fs' & ds' & log & Hrun & Ha & Hw & Hn).
      exists fs', ds', (WarnNoData filename :: log). split; [| split; [| split]].
      * erewrite bind_eq by reflexivity. rewrite Hrun. cbn.
        now rewrite <- app_assoc.
      * exact Ha.
      * exact Hw.
      * rewrite filter_cons_True by reflexivity. cbn. now f_equal.
    + assert (Hstep : write_fit_files w out pretty ((filename, data) :: rest) success =
                (ok ← write_json_file w data (joinpath out filename) pretty;
                 if ok : bool then
                   print (WroteFile filename (joinpath out filename));;
                   write_fit_files w out pretty rest success
                 else write_fit_files w out pretty rest false))
        by (destruct data; try discriminate; reflexivity).
      rewrite Hstep. clear Hstep.
      assert (Hl : loop_writes out ((filename, data) :: rest) =
                   (joinpath out filename, data) :: loop_writes out rest)
        by (unfold loop_writes; cbn; now rewrite Hnone).
      rewrite Hl. cbn [forallb fmap list_fmap fst].
      rewrite (filter_cons_False _ (filename, data)) by (cbn; congruence).
      destruct (write_succeeds w pretty (joinpath out filename, data)) eqn:Hok.
      * destruct (write_json_file_succeeds w data _ pretty st Hok) as (s & _ & Hwr).
        destruct (IH success
                    {| files := <[joinpath out filename := string_of_list_ascii s]> (files st);
                       dirs := list_to_set (ancestors (parent (joinpath out filename)))
                               ∪ dirs st;
                       console := console st ++ [WroteFile filename (joinpath out filename)] |})
          as (fs' & ds' & log & Hrun & Ha & Hw & Hn).
        exists fs', ds', (WroteFile filename (joinpath out filename) :: log).
        split; [| split; [| split]].
        -- erewrite bind_eq by exact Hwr. cbv beta iota.
           erewrite bind_eq by reflexivity. cbn [files dirs console]. rewrite Hrun. cbn. now rewrite <- app_assoc.
        -- cbn. now f_equal.
        -- rewrite filter_cons_True by exact Hok. cbn. now f_equal.
        -- exact Hn.
      * destruct (write_json_file_fails w data _ pretty st Hok) as (fs1 & ds1 & Hwr).
        destruct (IH false
                    {| files := fs1; dirs := ds1;
                       console := console st ++ [ErrWrite (joinpath out filename)] |})
          as (fs' & ds' & log & Hrun & Ha & Hw & Hn).
        exists fs', ds', (ErrWrite (joinpath out filename) :: log).
        split; [| split; [| split]].
        -- erewrite bind_eq by exact Hwr. cbv beta iota. rewrite Hrun. cbn.
           rewrite <- app_assoc, andb_false_r. reflexivity.
        -- cbn. now f_equal.
        -- rewrite filter_cons_False by (rewrite Hok; discriminate). exact Hw.
        -- exact Hn.
Qed.

(** *** What the files hold afterwards *)

Lemma joinpath_inj (out : pure_path) (f f' : string) :
  joinpath out f = joinpath out f' -> f = f'.
Proof. unfold joinpath. intros H. now apply app_inj_tail in H as [_ H]. Qed.

Lemma write_json_file_other (w : world) (d : pyval) (p q : pure_path) (pretty : bool)
    (st : state) :
  q <> p -> files (write_json_file w d p pretty st).2 !! q = files st !! q.
Proof.
  intros Hq. unfold write_json_file, try_except, dumps, mkdir, open_and_write, mbind,
    proc_bind.
  destruct (json_dumps _ d) as [t |]; cbn; [| reflexivity].
  destruct (mkdir_ok w (parent p)); cbn; [| reflexivity].
  destruct (write_outcome w p); cbn; rewrite ?lookup_insert_ne by congruence; reflexivity.
Qed.

Lemma write_fit_files_step (w : world) (out : pure_path) (pretty : bool)
    (filename : string) (data : pyval) (rest : list (string * pyval)) (success : bool)
    (st : state) :
  exists success' st1,
    write_fit_files w out pretty ((filename, data) :: rest) success st =
      write_fit_files w out pretty rest success' st1
    /\ files st1 =
         if is_pynone data then files st
         else files (write_json_file w data (joinpath out filename) pretty st).2.
Proof.
  destruct (is_pynone data) eqn:Hnone.
  - destruct data; try discriminate. eexists success, _. split; [reflexivity |].
    reflexivity.
  - assert (Hstep : write_fit_files w out pretty ((filename, data) :: rest) success =
              (ok ← write_json_file w data (joinpath out filename) pretty;
               if ok : bool then
                 print (WroteFile filename (joinpath out filename));;
                 write_fit_files w out pretty rest success
               else write_fit_files w out pretty rest false))
      by (destruct data; try discriminate; reflexivity).
    rewrite Hstep. clear Hstep.
    destruct (write_succeeds w pretty (joinpath out filename, data)) eqn:Hok.
    + destruct (write_json_file_succeeds w data _ pretty st Hok) as (s & _ & Hwr).
      eexists success, _. rewrite Hwr. split.
      * erewrite bind_eq by exact Hwr. cbv beta iota.
        erewrite bind_eq by reflexivity. reflexivity.
      * reflexivity.
    + destruct (write_json_file_fails w data _ pretty st Hok) as (fs1 & ds1 & Hwr).
      eexists false, _. rewrite Hwr. split.
      * erewrite bind_eq by exact Hwr. reflexivity.
      * reflexivity.
Qed.

Lemma write_fit_files_other (w : world) (out : pure_path) (pretty : bool)
    (items : list (string * pyval)) (q : pure_path) :
  q ∉ (loop_writes out items).*1 ->
  forall success st,
    files (write_fit_files w out pretty items success st).2 !! q = files st !! q.
Proof.
  induction items as [| [filename data] rest IH]; intros Hq success st; [reflexivity |].
  destruct (write_fit_files_step w out pretty filename data rest success st)
    as (success' & st1 & -> & Hfiles).
  unfold loop_writes in Hq. cbn [omap list_omap fst snd] in Hq.
  destruct (is_pynone data).
  - rewrite IH by exact Hq. now rewrite Hfiles.
  - cbn in Hq. apply not_elem_of_cons in Hq as [Hne Hq].
    rewrite IH by exact Hq. rewrite Hfiles. now apply write_json_file_other.
Qed.

Lemma loop_writes_filename (out : pure_path) (items : list (string * pyval))
    (filename : string) :
  joinpath out filename ∈ (loop_writes out items).*1 -> filename ∈ items.*1.
Proof.
  intros H. apply list_elem_of_fmap in H as ([p d] & Hp & He). cbn in Hp.
  apply list_elem_of_omap in He as ([f d'] & Hin & Hf). cbn in Hf.
  destruct (is_pynone d'); [discriminate |]. injection Hf as <- <-.
  apply joinpath_inj in Hp. subst f. apply list_elem_of_fmap. now exists (filename, d').
Qed.

Lemma write_fit_files_contents (w : world) (out : pure_path) (pretty : bool)
    (items : list (string * pyval)) :
  NoDup items.*1 ->
  forall success st e,
    e ∈ loop_writes out items ->
    write_succeeds w pretty e = true ->
    exists t, json_dumps (indent_of pretty) e.2 = Some t
      /\ files (write_fit_files w out pretty items success st).2 !! e.1 =
           Some (string_of_list_ascii t).
Proof.
  induction items as [| [filename data] rest IH]; intros Hnd success st e He Hok.
  - now apply elem_of_nil in He.
  - apply NoDup_cons in Hnd as [Hfresh Hnd].
    destruct (write_fit_files_step w out pretty filename data rest success st)
      as (success' & st1 & -> & Hfiles).
    unfold loop_writes in He. cbn [omap list_omap fst snd] in He.
    destruct (is_pynone data); [now apply IH |].
    apply elem_of_cons in He as [-> | He]; [| now apply IH].
    cbn [fst snd] in *.
    rewrite write_fit_files_other
      by (intros Hin; apply Hfresh; now apply (loop_writes_filename out)).
    rewrite Hfiles.
    destruct (write_json_file_succeeds w data _ pretty st Hok) as (t & Ht & Hwr).
    exists t. split; [exact Ht |]. rewrite Hwr. cbn [snd files]. apply lookup_insert_eq.
Qed.

Lemma write_json_file_file (w : world) (d : pyval) (p : pure_path) (pretty : bool)
    (st : state) :
  files (write_json_file w d p pretty st).2 !! p =
    file_after w pretty (files st !! p) (p, d).
Proof.
  unfold write_json_file, try_except, dumps, mkdir, open_and_write, mbind, proc_bind,
    file_after, indent_of. cbn [fst snd].
  destruct (json_dumps _ d) as [t |]; cbn; [| reflexivity].
  destruct (mkdir_ok w (parent p)); cbn; [| reflexivity].
  destruct (write_outcome w p); cbn; rewrite ?lookup_insert_eq; reflexivity.
Qed.


Lemma loop_writes_elem (out : pure_path) (items : list (string * pyval))
    (e : pure_path * pyval) :
  e ∈ loop_writes out items -> exists filename, filename ∈ items.*1 /\ e.1 = joinpath out filename.
Proof.
  intros He. apply list_elem_of_omap in He as ([f d] & Hin & Hf). cbn in Hf.
  destruct (is_pynone d); [discriminate |]. injection Hf as <-.
  exists f. split; [| reflexivity]. apply list_elem_of_fmap. now exists (f, d).
Qed.

Lemma write_fit_files_files (w : world) (out : pure_path) (pretty : bool)
    (items : list (string * pyval)) :
  NoDup items.*1 ->
  forall success st e,
    e ∈ loop_writes out items ->
    files (write_fit_files w out pretty items success st).2 !! e.1 =
      file_after w pretty (files st !! e.1) e.
Proof.
  induction items as [| [filename data] rest IH]; intros Hnd success st e He.
  - now apply elem_of_nil in He.
  - apply NoDup_cons in Hnd as [Hfresh Hnd].
    destruct (write_fit_files_step w out pretty filename data rest success st)
      as (success' & st1 & -> & Hfiles).
    unfold loop_writes in He. cbn [omap list_omap fst snd] in He.
    destruct (is_pynone data); [rewrite IH by assumption; now rewrite Hfiles |].
    apply elem_of_cons in He as [-> | He].
    + cbn [fst snd].
      rewrite write_fit_files_other
        by (intros Hin; apply Hfresh; now apply (loop_writes_filename out)).
      rewrite Hfiles. apply write_json_file_file.
    + rewrite IH by assumption. rewrite Hfiles. f_equal.
      apply write_json_file_other.
      destruct (loop_writes_elem out rest e He) as (f & Hf & ->).
      intros Heq. apply joinpath_inj in Heq. now subst f.
Qed.

(** ** The extractor *)

Lemma extract_fit_objects_lookup (m : namespace) (k : string) :
  extract_fit_objects m !! k = if bool_decide (k ∈ fit_names) then m !! k else None.
Proof.
  unfold extract_fit_objects, copy_attr, fit_names, fit_table. cbn [fmap list_fmap fst].
  case_bool_decide as Hk.
  - repeat (apply elem_of_cons in Hk as [-> | Hk]);
      [ .. | now apply elem_of_nil in Hk ];
      repeat match goal with
             | |- context [match m !! ?n with _ => _ end] => destruct (m !! n) eqn:?
             end; simplify_map_eq; congruence.
  - assert (k <> "BASE_TYPE" /\ k <> "FIELD_TYPE_TO_BASE_TYPE"
            /\ k <> "BASE_TYPE_DEFINITIONS" /\ k <> "NUMERIC_FIELD_TYPES")
      as (? & ? & ? & ?)
      by (repeat split; intros ->; apply Hk; set_solver).
    repeat match goal with
           | |- context [match m !! ?n with _ => _ end] => destruct (m !! n) eqn:?
           end; simplify_map_eq; reflexivity.
Qed.

Lemma dict_get_extract (m : namespace) (name : string) :
  name ∈ fit_names -> dict_get (extract_fit_objects m) name = default PNone (m !! name).
Proof.
  intros H. unfold dict_get. rewrite extract_fit_objects_lookup.
  now rewrite bool_decide_eq_true_2.
Qed.

Lemma extract_empty (m : namespace) :
  extract_fit_objects m = ∅ <-> forall name, name ∈ fit_names -> m !! name = None.
Proof.
  split.
  - intros H name Hin. pose proof (extract_fit_objects_lookup m name) as E.
    rewrite H, lookup_empty, bool_decide_eq_true_2 in E by exact Hin. now symmetry.
  - intros H. apply map_eq. intros k. rewrite extract_fit_objects_lookup, lookup_empty.
    case_bool_decide; auto.
Qed.

Lemma fit_files_table (objects : namespace) :
  fit_files objects = map (fun nf => (nf.2, dict_get objects nf.1)) fit_table.
Proof. reflexivity. Qed.

Lemma loop_writes_table (a : args) (m : namespace) (tbl : list (string * string)) :
  Forall (fun nf => nf.1 ∈ fit_names) tbl ->
  loop_writes (Path (args_output a))
    (map (fun nf => (nf.2, dict_get (extract_fit_objects m) nf.1)) tbl) =
  filter (fun e => is_pynone e.2 = false)
    (omap (fun nf => v ← m !! nf.1; Some (joinpath (Path (args_output a)) nf.2, v)) tbl).
Proof.
  induction 1 as [| [name file] tbl Hin _ IH]; [reflexivity |].
  cbn [map omap list_omap fst snd]. unfold loop_writes in *. cbn [omap list_omap fst snd].
  rewrite IH, dict_get_extract by exact Hin.
  destruct (m !! name) as [v |]; cbn.
  - destruct (is_pynone v) eqn:Hv; case_decide; (reflexivity || congruence).
  - reflexivity.
Qed.

Lemma loop_writes_fit_files (a : args) (m : namespace) :
  loop_writes (Path (args_output a)) (fit_files (extract_fit_objects m)) = fit_writes a m.
Proof.
  rewrite fit_files_table. apply loop_writes_table.
  unfold fit_names. apply Forall_forall. intros nf Hin.
  apply list_elem_of_fmap. eauto.
Qed.

Lemma fit_files_names (objects : namespace) :
  (fit_files objects).*1 =
    ["base_type.json"; "field_type_to_base_type.json"; "base_type_definitions.json";
     "numeric_field_types.json"].
Proof. reflexivity. Qed.

Lemma fit_files_distinct (objects : namespace) :
  NoDup (fit_files objects).*1 /\ "profile.json" ∉ (fit_files objects).*1.
Proof.
  rewrite fit_files_names. split.
  - repeat (apply NoDup_cons; split;
            [intros H; repeat (apply elem_of_cons in H as [H | H]; [discriminate |]);
             now apply elem_of_nil in H |]).
    apply NoDup_nil_2.
  - intros H. repeat (apply elem_of_cons in H as [H | H]; [discriminate |]).
    now apply elem_of_nil in H.
Qed.

(** ** The orchestrator, once both modules are loaded *)

Section Resolved.
Variables (w : world) (a : args).
Variables (profile_module : namespace) (profile : pyval) (fit_module : namespace).
Hypothesis Hres : resolves w a profile_module profile fit_module.

Local Abbreviation out := (Path (args_output a)).
Local Abbreviation profile_path := (joinpath (Path (args_output a)) "profile.json").

Lemma main_no_fit_objects (st : state) :
  extract_fit_objects fit_module = ∅ ->
  main w a st =
    (SysExit 1,
     {| files := files st; dirs := dirs st;
        console := console st ++ [ErrNoFitObjects] |}).
Proof.
  destruct Hres as (Hp & Hprof & Hf). intros Hempty. unfold main.
  rewrite (bind_eq _ _ _ _ _ (Hp st)). unfold hasattr.
  rewrite Hprof, bool_decide_eq_true_2 by eauto. cbn [negb].
  rewrite (bind_eq _ _ _ _ _ (Hf st)). cbv zeta.
  rewrite bool_decide_eq_true_2 by exact Hempty. reflexivity.
Qed.

Lemma main_mkdir_fails (st : state) :
  extract_fit_objects fit_module <> ∅ ->
  mkdir_ok w out = false ->
  main w a st = (Raise OSError, st).
Proof.
  destruct Hres as (Hp & Hprof & Hf). intros Hne Hdir. unfold main.
  rewrite (bind_eq _ _ _ _ _ (Hp st)). unfold hasattr.
  rewrite Hprof, bool_decide_eq_true_2 by eauto. cbn [negb].
  rewrite (bind_eq _ _ _ _ _ (Hf st)). cbv zeta.
  rewrite bool_decide_eq_false_2 by exact Hne.
  apply bind_raise. unfold mkdir. now rewrite Hdir.
Qed.

Lemma main_writes (st : state) :
  extract_fit_objects fit_module <> ∅ ->
  mkdir_ok w out = true ->
  main w a st =
    (ok ← write_json_file w profile profile_path (args_pretty a);
     if negb ok then sys_exit 1
     else
       print (WroteProfile profile_path);;
       success ← write_fit_files w out (args_pretty a)
                   (fit_files (extract_fit_objects fit_module)) true;
       if success : bool then print (AllExported (args_output a)) else sys_exit 1)
      {| files := files st; dirs := list_to_set (ancestors out) ∪ dirs st;
         console := console st |}.
Proof.
  destruct Hres as (Hp & Hprof & Hf). intros Hne Hdir. unfold main.
  rewrite (bind_eq _ _ _ _ _ (Hp st)). unfold hasattr.
  rewrite Hprof, bool_decide_eq_true_2 by eauto. cbn [negb].
  rewrite (bind_eq _ _ _ _ _ (Hf st)). cbv zeta.
  rewrite bool_decide_eq_false_2 by exact Hne.
  erewrite bind_eq by (unfold mkdir; rewrite Hdir; reflexivity).
  unfold getattr. rewrite Hprof. reflexivity.
Qed.

Lemma main_profile_write_fails (st : state) :
  extract_fit_objects fit_module <> ∅ ->
  mkdir_ok w out = true ->
  write_succeeds w (args_pretty a) (profile_entry a profile) = false ->
  exists fs' ds',
    main w a st =
      (SysExit 1,
       {| files := fs'; dirs := ds';
          console := console st ++ [ErrWrite profile_path] |}).
Proof.
  intros Hne Hdir Hfail. rewrite main_writes by assumption.
  match goal with
  | |- context [(_ ≫= _) ?st1] =>
      destruct (write_json_file_fails w profile profile_path (args_pretty a) st1 Hfail)
        as (fs' & ds' & Hwr)
  end.
  exists fs', ds'. now rewrite (bind_eq _ _ _ _ _ Hwr).
Qed.

Lemma main_profile_write_succeeds (st : state) :
  extract_fit_objects fit_module <> ∅ ->
  mkdir_ok w out = true ->
  write_succeeds w (args_pretty a) (profile_entry a profile) = true ->
  exists fs' ds' log,
    main w a st =
      (if forallb (write_succeeds w (args_pretty a)) (fit_writes a fit_module)
       then Ret tt else SysExit 1,
       {| files := fs'; dirs := ds'; console := console st ++ log |})
    /\ attempted log = profile_path :: (fit_writes a fit_module).*1
    /\ written log =
         profile_path ::
         (filter (fun e => write_succeeds w (args_pretty a) e = true)
                 (fit_writes a fit_module)).*1
    /\ warned log =
         (filter (fun it => is_pynone it.2 = true)
                 (fit_files (extract_fit_objects fit_module))).*1
    /\ (forall e, e ∈ profile_entry a profile :: fit_writes a fit_module ->
                  write_succeeds w (args_pretty a) e = true ->
                  exists t, json_dumps (indent_of (args_pretty a)) e.2 = Some t
                    /\ fs' !! e.1 = Some (string_of_list_ascii t)).
Proof.
  intros Hne Hdir Hok. rewrite main_writes by assumption.
  match goal with
  | |- context [(_ ≫= _) ?st1] =>
      destruct (write_json_file_succeeds w profile profile_path (args_pretty a) st1 Hok)
        as (s & Hs & Hwr)
  end.
  rewrite (bind_eq _ _ _ _ _ Hwr). cbn [negb].
  erewrite bind_eq by reflexivity. cbn [files dirs console].
  destruct (fit_files_distinct (extract_fit_objects fit_module)) as [Hnd Hfresh].
  match goal with
  | |- context [(write_fit_files _ _ _ ?items true ≫= _) ?st2] =>
      destruct (write_fit_files_run w out (args_pretty a) items true st2)
        as (fs1 & ds1 & log & Hrun & Ha & Hw & Hn);
      pose proof (write_fit_files_contents w out (args_pretty a) items Hnd true st2)
        as Hcontents;
      pose proof (fun H => write_fit_files_other w out (args_pretty a) items
                             profile_path H true st2) as Hother
  end.
  rewrite Hrun in Hcontents, Hother. cbn [snd files] in Hcontents, Hother.
  rewrite lookup_insert_eq in Hother.
  rewrite (bind_eq _ _ _ _ _ Hrun). cbn [andb files dirs console].
  rewrite loop_writes_fit_files in *.
  assert (Hfiles : forall e, e ∈ profile_entry a profile :: fit_writes a fit_module ->
            write_succeeds w (args_pretty a) e = true ->
            exists t, json_dumps (indent_of (args_pretty a)) e.2 = Some t
              /\ fs1 !! e.1 = Some (string_of_list_ascii t)).
  { intros e He Hoke. apply elem_of_cons in He as [-> | He]; [| now apply Hcontents].
    exists s. split; [exact Hs |]. apply Hother. intros Hin. apply Hfresh.
    rewrite <- loop_writes_fit_files in Hin. now apply (loop_writes_filename out). }
  destruct (forallb _ _).
  - exists fs1, ds1, (WroteProfile profile_path :: log ++ [AllExported (args_output a)]).
    split; [| split; [| split; [| split]]].
    + unfold print. cbn. now rewrite <- !app_assoc.
    + cbn. rewrite attempted_app. cbn. rewrite app_nil_r. now f_equal.
    + cbn. rewrite written_app. cbn. rewrite app_nil_r. now f_equal.
    + cbn. rewrite warned_app. cbn. now rewrite app_nil_r.
    + exact Hfiles.
  - exists fs1, ds1, (WroteProfile profile_path :: log).
    split; [| split; [| split; [| split]]].
    + unfold sys_exit. cbn. now rewrite <- !app_assoc.
    + cbn. now f_equal.
    + cbn. now f_equal.
    + exact Hn.
    + exact Hfiles.
Qed.
(** The five output files after a run that reaches the writes. *)
Lemma main_files_after (st : state) :
  extract_fit_objects fit_module <> ∅ ->
  mkdir_ok w out = true ->
  files (main w a st).2 !! profile_path =
    file_after w (args_pretty a) (files st !! profile_path) (profile_entry a profile)
  /\ (forall e, e ∈ fit_writes a fit_module ->
        files (main w a st).2 !! e.1 =
          if write_succeeds w (args_pretty a) (profile_entry a profile)
          then file_after w (args_pretty a) (files st !! e.1) e
          else files st !! e.1)
  /\ (forall q, q <> profile_path -> q ∉ (fit_writes a fit_module).*1 ->
        files (main w a st).2 !! q = files st !! q).
Proof.
  intros Hne Hdir. rewrite main_writes by assumption.
  set (st1 := {| files := files st;
                 dirs := list_to_set (ancestors out) ∪ dirs st;
                 console := console st |}).
  pose proof (write_json_file_file w profile profile_path (args_pretty a) st1) as Hpf.
  pose proof (fun q H => write_json_file_other w profile profile_path q (args_pretty a)
                           st1 H) as Hpo.
  destruct (fit_files_distinct (extract_fit_objects fit_module)) as [Hnd Hfresh].
  assert (Hfit : forall e, e ∈ fit_writes a fit_module -> e.1 <> profile_path).
  { intros e He Heq. rewrite <- loop_writes_fit_files in He.
    destruct (loop_writes_elem _ _ _ He) as (f & Hf & Hp). rewrite Hp in Heq.
    apply joinpath_inj in Heq. now subst f. }
  destruct (write_succeeds w (args_pretty a) (profile_entry a profile)) eqn:Hok.
  - destruct (write_json_file_succeeds w profile profile_path (args_pretty a) st1 Hok)
      as (s & Hs & Hwr).
    rewrite Hwr in Hpf, Hpo. cbn [snd files] in Hpf, Hpo.
    rewrite (bind_eq _ _ _ _ _ Hwr). cbn [negb].
    erewrite bind_eq by reflexivity. cbn [files dirs console].
    match goal with
    | |- context [(write_fit_files _ _ _ ?items true ≫= _) ?st2] =>
        destruct (write_fit_files_run w out (args_pretty a) items true st2)
          as (fs1 & ds1 & log & Hrun & _);
        pose proof (write_fit_files_files w out (args_pretty a) items Hnd true st2)
          as Hfiles;
        pose proof (fun q H => write_fit_files_other w out (args_pretty a) items
                                 q H true st2) as Hother
    end.
    rewrite Hrun in Hfiles, Hother. cbn [snd files] in Hfiles, Hother.
    rewrite (bind_eq _ _ _ _ _ Hrun). rewrite loop_writes_fit_files in *.
    assert (Hend : forall b : bool,
              files ((if b then print (AllExported (args_output a)) else sys_exit 1)
                       {| files := fs1; dirs := ds1;
                          console := (console st1 ++ [WroteProfile profile_path]) ++ log |}).2
              = fs1) by (intros [|]; reflexivity).
    rewrite Hend. split; [| split].
    + rewrite Hother; [exact Hpf |].
      intros Hin. apply list_elem_of_fmap in Hin as (e & Hp & He).
      now apply (Hfit e He).
    + intros e He. rewrite (Hfiles e He). f_equal. apply Hpo. now apply Hfit.
    + intros q Hq Hq'. rewrite (Hother q Hq'). now apply Hpo.
  - destruct (write_json_file_fails w profile profile_path (args_pretty a) st1 Hok)
      as (fs1 & ds1 & Hwr).
    rewrite Hwr in Hpf, Hpo. cbn [snd files] in Hpf, Hpo.
    rewrite (bind_eq _ _ _ _ _ Hwr). cbn [negb sys_exit snd files].
    split; [exact Hpf | split].
    + intros e He. apply Hpo. now apply Hfit.
    + intros q Hq _. now apply Hpo.
Qed.
End Resolved.

(** ** Facts about the examples and the four names *)

Lemma example_fit_entries :
  fit_entries example_args example_fit =
    [(["out"; "base_type.json"], PDict [(PStr (py "enum"), PInt 0)])].
Proof. reflexivity. Qed.


Lemma example_write_succeeds (w : world) :
  w = full_world ->
  write_succeeds w (args_pretty example_args)
    (profile_entry example_args example_profile) = true.
Proof. now intros ->. Qed.

(** Both modules of the example load, whatever the output side does. *)
Lemma resolves_example (io : pure_path -> io_outcome) :
  resolves (example_world profile_src (Some (Defines example_fit)) io) example_args
    {[ "Profile" := example_profile ]} example_profile example_fit.
Proof. repeat split. Qed.

Lemma base_type_name : "BASE_TYPE" ∈ fit_names.
Proof. apply list_elem_of_here. Qed.

Lemma some_name_present (m : namespace) :
  (exists name, name ∈ fit_names /\ is_Some (m !! name)) <-> extract_fit_objects m <> ∅.
Proof.
  rewrite extract_empty. split.
  - intros (name & Hin & [v Hv]) H. rewrite (H name Hin) in Hv. discriminate.
  - intros H. destruct (decide (Exists (fun name => is_Some (m !! name)) fit_names)) as [E | E].
    + apply Exists_exists in E as (name & Hin & Hv). now exists name.
    + exfalso. apply H. intros name Hin. apply eq_None_not_Some. intros Hs.
      apply E, Exists_exists. now exists name.
Qed.

Lemma filter_all {A : Type} (P : A -> Prop) `{forall x, Decision (P x)} (l : list A) :
  Forall P l -> filter P l = l.
Proof.
  induction 1 as [| x l Hx _ IH]; [reflexivity |].
  rewrite filter_cons_True by exact Hx. now f_equal.
Qed.

Lemma fit_writes_all (a : args) (m : namespace) :
  (forall name, name ∈ fit_names -> m !! name <> Some PNone) ->
  fit_writes a m = fit_entries a m.
Proof.
  intros H. unfold fit_writes. apply filter_all, Forall_forall.
  intros [p v] Hin. apply list_elem_of_omap in Hin as ([name file] & Hnf & Hv).
  cbn in *. destruct (m !! name) as [v' |] eqn:E; [| discriminate].
  cbn in Hv. injection Hv as <- <-.
  assert (Hn : name ∈ fit_names) by (apply list_elem_of_fmap; now exists (name, file)).
  specialize (H name Hn). destruct v'; try reflexivity. congruence.
Qed.

(** ** The claims about the orchestrator *)

(** C1, counterexample: when [profile.json] cannot be written the run stops
    there, and the file of [BASE_TYPE], a name that exists, is neither
    written nor attempted: no file exists at its path after the run. *)
Lemma exact_outputs_counterexample :
  let w := example_world profile_src (Some (Defines example_fit)) io_profile_refused in
  resolves w example_args {[ "Profile" := example_profile ]} example_profile example_fit
  /\ (exists name, name ∈ fit_names /\ is_Some (example_fit !! name))
  /\ (["out"; "base_type.json"] ∈ (fit_entries example_args example_fit).*1)
  /\ (["out"; "base_type.json"] ∉ attempted (console (main w example_args (start ∅)).2))
  /\ files (main w example_args (start ∅)).2 !! ["out"; "base_type.json"] = None
  /\ ~ exact_outputs w example_args example_profile example_fit ∅.
Proof.
  cbv zeta. split; [apply resolves_example |]. split.
  - exists "BASE_TYPE". split; [apply base_type_name | vm_compute; eauto].
  - split; [vm_compute; apply list_elem_of_here |]. split; [| split].
    + vm_compute. intros H. apply list_elem_of_singleton in H. discriminate.
    + reflexivity.
    + intros [Hw _]. vm_compute in Hw. discriminate.
Qed.

(** C1, amended: in a run where both modules resolve, [Profile] exists, at
    least one fit name is present, no present fit name is bound to [None]
    and the output directory can be made, the tool attempts [profile.json]
    and, unless that write fails (which ends the run), one file per present
    fit name, in that order.  Of the five output files, an attempted one
    whose write succeeded holds the JSON text of its object; an attempted
    one whose write failed is as it was before the run or, when the write
    broke after the file was opened, holds the part of the text that reached
    it ([file_after]); and one that was not attempted is as it was before
    the run.  The success lines name the attempted files whose write
    succeeded, and the exit code is 0 exactly when every attempted write
    succeeded. *)
Theorem main_outputs (w : world) (a : args) (profile_module : namespace) (profile : pyval)
    (fit_module : namespace) (fs : gmap pure_path string) :
  resolves w a profile_module profile fit_module ->
  (exists name, name ∈ fit_names /\ is_Some (fit_module !! name)) ->
  (forall name, name ∈ fit_names -> fit_module !! name <> Some PNone) ->
  mkdir_ok w (Path (args_output a)) = true ->
  let ok := fun e => write_succeeds w (args_pretty a) e = true in
  let planned :=
    profile_entry a profile ::
    (if write_succeeds w (args_pretty a) (profile_entry a profile)
     then fit_entries a fit_module else []) in
  let run := main w a (start fs) in
  attempted (console run.2) = planned.*1
  /\ written (console run.2) = (filter ok planned).*1
  /\ (forall e, e ∈ filter ok planned ->
                exists t, json_dumps (indent_of (args_pretty a)) e.2 = Some t
                  /\ files run.2 !! e.1 = Some (string_of_list_ascii t))
  /\ (forall e, e ∈ planned ->
                files run.2 !! e.1 = file_after w (args_pretty a) (fs !! e.1) e)
  /\ (forall q, q ∈ output_paths a -> q ∉ planned.*1 -> files run.2 !! q = fs !! q)
  /\ (exit_code run.1 = 0%Z <-> Forall ok planned).
Proof.
  intros Hres Hsome Hnone Hdir ok planned run. subst ok planned run.
  apply some_name_present in Hsome.
  destruct (main_files_after w a _ _ _ Hres (start fs) Hsome Hdir)
    as (Hprofile & Hfit & Hrest).
  rewrite (fit_writes_all a fit_module Hnone) in Hfit, Hrest.
  destruct (write_succeeds w (args_pretty a) (profile_entry a profile)) eqn:Hok.
  - destruct (main_profile_write_succeeds w a _ _ _ Hres (start fs) Hsome Hdir Hok)
      as (fs' & ds' & log & Hrun & Ha & Hw & _ & Hfiles).
    rewrite Hrun in *. clear Hrun.
    rewrite (fit_writes_all a fit_module Hnone) in *.
    cbn [fst snd files console start app] in *.
    split; [exact Ha |]. split; [| split; [| split; [| split]]].
    + rewrite filter_cons_True by exact Hok. exact Hw.
    + intros e He. apply list_elem_of_filter in He as [Hoke He]. now apply Hfiles.
    + intros e He. apply elem_of_cons in He as [-> | He]; [exact Hprofile | now apply Hfit].
    + intros q _ Hq. cbn [fmap list_fmap] in Hq. apply not_elem_of_cons in Hq as [Hq Hq'].
      now apply Hrest.
    + rewrite Forall_cons, Forall_forall.
      destruct (forallb _ _) eqn:Hall; cbn.
      * rewrite forallb_forall in Hall. split; [| reflexivity]. intros _.
        split; [exact Hok |]. intros e He. apply Hall. now apply list_elem_of_In.
      * split; [discriminate |]. intros [_ H]. exfalso.
        assert (forallb (write_succeeds w (args_pretty a)) (fit_entries a fit_module) = true).
        { apply forallb_forall. intros e He. apply H. now apply list_elem_of_In. }
        congruence.
  - destruct (main_profile_write_fails w a _ _ _ Hres (start fs) Hsome Hdir Hok)
      as (fs' & ds' & Hrun).
    rewrite Hrun in *. clear Hrun.
    cbn [fst snd files console start app] in *.
    split; [reflexivity |]. split; [| split; [| split; [| split]]].
    + rewrite filter_cons_False by congruence. reflexivity.
    + rewrite filter_cons_False by congruence. intros e He. now apply elem_of_nil in He.
    + intros e He. apply list_elem_of_singleton in He. now subst e.
    + intros q _ Hq. apply not_elem_of_cons in Hq as [Hq _].
      destruct (decide (q ∈ (fit_entries a fit_module).*1)) as [Hin | Hout].
      * apply list_elem_of_fmap in Hin as (e & -> & He). now apply Hfit.
      * now apply Hrest.
    + split; [discriminate |]. intros H. apply Forall_inv in H. congruence.
Qed.

Lemma main_outputs_witness :
  let w := full_world in
  let a := example_args in
  let run := main w a (start {[ ["out"; "base_type_definitions.json"] := "old" ]}) in
  resolves w a {[ "Profile" := example_profile ]} example_profile example_fit
  /\ attempted (console run.2) = [["out"; "profile.json"]; ["out"; "base_type.json"]]
  /\ written (console run.2) = [["out"; "profile.json"]; ["out"; "base_type.json"]]
  /\ (exists t, json_dumps None (PDict [(PStr (py "enum"), PInt 0)]) = Some t
        /\ files run.2 !! ["out"; "base_type.json"] = Some (string_of_list_ascii t))
  /\ files run.2 !! ["out"; "base_type_definitions.json"] = Some "old"
  /\ exit_code run.1 = 0%Z
  /\ let w' := example_world profile_src (Some (Defines example_fit))
                 (io_base_type_broken 3) in
     let run' := main w' a (start ∅) in
     written (console run'.2) = [["out"; "profile.json"]]
     /\ files run'.2 !! ["out"; "base_type.json"] =
          Some (string_of_list_ascii ["{"%char; dquote; "e"%char])
     /\ exit_code run'.1 <> 0%Z.
Proof.
  cbv zeta.
  assert (Hres := resolves_example io_fine).
  assert (Hsome : exists name, name ∈ fit_names /\ is_Some (example_fit !! name)).
  { exists "BASE_TYPE". split; [apply base_type_name | vm_compute; eauto]. }
  assert (Hnone : forall name, name ∈ fit_names -> example_fit !! name <> Some PNone).
  { intros name Hin. unfold fit_names, fit_table in Hin. cbn in Hin.
    repeat (apply elem_of_cons in Hin as [-> | Hin]); try (vm_compute; discriminate).
    now apply elem_of_nil in Hin. }
  assert (Hdir : mkdir_ok full_world (Path (args_output example_args)) = true)
    by reflexivity.
  destruct (main_outputs full_world example_args _ _ _
              {[ ["out"; "base_type_definitions.json"] := "old" ]} Hres Hsome Hnone Hdir)
    as (Ha & Hw & Hheld & _ & Hrest & He).
  rewrite (example_write_succeeds _ eq_refl), example_fit_entries in *.
  split; [exact Hres |]. split; [exact Ha |]. split; [exact Hw |].
  split; [| split; [| split]].
  - apply (Hheld (["out"; "base_type.json"], PDict [(PStr (py "enum"), PInt 0)])).
    apply list_elem_of_filter. split; [reflexivity |].
    apply list_elem_of_further, list_elem_of_here.
  - rewrite (Hrest ["out"; "base_type_definitions.json"]); [reflexivity | |].
    + unfold output_paths. cbn. do 3 apply list_elem_of_further. apply list_elem_of_here.
    + cbn. intros H. repeat (apply elem_of_cons in H as [H | H]; [discriminate |]).
      now apply elem_of_nil in H.
  - apply He. repeat constructor.
  - set (w' := example_world profile_src (Some (Defines example_fit))
                 (io_base_type_broken 3)).
    destruct (main_outputs w' example_args _ _ _ ∅
                (resolves_example (io_base_type_broken 3)) Hsome Hnone eq_refl)
      as (_ & Hw' & _ & Hafter & _ & He').
    assert (Hok' : write_succeeds w' (args_pretty example_args)
                     (profile_entry example_args example_profile) = true) by reflexivity.
    rewrite Hok', example_fit_entries in *.
    split; [| split].
    + rewrite Hw'. rewrite filter_cons_True by exact Hok'.
      rewrite filter_cons_False by (vm_compute; discriminate). reflexivity.
    + exact (eq_trans
               (Hafter (["out"; "base_type.json"], PDict [(PStr (py "enum"), PInt 0)])
                       (list_elem_of_further _ _ _ (list_elem_of_here _ _)))
               eq_refl).
    + intros H0. apply He' in H0. apply Forall_cons in H0 as [_ H0].
      apply Forall_inv in H0. vm_compute in H0. discriminate.
Defined.

(** C2, counterexample: a directory with [profile.py] and no [fit.py]; the
    run ends at the fit module and no file exists afterwards. *)
Lemma profile_written_before_fit_counterexample :
  let w := example_world profile_src None io_fine in
  (forall st, find_module w "sdk" "profile" st =
                (Ret (Some {[ "Profile" := example_profile ]}), st))
  /\ (forall st, find_module w "sdk" "fit" st = (Ret None, st))
  /\ files (main w example_args (start ∅)).2 = ∅
  /\ ~ profile_written_before_fit w example_args ∅.
Proof.
  cbv zeta. repeat split.
  intros [[v Hv] _]. vm_compute in Hv. discriminate.
Qed.

(** C2, amended: when the profile module loads and has [Profile] but the fit
    module is not found, the run prints the fit-module error and exits with
    code 1 without writing anything; [profile.json] is not written. *)
Theorem main_missing_fit_module (w : world) (a : args) (profile_module : namespace)
    (profile : pyval) (st : state) :
  (forall st, find_module w (args_path a) "profile" st = (Ret (Some profile_module), st)) ->
  profile_module !! "Profile" = Some profile ->
  (forall st, find_module w (args_path a) "fit" st = (Ret None, st)) ->
  main w a st =
    (SysExit 1,
     {| files := files st; dirs := dirs st;
        console := console st ++ [ErrModule "fit" (args_path a)] |})
  /\ exit_code (main w a st).1 = 1%Z
  /\ attempted (console (main w a (start (files st))).2) = [].
Proof.
  intros Hp Hprof Hf.
  assert (Hrun : forall st, main w a st =
    (SysExit 1,
     {| files := files st; dirs := dirs st;
        console := console st ++ [ErrModule "fit" (args_path a)] |})).
  { intros st0. unfold main. rewrite (bind_eq _ _ _ _ _ (Hp st0)). unfold hasattr.
    rewrite Hprof, bool_decide_eq_true_2 by eauto. cbn [negb].
    now rewrite (bind_eq _ _ _ _ _ (Hf st0)). }
  rewrite !Hrun. auto.
Qed.

Lemma main_missing_fit_module_witness :
  let w := example_world profile_src None io_fine in
  main w example_args (start ∅) =
    (SysExit 1, {| files := ∅; dirs := ∅; console := [ErrModule "fit" "sdk"] |})
  /\ exit_code (main w example_args (start ∅)).1 = 1%Z
  /\ attempted (console (main w example_args (start ∅)).2) = [].
Proof.
  cbv zeta.
  apply (main_missing_fit_module (example_world profile_src None io_fine) example_args
           {[ "Profile" := example_profile ]} example_profile (start ∅));
    [intros st; reflexivity | reflexivity | intros st; reflexivity].
Defined.

(** C3: once the writes are reached, a failure to write [profile.json] ends
    the run at once, with a non-zero exit code: no fit file is attempted and
    none is touched.  After [profile.json] is written, every fit object the
    loop has to write (present, not [None]) is attempted and its file is
    what its own write makes it, whichever of the others fail: each one
    whose write succeeds holds the JSON text of its object, also after an
    earlier failure; and a single failure among them makes the exit code
    non-zero. *)
Theorem main_write_failures (w : world) (a : args) (profile_module : namespace)
    (profile : pyval) (fit_module : namespace) (fs : gmap pure_path string) :
  resolves w a profile_module profile fit_module ->
  (exists name, name ∈ fit_names /\ is_Some (fit_module !! name)) ->
  mkdir_ok w (Path (args_output a)) = true ->
  let run := main w a (start fs) in
  (write_succeeds w (args_pretty a) (profile_entry a profile) = false ->
   exit_code run.1 <> 0%Z
   /\ attempted (console run.2) = [joinpath (Path (args_output a)) "profile.json"]
   /\ (forall e, e ∈ fit_writes a fit_module -> files run.2 !! e.1 = fs !! e.1))
  /\ (write_succeeds w (args_pretty a) (profile_entry a profile) = true ->
      attempted (console run.2) =
        joinpath (Path (args_output a)) "profile.json" :: (fit_writes a fit_module).*1
      /\ (forall e, e ∈ fit_writes a fit_module ->
                    files run.2 !! e.1 = file_after w (args_pretty a) (fs !! e.1) e)
      /\ (forall e, e ∈ fit_writes a fit_module ->
                    write_succeeds w (args_pretty a) e = true ->
                    exists t, json_dumps (indent_of (args_pretty a)) e.2 = Some t
                      /\ files run.2 !! e.1 = Some (string_of_list_ascii t))
      /\ (forall e, e ∈ fit_writes a fit_module ->
                    write_succeeds w (args_pretty a) e = false ->
                    exit_code run.1 <> 0%Z)).
Proof.
  intros Hres Hsome Hdir run. subst run. apply some_name_present in Hsome.
  destruct (main_files_after w a _ _ _ Hres (start fs) Hsome Hdir) as (_ & Hfit & _).
  split.
  - intros Hfail. rewrite Hfail in Hfit.
    destruct (main_profile_write_fails w a _ _ _ Hres (start fs) Hsome Hdir Hfail)
      as (fs' & ds' & Hrun).
    rewrite Hrun in *. cbn [fst snd console files start app exit_code] in *.
    split; [discriminate |]. split; [reflexivity | exact Hfit].
  - intros Hok. rewrite Hok in Hfit.
    destruct (main_profile_write_succeeds w a _ _ _ Hres (start fs) Hsome Hdir Hok)
      as (fs' & ds' & log & Hrun & Ha & _ & _ & Hfiles).
    rewrite Hrun in *. cbn [fst snd console files start app] in *.
    split; [exact Ha |]. split; [exact Hfit |]. split.
    + intros e He Hoke. apply Hfiles; [now apply list_elem_of_further | exact Hoke].
    + intros e He Hfail. destruct (forallb _ _) eqn:Hall; [| discriminate].
      rewrite forallb_forall in Hall. apply list_elem_of_In, Hall in He. congruence.
Qed.

Lemma main_write_failures_witness :
  let w := example_world profile_src (Some (Defines two_fit)) io_base_type_refused in
  let run := main w example_args (start ∅) in
  write_succeeds w false (profile_entry example_args example_profile) = true
  /\ attempted (console run.2) =
       [["out"; "profile.json"]; ["out"; "base_type.json"];
        ["out"; "numeric_field_types.json"]]
  /\ files run.2 !! ["out"; "base_type.json"] = None
  /\ (exists t, json_dumps None (PList [PStr (py "sint8")]) = Some t
        /\ files run.2 !! ["out"; "numeric_field_types.json"] =
             Some (string_of_list_ascii t))
  /\ exit_code run.1 <> 0%Z.
Proof.
  cbv zeta.
  pose (w := example_world profile_src (Some (Defines two_fit)) io_base_type_refused).
  assert (Hres : resolves w example_args {[ "Profile" := example_profile ]}
                   example_profile two_fit) by (repeat split).
  assert (Hsome : exists name, name ∈ fit_names /\ is_Some (two_fit !! name)).
  { exists "BASE_TYPE". split; [apply base_type_name | vm_compute; eauto]. }
  assert (Hdir : mkdir_ok w (Path (args_output example_args)) = true) by reflexivity.
  assert (Hok : write_succeeds w false (profile_entry example_args example_profile) = true)
    by (vm_compute; reflexivity).
  assert (Hwrites : fit_writes example_args two_fit =
            [(["out"; "base_type.json"], PDict [(PStr (py "enum"), PInt 0)]);
             (["out"; "numeric_field_types.json"], PList [PStr (py "sint8")])])
    by reflexivity.
  destruct (main_write_failures w example_args _ _ _ ∅ Hres Hsome Hdir) as [_ H].
  destruct (H Hok) as (Ha & Hafter & Hheld & He). rewrite Hwrites in *.
  split; [exact Hok |]. split; [exact Ha |]. split; [| split].
  - exact (eq_trans
             (Hafter (["out"; "base_type.json"], PDict [(PStr (py "enum"), PInt 0)])
                     (list_elem_of_here _ _))
             eq_refl).
  - apply (Hheld (["out"; "numeric_field_types.json"], PList [PStr (py "sint8")]));
      [apply list_elem_of_further, list_elem_of_here | reflexivity].
  - apply (He (["out"; "base_type.json"], PDict [(PStr (py "enum"), PInt 0)]));
      [apply list_elem_of_here | reflexivity].
Defined.




(** C5: the extractor is a total function, and its result has exactly the
    keys among the four fixed names that are attributes of the module, each
    bound to the value of that attribute; a name that is absent from the
    module has no entry at all. *)
Theorem extract_fit_objects_exact (fit_module : namespace) :
  dom (extract_fit_objects fit_module) = list_to_set fit_names ∩ dom fit_module
  /\ (forall k v, extract_fit_objects fit_module !! k = Some v ->
                  k ∈ fit_names /\ fit_module !! k = Some v)
  /\ (forall k, k ∈ fit_names ->
                extract_fit_objects fit_module !! k = fit_module !! k).
Proof.
  split; [| split].
  - apply set_eq. intros k.
    rewrite elem_of_intersection, !elem_of_dom, elem_of_list_to_set,
      extract_fit_objects_lookup.
    case_bool_decide; [tauto |]. split; [intros [? ?]; discriminate | tauto].
  - intros k v. rewrite extract_fit_objects_lookup. case_bool_decide; [auto | discriminate].
  - intros k Hk. rewrite extract_fit_objects_lookup. now rewrite bool_decide_eq_true_2.
Qed.

(** C7: a [profile.py] that exists and cannot be executed.  The exception
    leaves [find_module] and [main]; the program prints nothing, and the
    interpreter ends with a traceback and exit code 1. *)
Theorem find_module_load_error_escapes :
  let w := example_world (Fails SyntaxError) (Some (Defines example_fit)) io_fine in
  os_path_exists w "sdk/profile.py" = true
  /\ (forall st, find_module w "sdk" "profile" st = (Raise SyntaxError, st))
  /\ main w example_args (start ∅) = (Raise SyntaxError, start ∅).
Proof. cbv zeta. repeat split. Qed.

(** C9: a second run from the files the first run left, in the same
    environment and with the same arguments, ends the same way, prints the
    same messages (so it writes the same files again), and leaves every file
    with the content it had after the first run. *)
Theorem main_idempotent (w : world) (a : args) (st : state) :
  let first := main w a st in
  let second := main w a first.2 in
  second.1 = first.1
  /\ files second.2 = files first.2
  /\ dirs second.2 = dirs first.2
  /\ exists log, console first.2 = console st ++ log
                 /\ console second.2 = console first.2 ++ log.
Proof.
  destruct (framed_main w a) as (r & M & D & log & H). cbv zeta.
  rewrite !H. cbn [fst snd files dirs console]. split; [reflexivity |].
  split; [| split].
  - now rewrite (assoc_L (∪)), (idemp_L (∪)).
  - now rewrite (assoc_L (∪)), (idemp_L (∪)).
  - now exists log.
Qed.

(** ** Characters and numbers *)

Lemma eqb_ascii_of_N (n : N) (a : ascii) :
  n < 256 -> Ascii.eqb (ascii_of_N n) a = (n =? N_of_ascii a).
Proof.
  intros Hn. destruct (N.eqb_spec n (N_of_ascii a)) as [E | E].
  - apply Ascii.eqb_eq. now rewrite E, ascii_N_embedding.
  - apply Ascii.eqb_neq. intros <-. now rewrite N_ascii_embedding in E.
Qed.

Lemma digit_char (d : N) :
  d < 10 ->
  is_digit (ascii_of_N (48 + d)) = true /\ N_of_ascii (ascii_of_N (48 + d)) - 48 = d.
Proof.
  intros Hd. unfold is_digit. rewrite N_ascii_embedding by lia.
  split; [| lia].
  apply andb_true_intro. split; apply N.leb_le; lia.
Qed.

Lemma digits_value_snoc (ds : text) (c : ascii) :
  digits_value (ds ++ [c]) = digits_value ds * 10 + (N_of_ascii c - 48).
Proof. unfold digits_value. now rewrite fold_left_app. Qed.

Lemma first_is_app (P : ascii -> Prop) (t u : text) : first_is P t -> first_is P (t ++ u).
Proof. now destruct t. Qed.

Lemma digits_upto_S (fuel : nat) (n : N) (acc : text) :
  digits_upto (S fuel) n acc =
    if n <? 10 then ascii_of_N (48 + n mod 10) :: acc
    else digits_upto fuel (n / 10) (ascii_of_N (48 + n mod 10) :: acc).
Proof. reflexivity. Qed.

Lemma digits_upto_spec (fuel : nat) :
  forall (n : N) (acc : text),
    n < 10 ^ N.of_nat (S fuel) ->
    exists ds, digits_upto (S fuel) n acc = ds ++ acc
      /\ Forall (fun c => is_digit c = true) ds
      /\ digits_value ds = n
      /\ first_is (fun c => c = "0"%char <-> n = 0) ds.
Proof.
  induction fuel as [| fuel IH]; intros n acc Hn.
  - change (10 ^ N.of_nat 1) with 10 in Hn. cbn [digits_upto].
    apply N.ltb_lt in Hn as Hlt. rewrite Hlt.
    assert (E : n mod 10 = n) by now apply N.mod_small.
    rewrite E. destruct (digit_char n Hn) as [Hd Hv].
    exists [ascii_of_N (48 + n)]. repeat split.
    + now constructor.
    + unfold digits_value. cbn. lia.
    + intros H. apply (f_equal N_of_ascii) in H. rewrite N_ascii_embedding in H by lia.
      cbn in H. lia.
    + now intros ->.
  - rewrite digits_upto_S.
    assert (Hmod : n mod 10 < 10) by now apply N.mod_lt.
    destruct (digit_char _ Hmod) as [Hd Hv].
    destruct (N.ltb_spec n 10) as [Hlt | Hge].
    + exists [ascii_of_N (48 + n mod 10)].
      rewrite N.mod_small in * by exact Hlt. repeat split.
      * now constructor.
      * unfold digits_value. cbn. lia.
      * intros H. apply (f_equal N_of_ascii) in H. rewrite N_ascii_embedding in H by lia.
        cbn in H. lia.
      * now intros ->.
    + assert (Hdiv : n / 10 < 10 ^ N.of_nat (S fuel)).
      { apply N.Div0.div_lt_upper_bound.
        replace (N.of_nat (S (S fuel))) with (N.succ (N.of_nat (S fuel))) in Hn by lia.
        now rewrite N.pow_succ_r' in Hn. }
      destruct (IH (n / 10) (ascii_of_N (48 + n mod 10) :: acc) Hdiv)
        as (ds & Hds & Hall & Hval & Hhd).
      exists (ds ++ [ascii_of_N (48 + n mod 10)]). repeat split.
      * now rewrite Hds, <- app_assoc.
      * apply Forall_app. split; [exact Hall | now constructor].
      * rewrite digits_value_snoc, Hval, Hv. pose proof (N.div_mod n 10). lia.
      * destruct ds as [| c ds]; [contradiction |]. cbn in *. split.
        -- intros H. apply Hhd in H. pose proof (N.div_mod n 10). lia.
        -- intros ->. cbn in Hge. lia.
Qed.

Lemma decimal_spec (n : N) :
  exists ds, decimal n = ds
    /\ Forall (fun c => is_digit c = true) ds
    /\ digits_value ds = n
    /\ first_is (fun c => c = "0"%char <-> n = 0) ds.
Proof.
  unfold decimal.
  destruct (digits_upto_spec (N.to_nat (N.log2 n)) n []) as (ds & E & H).
  - rewrite Nat2N.inj_succ, N2Nat.id.
    destruct (N.eq_dec n 0) as [-> | Hnz]; [reflexivity |].
    apply N.lt_le_trans with (2 ^ N.succ (N.log2 n)).
    + apply N.log2_spec. lia.
    + apply N.pow_le_mono_l. lia.
  - exists ds. rewrite E, app_nil_r. auto.
Qed.

Lemma eqb_codes (c a : ascii) : Ascii.eqb c a = (N_of_ascii c =? N_of_ascii a).
Proof.
  rewrite <- (ascii_N_embedding c) at 1. apply eqb_ascii_of_N, N_ascii_bounded.
Qed.

Lemma delimiter_code (c : ascii) :
  delimiter c = true ->
  N_of_ascii c ∈ [32; 9; 10; 13; 44; 93; 125].
Proof.
  unfold delimiter, is_ws. rewrite !eqb_codes. cbn.
  rewrite !orb_true_iff, !N.eqb_eq. intros H.
  repeat destruct H as [H | H]; rewrite H; set_solver.
Qed.

Lemma delimited_not_digit (rest : text) :
  delimited rest -> take_digits rest = ([], rest) /\ float_tail rest = false.
Proof.
  destruct rest as [| c rest]; [auto |]. cbn [delimited]. intros H.
  apply delimiter_code in H.
  assert (Hd : is_digit c = false).
  { unfold is_digit. repeat (apply elem_of_cons in H as [-> | H]); try reflexivity.
    now apply elem_of_nil in H. }
  split.
  - cbn. now rewrite Hd.
  - unfold float_tail. destruct rest as [| d rest]; [reflexivity |].
    rewrite !eqb_codes.
    repeat (apply elem_of_cons in H as [-> | H]); try reflexivity.
    now apply elem_of_nil in H.
Qed.

Lemma take_digits_app (ds rest : text) :
  Forall (fun c => is_digit c = true) ds ->
  take_digits rest = ([], rest) ->
  take_digits (ds ++ rest) = (ds, rest).
Proof.
  intros Hds Hrest. induction Hds as [| c ds Hc _ IH]; [exact Hrest |].
  cbn. now rewrite Hc, IH.
Qed.

Lemma match_number_decimal (p : positive) (negative : bool) (rest : text) :
  delimited rest ->
  match_number ((if negative then ["-"%char] else []) ++ decimal (Npos p) ++ rest) =
    Some (if negative then Zneg p else Zpos p, rest).
Proof.
  intros Hrest. destruct (decimal_spec (Npos p)) as (ds & -> & Hall & Hval & Hhd).
  destruct ds as [| c ds]; [contradiction |]. cbn in Hhd.
  apply Forall_cons in Hall as [Hc Hall].
  destruct (delimited_not_digit rest Hrest) as [Htd Hft].
  assert (Hminus : Ascii.eqb c "-"%char = false).
  { unfold is_digit in Hc. rewrite eqb_codes. apply andb_prop in Hc as [H1 H2].
    apply N.leb_le in H1. apply N.eqb_neq. cbn. lia. }
  assert (Hzero : Ascii.eqb c "0"%char = false).
  { apply Ascii.eqb_neq. intros H. apply Hhd in H. discriminate. }
  assert (Hbody : forall neg,
    match (c :: ds) ++ rest with
    | c0 :: rest0 =>
        if is_digit c0 then
          let '(ds0, tl) :=
            if Ascii.eqb c0 "0"%char then ([c0], rest0)
            else let (more, tl) := take_digits rest0 in (c0 :: more, tl) in
          if float_tail tl then None
          else
            let n := Z.of_N (digits_value ds0) in
            Some (if neg : bool then (- n)%Z else n, tl)
        else None
    | [] => None
    end = Some (if neg then Zneg p else Zpos p, rest)).
  { intros neg. cbn [app]. rewrite Hc, Hzero, (take_digits_app ds rest Hall Htd), Hft, Hval.
    now destruct neg. }
  unfold match_number. destruct negative; cbn [app].
  - change (Ascii.eqb "-"%char "-"%char) with true. cbv iota. apply (Hbody true).
  - rewrite Hminus. apply (Hbody false).
Qed.

Lemma match_number_int_repr (z : Z) (rest : text) :
  delimited rest -> match_number (int_repr z ++ rest) = Some (z, rest).
Proof.
  intros Hrest. destruct z as [| p | p].
  - destruct (delimited_not_digit rest Hrest) as [_ Hft].
    change (int_repr 0) with ["0"%char]. unfold match_number.
    cbn -[float_tail]. now rewrite Hft.
  - apply (match_number_decimal p false rest Hrest).
  - apply (match_number_decimal p true rest Hrest).
Qed.

Lemma int_repr_head (z : Z) : first_is starts_number (int_repr z).
Proof.
  destruct z as [| p | p]; unfold int_repr.
  - now left.
  - change (Z.to_N (Z.pos p)) with (N.pos p).
    destruct (decimal_spec (Npos p)) as (ds & -> & Hall & _ & Hhd).
    destruct ds; [contradiction |]. apply Forall_cons in Hall as [Hc _]. now left.
  - now right.
Qed.

Lemma scan_once_number (fuel : nat) (c : ascii) (s : text) :
  starts_number c ->
  scan_once (S fuel) (c :: s) =
    match match_number (c :: s) with
    | Some (n, rest) => Some (PInt n, rest)
    | None => None
    end.
Proof.
  intros Hc.
  assert (H : N_of_ascii c = 45 \/ 48 <= N_of_ascii c <= 57).
  { destruct Hc as [Hc | ->]; [right | now left].
    unfold is_digit in Hc. apply andb_prop in Hc as [H1 H2].
    apply N.leb_le in H1, H2. lia. }
  cbn [scan_once]. rewrite !eqb_codes.
  repeat match goal with
         | |- context [N_of_ascii c =? ?k] =>
             let k' := eval cbn in k in
             change k with k';
             destruct (N.eqb_spec (N_of_ascii c) k') as [E | _]; [exfalso; lia |]
         end.
  reflexivity.
Qed.

(** ** Strings *)

(** Settles the comparisons of the goal by case analysis and [lia]. *)
Ltac compare_codes :=
  repeat match goal with
         | |- context [N.leb ?a ?b] => destruct (N.leb_spec a b); try lia
         | |- context [N.ltb ?a ?b] => destruct (N.ltb_spec a b); try lia
         | |- context [N.eqb ?a ?b] => destruct (N.eqb_spec a b); try lia
         end.

Lemma hex_value_digit (d : N) : d < 16 -> hex_value (hex_digit d) = Some d.
Proof.
  intros Hd. unfold hex_digit, hex_value.
  destruct (N.ltb_spec d 10); rewrite N_ascii_embedding by lia;
    compare_codes; cbn; f_equal; lia.
Qed.

Lemma decode_hex4 (n : N) :
  n < 65536 ->
  decode_uXXXX (hex_digit (n / 4096 mod 16)) (hex_digit (n / 256 mod 16))
               (hex_digit (n / 16 mod 16)) (hex_digit (n mod 16)) = Some n.
Proof.
  intros Hn. unfold decode_uXXXX.
  rewrite !hex_value_digit by (apply N.mod_lt; lia). f_equal.
  pose proof (N.div_mod n 16). pose proof (N.div_mod (n / 16) 16).
  pose proof (N.div_mod (n / 16 / 16) 16).
  assert (E256 : n / 256 = n / 16 / 16) by (now rewrite N.Div0.div_div).
  assert (E4096 : n / 4096 = n / 16 / 16 / 16) by (now rewrite !N.Div0.div_div).
  assert (n / 4096 < 16) by (apply N.Div0.div_lt_upper_bound; lia).
  rewrite (N.mod_small (n / 4096) 16) by assumption.
  rewrite E256, E4096 in *. lia.
Qed.

Lemma lor_high_low (a y : N) : y < 1024 -> N.lor (a * 1024) y = a * 1024 + y.
Proof.
  intros Hy. symmetry. rewrite N.add_nocarry_lxor.
  - apply N.lxor_lor.
    apply N.bits_inj. intros i. rewrite N.land_spec, N.bits_0.
    destruct (N.lt_ge_cases i 10) as [Hi | Hi].
    + change 1024 with (2 ^ 10). now rewrite N.mul_pow2_bits_low.
    + rewrite (N.bits_above_log2 y i), andb_false_r; [reflexivity |].
      destruct (N.eq_dec y 0) as [-> | Hnz]; [cbn; lia |].
      apply N.lt_le_trans with 10; [| exact Hi].
      apply N.log2_lt_pow2; lia.
  - apply N.bits_inj. intros i. rewrite N.land_spec, N.bits_0.
    destruct (N.lt_ge_cases i 10) as [Hi | Hi].
    + change 1024 with (2 ^ 10). now rewrite N.mul_pow2_bits_low.
    + rewrite (N.bits_above_log2 y i), andb_false_r; [reflexivity |].
      destruct (N.eq_dec y 0) as [-> | Hnz]; [cbn; lia |].
      apply N.lt_le_trans with 10; [| exact Hi].
      apply N.log2_lt_pow2; lia.
Qed.

(** The surrogate pair the encoder writes for a code point above the basic
    plane, and the code point the decoder rebuilds from it. *)
Lemma surrogate_pair (c : N) :
  65536 <= c -> c < 1114112 ->
  let n := c - 65536 in
  let s1 := N.lor 55296 (N.land (N.shiftr n 10) 1023) in
  let s2 := N.lor 56320 (N.land n 1023) in
  s1 < 65536 /\ s2 < 65536
  /\ is_high_surrogate s1 = true /\ is_low_surrogate s2 = true
  /\ 65536 + N.lor (N.shiftl (s1 - 55296) 10) (s2 - 56320) = c.
Proof.
  intros Hlo Hhi n s1 s2.
  assert (Hn : n < 1048576) by (subst n; lia).
  assert (E1 : s1 = 55296 + n / 1024).
  { subst s1. change 1023 with (N.ones 10). rewrite N.land_ones, N.shiftr_div_pow2.
    change (2 ^ 10) with 1024.
    assert (n / 1024 < 1024) by (apply N.Div0.div_lt_upper_bound; lia).
    rewrite N.mod_small by assumption.
    change 55296 with (54 * 1024). now apply lor_high_low. }
  assert (E2 : s2 = 56320 + n mod 1024).
  { subst s2. change 1023 with (N.ones 10). rewrite N.land_ones.
    change (2 ^ 10) with 1024. change 56320 with (55 * 1024).
    apply lor_high_low, N.mod_lt. lia. }
  assert (Hq : n / 1024 < 1024) by (apply N.Div0.div_lt_upper_bound; lia).
  assert (Hr : n mod 1024 < 1024) by (apply N.mod_lt; lia).
  pose proof (N.div_mod n 1024) as Hdm.
  rewrite E1, E2. clear E1 E2 s1 s2.
  remember (n / 1024) as q eqn:Eq. remember (n mod 1024) as r eqn:Er.
  clear Eq Er. unfold is_high_surrogate, is_low_surrogate.
  repeat split; try lia.
  - compare_codes; reflexivity.
  - compare_codes; reflexivity.
  - replace (55296 + q - 55296) with q by lia.
    replace (56320 + r - 56320) with r by lia.
    rewrite N.shiftl_mul_pow2. change (2 ^ 10) with 1024.
    rewrite lor_high_low by assumption. subst n. lia.
Qed.

Lemma scanstring_u (h1 h2 h3 h4 : ascii) (r2 : text) (uni : N) :
  decode_uXXXX h1 h2 h3 h4 = Some uni ->
  is_high_surrogate uni = false ->
  scanstring (backslash :: "u"%char :: h1 :: h2 :: h3 :: h4 :: r2) =
    cons_char uni (scanstring r2).
Proof.
  intros Hdec Hhigh. cbn [scanstring].
  change (Ascii.eqb backslash dquote) with false.
  change (Ascii.eqb backslash backslash) with true.
  change (Ascii.eqb "u"%char "u"%char) with true. cbv iota.
  rewrite Hdec, Hhigh. destruct r2 as [| b [| u r3]]; reflexivity.
Qed.

Lemma scanstring_pair (h1 h2 h3 h4 l1 l2 l3 l4 : ascii) (r4 : text) (uni uni2 : N) :
  decode_uXXXX h1 h2 h3 h4 = Some uni ->
  decode_uXXXX l1 l2 l3 l4 = Some uni2 ->
  is_high_surrogate uni = true ->
  is_low_surrogate uni2 = true ->
  scanstring (backslash :: "u"%char :: h1 :: h2 :: h3 :: h4 ::
              backslash :: "u"%char :: l1 :: l2 :: l3 :: l4 :: r4) =
    cons_char (65536 + N.lor (N.shiftl (uni - 55296) 10) (uni2 - 56320)) (scanstring r4).
Proof.
  intros Hdec Hdec2 Hhigh Hlow. cbn [scanstring].
  change (Ascii.eqb backslash dquote) with false.
  change (Ascii.eqb backslash backslash) with true.
  change (Ascii.eqb "u"%char "u"%char) with true. cbv iota.
  rewrite Hdec, Hhigh. cbn [andb]. now rewrite Hdec2, Hlow.
Qed.

Lemma scanstring_plain (c : N) (tail : text) :
  32 <= c -> c <= 126 -> c <> 34 -> c <> 92 ->
  scanstring (ascii_of_N c :: tail) = cons_char c (scanstring tail).
Proof.
  intros H1 H2 H3 H4. cbn [scanstring].
  rewrite !eqb_ascii_of_N, N_ascii_embedding by lia.
  change (N_of_ascii dquote) with 34. change (N_of_ascii backslash) with 92.
  compare_codes. reflexivity.
Qed.

Lemma scanstring_escape (c : N) (tail : text) :
  scalar_value c = true ->
  scanstring (escape_char c ++ tail) = cons_char c (scanstring tail).
Proof.
  unfold scalar_value, escape_char. intros Hc.
  destruct (N.eqb_spec c 92) as [-> | H92]; [reflexivity |].
  destruct (N.eqb_spec c 34) as [-> | H34]; [reflexivity |].
  destruct ((32 <=? c) && (c <=? 126)) eqn:Hplain.
  { apply andb_prop in Hplain as [H1 H2]. apply N.leb_le in H1, H2.
    now apply scanstring_plain. }
  destruct (N.eqb_spec c 8) as [-> | H8]; [reflexivity |].
  destruct (N.eqb_spec c 12) as [-> | H12]; [reflexivity |].
  destruct (N.eqb_spec c 10) as [-> | H10]; [reflexivity |].
  destruct (N.eqb_spec c 13) as [-> | H13]; [reflexivity |].
  destruct (N.eqb_spec c 9) as [-> | H9]; [reflexivity |].
  destruct (N.ltb_spec c 65536) as [Hlt | Hge].
  - unfold u_escape, hex4. cbn [app]. apply scanstring_u.
    + now apply decode_hex4.
    + unfold is_high_surrogate. revert Hc. compare_codes; cbn; congruence.
  - assert (Hhi : c < 1114112) by (revert Hc; compare_codes; cbn; congruence).
    destruct (surrogate_pair c Hge Hhi) as (Hs1 & Hs2 & Hhigh & Hlow & Hc').
    cbv zeta. unfold u_escape, hex4. cbn [app].
    rewrite (scanstring_pair _ _ _ _ _ _ _ _ tail _ _
               (decode_hex4 _ Hs1) (decode_hex4 _ Hs2) Hhigh Hlow).
    now rewrite Hc'.
Qed.

Lemma scanstring_encoded (s : pystr) (rest : text) :
  plain_str s ->
  scanstring (flat_map escape_char s ++ dquote :: rest) = Some (s, rest).
Proof.
  induction 1 as [| c s Hc _ IH]; [reflexivity |].
  cbn [flat_map]. rewrite <- app_assoc, scanstring_escape, IH by exact Hc. reflexivity.
Qed.

Lemma scan_once_string (fuel : nat) (s : pystr) (rest : text) :
  plain_str s ->
  scan_once (S fuel) (encode_basestring_ascii s ++ rest) = Some (PStr s, rest).
Proof.
  intros Hs. unfold encode_basestring_ascii. cbn [app scan_once].
  change (Ascii.eqb dquote dquote) with true. cbv iota.
  rewrite <- app_assoc. cbn [app]. now rewrite (scanstring_encoded s rest Hs).
Qed.

Lemma pairs_of_keys (d : list (pyval * pyval)) :
  (pairs_of d).*1 =
    omap (fun kv : pyval * pyval => match kv.1 with PStr s => Some s | _ => None end) d.
Proof.
  unfold pairs_of. induction d as [| [k x] d IH]; [reflexivity |].
  cbn. destruct k; cbn; now rewrite ?IH.
Qed.

Lemma json_value_entries (d : list (pyval * pyval)) :
  json_value (PDict d) = true ->
  Forall (fun kv => json_value kv.2 = true) d
  /\ Forall (fun kv => exists s, kv.1 = PStr s /\ plain_str s) d.
Proof.
  cbn [json_value]. intros H. apply andb_prop in H as [Hall _].
  rewrite forallb_forall in Hall.
  assert (Hent : Forall (fun kv => json_value kv.2 = true
                          /\ exists s, kv.1 = PStr s /\ plain_str s) d).
  { apply Forall_forall. intros [k x] Hin. apply list_elem_of_In, Hall in Hin.
    destruct k; try discriminate. apply andb_prop in Hin as [Hs Hx].
    split; [exact Hx |]. exists s. split; [reflexivity |].
    apply Forall_forall. intros c Hc. rewrite forallb_forall in Hs.
    apply Hs. now apply list_elem_of_In. }
  split.
  - eapply Forall_impl; [exact Hent | now intros kv [? _]].
  - eapply Forall_impl; [exact Hent | now intros kv [_ ?]].
Qed.

Lemma json_value_dict (d : list (pyval * pyval)) :
  json_value (PDict d) = true ->
  Forall (fun kv => json_value kv.2 = true) d
  /\ Forall (fun kv => exists s, kv.1 = PStr s /\ plain_str s) d
  /\ NoDup (pairs_of d).*1.
Proof.
  intros H. destruct (json_value_entries d H) as [Hvals Hkeys].
  split; [exact Hvals |]. split; [exact Hkeys |].
  cbn [json_value] in H. apply andb_prop in H as [_ Hnd].
  apply bool_decide_eq_true in Hnd. now rewrite pairs_of_keys.
Qed.

(** ** The encoder, unfolded *)

Section EncoderFacts.
Variable indent : option nat.
Variables item_separator key_separator : text.

Local Abbreviation enc := (iterencode indent item_separator key_separator).
Local Abbreviation box := (bracketed indent item_separator).

Lemma iterencode_items (l : list pyval) (level : nat) (t : text) :
  (enc (PList l) level = Some t \/ enc (PTuple l) level = Some t) ->
  exists cs,
    Forall2 (fun x c => enc x (inner_level indent level) = Some c) l cs
    /\ t = box "["%char "]"%char level cs.
Proof.
  intros H.
  assert (H' :
    match (fix each (l : list pyval) (lvl : nat) : option (list text) :=
             match l with
             | [] => Some []
             | x :: rest =>
                 match enc x lvl, each rest lvl with
                 | Some c, Some cs => Some (c :: cs)
                 | _, _ => None
                 end
             end) l (inner_level indent level) with
    | Some cs => Some (box "["%char "]"%char level cs)
    | None => None
    end = Some t) by (destruct H as [H | H]; exact H).
  clear H. revert H'. generalize (inner_level indent level) as lvl. intros lvl.
  match goal with
  | |- match ?f l lvl with _ => _ end = _ -> _ =>
      destruct (f l lvl) as [cs |] eqn:E; [| discriminate];
      intros [= <-]; exists cs; split; [| reflexivity];
      revert cs E; induction l as [| x rest IH]; intros cs E
  end.
  - injection E as <-. constructor.
  - destruct (enc x lvl) as [c |] eqn:Ex; [| discriminate].
    match type of E with
    | match ?g with _ => _ end = _ => destruct g as [cs' |] eqn:Er; [| discriminate]
    end.
    injection E as <-. constructor; [exact Ex | now apply IH].
Qed.

Lemma iterencode_entries (d : list (pyval * pyval)) (level : nat) (t : text) :
  enc (PDict d) level = Some t ->
  exists cs,
    Forall2 (fun kv c =>
               exists ks cv, dict_key kv.1 = Some ks
                 /\ enc kv.2 (inner_level indent level) = Some cv
                 /\ c = encode_basestring_ascii ks ++ key_separator ++ cv) d cs
    /\ t = box "{"%char "}"%char level cs.
Proof.
  cbn [iterencode]. generalize (inner_level indent level) as lvl. intros lvl.
  match goal with
  | |- match ?f d lvl with _ => _ end = _ -> _ =>
      destruct (f d lvl) as [cs |] eqn:E; [| discriminate];
      intros [= <-]; exists cs; split; [| reflexivity];
      revert cs E; induction d as [| [k x] rest IH]; intros cs E
  end.
  - injection E as <-. constructor.
  - destruct (dict_key k) as [ks |] eqn:Ek; [| discriminate].
    destruct (enc x lvl) as [c |] eqn:Ex; [| discriminate].
    match type of E with
    | match ?g with _ => _ end = _ => destruct g as [cs' |] eqn:Er; [| discriminate]
    end.
    injection E as <-. constructor; [| now apply IH].
    exists ks, c. auto.
Qed.
(** A value with a faithful JSON form is serializable. *)
Lemma json_value_serializable (v : pyval) :
  json_value v = true -> forall level, is_Some (enc v level).
Proof.
  induction v as [| b | n | s | l IH | l IH | d IH |] using pyval_nested_ind;
    intros Hv level; try discriminate; try (destruct b); try (now eexists).
  - cbn [json_value] in Hv. rewrite forallb_forall in Hv. cbn [iterencode].
    generalize (inner_level indent level) as lvl. intros lvl.
    match goal with
    | |- is_Some (match ?f l lvl with _ => _ end) =>
        assert (Hl : is_Some (f l lvl)); [| destruct Hl as [cs ->]; now eexists]
    end.
    induction l as [| x rest IHl]; [now eexists |].
    apply Forall_cons in IH as [IHx IHrest].
    destruct (IHx (Hv x (or_introl eq_refl)) lvl) as [c ->].
    destruct IHl as [cs ->]; [exact IHrest | intros y Hy; apply Hv; now right |].
    now eexists.
  - destruct (json_value_entries d Hv) as [Hvals Hkeys]. cbn [iterencode].
    generalize (inner_level indent level) as lvl. intros lvl.
    match goal with
    | |- is_Some (match ?f d lvl with _ => _ end) =>
        assert (Hd : is_Some (f d lvl)); [| destruct Hd as [cs ->]; now eexists]
    end.
    clear Hv. induction d as [| [k x] rest IHd]; [now eexists |].
    apply Forall_cons in IH as [IHx IHrest]. apply Forall_cons in Hvals as [Hx Hvals].
    apply Forall_cons in Hkeys as [(s & Hk & _) Hkeys]. cbn [fst snd] in *. subst k.
    cbn [dict_key]. destruct (IHx Hx lvl) as [c ->].
    destruct IHd as [cs ->]; [exact IHrest | exact Hvals | exact Hkeys |].
    now eexists.
Qed.
End EncoderFacts.

(** ** Scanning what the encoder wrote *)

Lemma skip_ws_blank (w s : text) : blank w -> skip_ws (w ++ s) = skip_ws s.
Proof. induction 1 as [| c w Hc _ IH]; [reflexivity |]. cbn. now rewrite Hc. Qed.

Lemma skip_ws_start (s : text) : first_is (fun c => is_ws c = false) s -> skip_ws s = s.
Proof. destruct s as [| c s]; [contradiction |]. cbn. now intros ->. Qed.

Lemma first_is_impl (P Q : ascii -> Prop) (t : text) :
  (forall c, P c -> Q c) -> first_is P t -> first_is Q t.
Proof. intros H. destruct t; [auto | apply H]. Qed.

Lemma newline_indent_blank (indent : option nat) (level : nat) :
  blank (newline_indent indent level).
Proof.
  unfold newline_indent, blank. destruct indent as [w |]; [| constructor].
  constructor; [reflexivity |]. apply Forall_forall. intros c Hc.
  apply list_elem_of_In, repeat_spec in Hc. now subst c.
Qed.

Lemma starts_number_value_start (c : ascii) : starts_number c -> value_start c.
Proof.
  intros [Hd | ->]; [| now repeat split].
  unfold is_digit in Hd. apply andb_prop in Hd as [H1 H2]. apply N.leb_le in H1, H2.
  unfold value_start, is_ws. rewrite !eqb_codes. cbn. repeat split; compare_codes; reflexivity.
Qed.

Lemma iterencode_head (indent : option nat) (isep ksep : text) (v : pyval) (level : nat)
    (t : text) :
  iterencode indent isep ksep v level = Some t -> first_is value_start t.
Proof.
  destruct v as [| [|] | n | s | l | l | d |]; cbn [iterencode].
  - intros [= <-]. now repeat split.
  - intros [= <-]. now repeat split.
  - intros [= <-]. now repeat split.
  - intros [= <-]. eapply first_is_impl; [apply starts_number_value_start |].
    apply int_repr_head.
  - intros [= <-]. now repeat split.
  - intros H. destruct (iterencode_items indent isep ksep l level t (or_introl H))
      as (cs & _ & ->).
    unfold bracketed. destruct cs; now repeat split.
  - intros H. destruct (iterencode_items indent isep ksep l level t (or_intror H))
      as (cs & _ & ->).
    unfold bracketed. destruct cs; now repeat split.
  - intros H. destruct (iterencode_entries indent isep ksep d level t H) as (cs & _ & ->).
    unfold bracketed. destruct cs; now repeat split.
  - discriminate.
Qed.

Lemma delimited_blank_closing (w rest : text) (closing : ascii) :
  blank w -> delimiter closing = true -> delimited (w ++ closing :: rest).
Proof.
  intros Hw Hc. destruct Hw as [| c w Hc' _]; [exact Hc |].
  cbn. unfold delimiter. now rewrite Hc'.
Qed.

Lemma dict_set_fresh (k : pystr) (v : pyval) (d : list (pystr * pyval)) :
  k ∉ d.*1 -> dict_set k v d = d ++ [(k, v)].
Proof.
  induction d as [| [k' v'] d IH]; [reflexivity |]. cbn. intros Hk.
  apply not_elem_of_cons in Hk as [Hne Hk]. rewrite decide_False by exact Hne.
  now rewrite IH.
Qed.

Lemma dict_of_pairs_nodup (pairs : list (pystr * pyval)) :
  NoDup pairs.*1 ->
  dict_of_pairs pairs = PDict (map (fun kv => (PStr kv.1, kv.2)) pairs).
Proof.
  intros Hnd. unfold dict_of_pairs. do 2 f_equal.
  assert (H : forall acc, NoDup (acc ++ pairs).*1 ->
            fold_left (fun d kv => dict_set kv.1 kv.2 d) pairs acc = acc ++ pairs).
  { clear Hnd. induction pairs as [| [k v] pairs IH]; intros acc Hnd.
    - now rewrite app_nil_r.
    - cbn [fold_left fst snd]. rewrite dict_set_fresh.
      + rewrite IH; rewrite <- app_assoc; [reflexivity | exact Hnd].
      + rewrite fmap_app in Hnd. apply NoDup_app in Hnd as (_ & Hdis & _).
        intros Hin. apply (Hdis k Hin). cbn. apply list_elem_of_here. }
  apply (H []). exact Hnd.
Qed.

Lemma json_array_S (fuel : nat) (s : text) (seen : list pyval) :
  json_array (S fuel) s seen =
    match scan_once fuel s with
    | None => None
    | Some (v, rest) =>
        match skip_ws rest with
        | c :: r =>
            if Ascii.eqb c "]"%char then Some (PList (rev (v :: seen)), r)
            else if Ascii.eqb c ","%char then json_array fuel (skip_ws r) (v :: seen)
            else None
        | [] => None
        end
    end.
Proof. reflexivity. Qed.

Lemma json_object_S (fuel : nat) (s : text) (seen : list (pystr * pyval)) :
  json_object (S fuel) s seen =
    match scanstring s with
    | None => None
    | Some (key, rest) =>
        match skip_ws rest with
        | c :: r =>
            if Ascii.eqb c ":"%char then
              match scan_once fuel (skip_ws r) with
              | None => None
              | Some (v, rest') =>
                  match skip_ws rest' with
                  | c' :: r' =>
                      if Ascii.eqb c' "}"%char
                      then Some (dict_of_pairs (rev ((key, v) :: seen)), r')
                      else if Ascii.eqb c' ","%char then
                        match skip_ws r' with
                        | q :: r'' =>
                            if Ascii.eqb q dquote
                            then json_object fuel r'' ((key, v) :: seen)
                            else None
                        | [] => None
                        end
                      else None
                  | [] => None
                  end
              end
            else None
        | [] => None
        end
    end.
Proof. reflexivity. Qed.

Lemma join_cons (sep c : text) (cs : list text) :
  join sep (c :: cs) = c ++ match cs with [] => [] | _ => sep ++ join sep cs end.
Proof. destruct cs; [now rewrite app_nil_r | reflexivity]. Qed.

Section ScanEncoded.
Variable indent : option nat.
Variables wsi wsk : text.
Hypothesis Hwsi : blank wsi.
Hypothesis Hwsk : blank wsk.

Local Abbreviation isep := (","%char :: wsi).
Local Abbreviation ksep := (":"%char :: wsk).
Local Abbreviation enc := (iterencode indent isep ksep).

Local Abbreviation scans := (reads_back indent isep ksep).

Lemma json_array_chunks (lvl : nat) (nl : text) (l : list pyval) (cs : list text) :
  blank nl ->
  Forall2 (fun x c => enc x lvl = Some c) l cs ->
  Forall scans l ->
  l <> [] ->
  forall fuel seen rest,
    (length (join (isep ++ newline_indent indent lvl) cs) + length nl + 1 < fuel)%nat ->
    json_array fuel (join (isep ++ newline_indent indent lvl) cs ++ nl ++ "]"%char :: rest)
      seen = Some (PList (rev seen ++ l), rest).
Proof.
  intros Hnl Henc. induction Henc as [| x c l cs Hx Hrest IH]; [congruence |].
  intros Hscans _ fuel seen rest Hfuel.
  apply Forall_cons in Hscans as [Hsx Hsl].
  rewrite join_cons in *. rewrite length_app in Hfuel.
  destruct fuel as [| fuel]; [lia |]. rewrite json_array_S, <- app_assoc.
  destruct Hrest as [| y c' l cs Hy Hrest].
  - cbn [app] in *.
    rewrite (Hsx lvl c Hx fuel (nl ++ "]"%char :: rest));
      [| lia | now apply delimited_blank_closing].
    rewrite skip_ws_blank by exact Hnl. cbn. now rewrite app_nil_r || reflexivity.
  - set (more := join (isep ++ newline_indent indent lvl) (c' :: cs)) in *.
    rewrite <- !app_assoc. cbn [app].
    rewrite (Hsx lvl c Hx fuel); [| rewrite length_app in Hfuel; cbn in Hfuel; lia | reflexivity].
    cbn [skip_ws]. change (is_ws ","%char) with false. cbv iota.
    change (Ascii.eqb ","%char "]"%char) with false.
    change (Ascii.eqb ","%char ","%char) with true. cbv iota.
    rewrite (skip_ws_blank wsi) by exact Hwsi.
    rewrite skip_ws_blank by apply newline_indent_blank.
    rewrite skip_ws_start.
    + rewrite IH; [| exact Hsl | discriminate |].
      * cbn [rev]. now rewrite <- app_assoc.
      * rewrite !length_app in Hfuel. cbn [length] in Hfuel. fold more. lia.
    + apply first_is_app. subst more. rewrite join_cons. apply first_is_app.
      eapply first_is_impl; [| apply (iterencode_head _ _ _ _ _ _ Hy)].
      now intros ch (H & _).
Qed.

Lemma quoted_tail (t : text) : first_is (fun c => c = dquote) t -> t = dquote :: tl t.
Proof. destruct t as [| c t]; [contradiction |]. cbn. now intros ->. Qed.

Lemma json_object_chunks (lvl : nat) (nl : text) (d : list (pyval * pyval))
    (cs : list text) :
  blank nl ->
  Forall2 (fun kv c =>
             exists ks cv, dict_key kv.1 = Some ks
               /\ enc kv.2 lvl = Some cv
               /\ c = encode_basestring_ascii ks ++ ksep ++ cv) d cs ->
  Forall (fun kv => scans kv.2) d ->
  Forall (fun kv => exists s, kv.1 = PStr s /\ plain_str s) d ->
  d <> [] ->
  forall fuel seen rest,
    (length (join (isep ++ newline_indent indent lvl) cs) + length nl + 1 < fuel)%nat ->
    json_object fuel
      (tl (join (isep ++ newline_indent indent lvl) cs ++ nl ++ "}"%char :: rest)) seen =
      Some (dict_of_pairs (rev seen ++ pairs_of d), rest).
Proof.
  intros Hnl Henc. remember (isep ++ newline_indent indent lvl) as sep eqn:Hsep.
  induction Henc as [| [k x] c d cs Hx Hrest IH]; [congruence |].
  intros Hscans Hkeys _ fuel seen rest Hfuel.
  apply Forall_cons in Hscans as [Hsx Hsd]. apply Forall_cons in Hkeys as [Hk Hkd].
  destruct Hk as (s & Hk & Hs). destruct Hx as (ks & cv & Hks & Hcv & ->).
  cbn [fst snd] in *. subst k. injection Hks as <-.
  assert (Hpairs : pairs_of ((PStr s, x) :: d) = (s, x) :: pairs_of d) by reflexivity.
  rewrite Hpairs. clear Hpairs.
  assert (Hstart : first_is (fun ch => is_ws ch = false) cv).
  { eapply first_is_impl; [| apply (iterencode_head _ _ _ _ _ _ Hcv)].
    now intros ch (H & _). }
  rewrite join_cons in *. rewrite !length_app in Hfuel.
  unfold encode_basestring_ascii in *. cbn [length] in Hfuel.
  rewrite !length_app in Hfuel. cbn [length] in Hfuel.
  destruct fuel as [| fuel]; [lia |].
  destruct Hrest as [| [k' y] c' d cs Hy Hrest].
  - rewrite <- !app_assoc. cbn [app tl]. rewrite <- ?app_assoc. cbn [app].
    rewrite json_object_S, (scanstring_encoded s _ Hs).
    cbn [skip_ws]. change (is_ws ":"%char) with false. cbv iota.
    change (Ascii.eqb ":"%char ":"%char) with true. cbv iota.
    rewrite (skip_ws_blank wsk) by exact Hwsk.
    rewrite skip_ws_start by (now apply first_is_app).
    cbn [length] in Hfuel.
    rewrite (Hsx lvl cv Hcv fuel (nl ++ "}"%char :: rest));
      [| lia | now apply delimited_blank_closing].
    rewrite skip_ws_blank by exact Hnl. reflexivity.
  - set (more := join sep (c' :: cs)) in *.
    assert (Hq : first_is (fun ch => ch = dquote) (more ++ nl ++ "}"%char :: rest)).
    { apply first_is_app. subst more. rewrite join_cons. apply first_is_app.
      destruct Hy as (ks' & cv' & _ & _ & ->). reflexivity. }
    rewrite <- !app_assoc. cbn [app tl]. rewrite <- ?app_assoc. cbn [app].
    rewrite json_object_S, (scanstring_encoded s _ Hs).
    cbn [skip_ws]. change (is_ws ":"%char) with false. cbv iota.
    change (Ascii.eqb ":"%char ":"%char) with true. cbv iota.
    rewrite (skip_ws_blank wsk) by exact Hwsk.
    rewrite skip_ws_start by (now apply first_is_app).
    rewrite length_app in Hfuel.
    rewrite (Hsx lvl cv Hcv fuel (sep ++ more ++ nl ++ "}"%char :: rest));
      [| lia | now rewrite Hsep].
    rewrite Hsep at 1. cbn [app skip_ws]. change (is_ws ","%char) with false. cbv iota.
    change (Ascii.eqb ","%char "}"%char) with false.
    change (Ascii.eqb ","%char ","%char) with true. cbv iota.
    rewrite <- app_assoc.
    rewrite (skip_ws_blank wsi) by exact Hwsi.
    rewrite skip_ws_blank by apply newline_indent_blank.
    rewrite (quoted_tail _ Hq). cbn [skip_ws].
    change (is_ws dquote) with false. cbv iota.
    change (Ascii.eqb dquote dquote) with true. cbv iota.
    rewrite IH; [| exact Hsd | exact Hkd | discriminate |].
    + cbn [rev]. now rewrite <- app_assoc.
    + rewrite Hsep in Hfuel. cbn [app length] in Hfuel. lia.
Qed.

Lemma scan_once_array (fuel : nat) (w t : text) :
  blank w ->
  first_is value_start t ->
  scan_once (S fuel) ("["%char :: w ++ t) = json_array fuel t [].
Proof.
  intros Hw Ht. cbn [scan_once]. change (Ascii.eqb "["%char dquote) with false.
  change (Ascii.eqb "["%char "{"%char) with false.
  change (Ascii.eqb "["%char "["%char) with true. cbv iota.
  rewrite skip_ws_blank by exact Hw.
  destruct t as [| c t]; [contradiction |]. destruct Ht as (Hws & Hclose & _).
  cbn [skip_ws]. now rewrite Hws, Hclose.
Qed.

Lemma scan_once_object (fuel : nat) (w t : text) :
  blank w ->
  first_is (fun c => c = dquote) t ->
  scan_once (S fuel) ("{"%char :: w ++ t) = json_object fuel (tl t) [].
Proof.
  intros Hw Ht. cbn [scan_once]. change (Ascii.eqb "{"%char dquote) with false.
  change (Ascii.eqb "{"%char "{"%char) with true. cbv iota.
  rewrite skip_ws_blank by exact Hw.
  destruct t as [| c t]; [contradiction |]. cbn in Ht. subst c. reflexivity.
Qed.

Lemma pairs_of_entries (d : list (pyval * pyval)) :
  Forall (fun kv => exists s, kv.1 = PStr s /\ plain_str s) d ->
  map (fun kv => (PStr kv.1, kv.2)) (pairs_of d) = d.
Proof.
  induction 1 as [| [k x] d (s & Hk & _) _ IH]; [reflexivity |].
  cbn in Hk. subst k. unfold pairs_of in *. cbn. now rewrite IH.
Qed.

(** Every value with a faithful JSON form is read back from its encoding. *)
Theorem scan_once_iterencode (v : pyval) : json_value v = true -> scans v.
Proof.
  induction v as [| b | n | s | l IH | l IH | d IH |] using pyval_nested_ind;
    intros Hv level t Ht fuel rest Hfuel Hrest.
  - injection Ht as <-. destruct fuel as [| fuel]; [cbn in Hfuel; lia | reflexivity].
  - destruct b; injection Ht as <-;
      (destruct fuel as [| fuel]; [cbn in Hfuel; lia | reflexivity]).
  - injection Ht as <-. destruct fuel as [| fuel]; [lia |].
    pose proof (int_repr_head n) as Hhd.
    pose proof (match_number_int_repr n rest Hrest) as Hnum.
    destruct (int_repr n) as [| c t]; [contradiction |].
    cbn [app] in *. now rewrite (scan_once_number fuel c _ Hhd), Hnum.
  - injection Ht as <-. destruct fuel as [| fuel]; [lia |].
    apply scan_once_string. apply Forall_forall. intros c Hc.
    cbn in Hv. rewrite forallb_forall in Hv. apply Hv. now apply list_elem_of_In.
  - destruct (iterencode_items _ _ _ l level t (or_introl Ht)) as (cs & Hcs & ->).
    assert (Hscans : Forall scans l).
    { cbn in Hv. rewrite forallb_forall in Hv. rewrite Forall_forall in IH.
      apply Forall_forall. intros x Hx. apply IH; [exact Hx |].
      apply Hv. now apply list_elem_of_In. }
    unfold bracketed in *. destruct Hcs as [| x c l cs Hx Hcs].
    + destruct fuel as [| fuel]; [cbn in Hfuel; lia | reflexivity].
    + assert (Hall : Forall2 (fun x c => enc x (inner_level indent level) = Some c)
                       (x :: l) (c :: cs)) by now constructor.
      set (chunks := c :: cs) in *. cbn [length] in Hfuel.
      rewrite !length_app in Hfuel. cbn [length] in Hfuel.
      destruct fuel as [| fuel]; [lia |].
      cbn [app]. rewrite <- !app_assoc. cbn [app].
      rewrite scan_once_array.
      * rewrite (json_array_chunks _ _ _ _ (newline_indent_blank _ _) Hall Hscans);
          [reflexivity | discriminate | lia].
      * apply newline_indent_blank.
      * apply first_is_app. subst chunks. rewrite join_cons. apply first_is_app.
        apply (iterencode_head _ _ _ _ _ _ Hx).
  - discriminate.
  - destruct (iterencode_entries _ _ _ d level t Ht) as (cs & Hcs & ->).
    destruct (json_value_dict d Hv) as (Hvals & Hkeys & Hnd).
    assert (Hscans : Forall (fun kv => scans kv.2) d).
    { rewrite Forall_forall in IH, Hvals. apply Forall_forall. intros kv Hkv.
      apply IH; [exact Hkv | now apply Hvals]. }
    unfold bracketed in *. destruct Hcs as [| kv c d cs Hx Hcs].
    + destruct fuel as [| fuel]; [cbn in Hfuel; lia | reflexivity].
    + assert (Hall : Forall2 (fun kv c =>
                         exists ks cv, dict_key kv.1 = Some ks
                           /\ enc kv.2 (inner_level indent level) = Some cv
                           /\ c = encode_basestring_ascii ks ++ ksep ++ cv)
                       (kv :: d) (c :: cs)) by now constructor.
      assert (Hq : first_is (fun ch => ch = dquote) c).
      { destruct Hx as (ks & cv & _ & _ & ->). reflexivity. }
      set (chunks := c :: cs) in *. set (entries := kv :: d) in *.
      cbn [length] in Hfuel. rewrite !length_app in Hfuel. cbn [length] in Hfuel.
      destruct fuel as [| fuel]; [lia |].
      cbn [app]. rewrite <- !app_assoc. cbn [app].
      rewrite scan_once_object.
      * rewrite (json_object_chunks _ _ _ _ (newline_indent_blank _ _) Hall Hscans Hkeys);
          [| discriminate | lia].
        cbn [rev app]. rewrite dict_of_pairs_nodup by exact Hnd.
        now rewrite pairs_of_entries.
      * apply newline_indent_blank.
      * apply first_is_app. subst chunks. rewrite join_cons. now apply first_is_app.
  - discriminate.
Qed.
End ScanEncoded.

Lemma blank_nil : blank [].
Proof. constructor. Qed.

Lemma blank_space : blank [space].
Proof. repeat constructor. Qed.

(** [json.loads(json.dumps(v))] and [json.loads(json.dumps(v, indent=w))]
    give [v] back. *)
Lemma json_loads_dumps (indent : option nat) (v : pyval) (t : text) :
  json_value v = true ->
  json_dumps indent v = Some t ->
  json_loads t = Some v.
Proof.
  intros Hv Ht.
  assert (Hscan : scan_once (S (length t)) (t ++ []) = Some (v, [])).
  { unfold json_dumps in Ht. destruct indent as [w |].
    - apply (scan_once_iterencode (Some w) [] [space] blank_nil blank_space
               v Hv 0%nat t Ht); [lia | exact I].
    - apply (scan_once_iterencode None [space] [space] blank_space blank_space
               v Hv 0%nat t Ht); [lia | exact I]. }
  rewrite app_nil_r in Hscan. unfold json_loads.
  rewrite skip_ws_start, Hscan; [reflexivity |].
  assert (Hhd : first_is value_start t).
  { unfold json_dumps in Ht. destruct indent; eapply iterencode_head; exact Ht. }
  eapply first_is_impl; [| exact Hhd]. now intros c (H & _).
Qed.

(** ** The claims about the writer *)


(** The other two losses of the round trip: a tuple comes back as a list,
    and two surrogate code points written one after the other come back as
    the single code point of the pair. *)
Example round_trip_losses :
  (t ← json_dumps None (PTuple [PInt 1]); json_loads t) = Some (PList [PInt 1])
  /\ (t ← json_dumps None (PStr [55357; 56832]); json_loads t) = Some (PStr [128512]).
Proof. split; reflexivity. Qed.



(** ** Properties of the layout *)

Example pretty_example :
  json_dumps (Some 2%nat) (PDict [(PStr (py "a"), PList [PInt 1; PList []])]) =
    Some (chars "{" ++ newline :: chars "  " ++ quoted "a" ++ chars ": [" ++ newline ::
          chars "    1," ++ newline :: chars "    []" ++ newline :: chars "  ]" ++
          newline :: chars "}")
  /\ indented_by 2 (chars "{" ++ newline :: chars "  " ++ quoted "a" ++ chars ": [" ++
                    newline :: chars "    1," ++ newline :: chars "    []" ++ newline ::
                    chars "  ]" ++ newline :: chars "}")
  /\ ~ indented_by 2 (chars "[1, 2]")
  /\ ~ indented_by 2 (chars "[" ++ newline :: chars " 1" ++ newline :: chars "]").
Proof. repeat split; try reflexivity; intros H; vm_compute in H; discriminate. Qed.

Section Layout.
Variable width : nat.

Local Abbreviation run := (layout_run width).

Lemma layout_run_app (t u : text) (st : option (layout_mode * nat)) :
  run (t ++ u) st = run u (run t st).
Proof. apply fold_left_app. Qed.

Lemma inert_code (c : ascii) :
  N_of_ascii c ∉ [34; 91; 123; 93; 125; 44; 10] -> inert c.
Proof.
  intros H depth. unfold layout_outside, is_opening, is_closing.
  rewrite !eqb_codes. cbn.
  repeat match goal with
         | |- context [N_of_ascii c =? ?k] =>
             destruct (N.eqb_spec (N_of_ascii c) k) as [E | _];
             [exfalso; apply H; rewrite E;
              repeat first [apply list_elem_of_here | apply list_elem_of_further] |]
         end.
  reflexivity.
Qed.

Lemma layout_run_inert (t : text) (depth : nat) :
  Forall inert t -> run t (Some (Outside, depth)) = Some (Outside, depth).
Proof.
  induction 1 as [| c t Hc _ IH]; [reflexivity |].
  unfold layout_run in *. cbn [fold_left layout_step]. now rewrite Hc.
Qed.

Lemma digit_inert (c : ascii) : is_digit c = true -> inert c.
Proof.
  unfold is_digit. intros H. apply andb_prop in H as [H1 H2]. apply N.leb_le in H1, H2.
  apply inert_code. intros Hin.
  repeat (apply elem_of_cons in Hin as [E | Hin]; [lia |]). now apply elem_of_nil in Hin.
Qed.

Lemma int_repr_inert (n : Z) : Forall inert (int_repr n).
Proof.
  assert (Hdec : forall m, Forall inert (decimal m)).
  { intros m. destruct (decimal_spec m) as (ds & -> & Hall & _).
    eapply Forall_impl; [exact Hall | apply digit_inert]. }
  destruct n as [| p | p]; unfold int_repr; [apply Hdec | apply Hdec |].
  constructor; [| apply Hdec]. apply inert_code. cbn. intros Hin.
  repeat (apply elem_of_cons in Hin as [E | Hin]; [discriminate |]).
  now apply elem_of_nil in Hin.
Qed.

Lemma layout_step_in_string (n : N) (depth : nat) :
  n < 256 -> n <> 34 -> n <> 92 ->
  layout_step width (Some (InString, depth)) (ascii_of_N n) = Some (InString, depth).
Proof.
  intros H1 H2 H3. cbn [layout_step]. rewrite !eqb_ascii_of_N by exact H1.
  change (N_of_ascii dquote) with 34. change (N_of_ascii backslash) with 92.
  compare_codes. reflexivity.
Qed.

Lemma layout_step_hex (y : N) (depth : nat) :
  y < 16 ->
  layout_step width (Some (InString, depth)) (hex_digit y) = Some (InString, depth).
Proof.
  intros Hy. unfold hex_digit.
  destruct (N.ltb_spec y 10); apply layout_step_in_string; lia.
Qed.

Lemma layout_run_u_escape (n : N) (depth : nat) :
  run (u_escape n) (Some (InString, depth)) = Some (InString, depth).
Proof.
  unfold u_escape, hex4, layout_run. cbn [fold_left].
  change (layout_step width (Some (InString, depth)) backslash)
    with (Some (Escaped, depth)).
  change (layout_step width (Some (Escaped, depth)) "u"%char)
    with (Some (InString, depth)).
  now rewrite !layout_step_hex by (apply N.mod_lt; lia).
Qed.

Lemma layout_run_escape (c : N) (depth : nat) :
  run (escape_char c) (Some (InString, depth)) = Some (InString, depth).
Proof.
  unfold escape_char.
  destruct (N.eqb_spec c 92); [reflexivity |].
  destruct (N.eqb_spec c 34); [reflexivity |].
  destruct ((32 <=? c) && (c <=? 126)) eqn:Hplain.
  { apply andb_prop in Hplain as [H1 H2]. apply N.leb_le in H1, H2.
    unfold layout_run. cbn [fold_left]. apply layout_step_in_string; lia. }
  destruct (N.eqb_spec c 8); [reflexivity |].
  destruct (N.eqb_spec c 12); [reflexivity |].
  destruct (N.eqb_spec c 10); [reflexivity |].
  destruct (N.eqb_spec c 13); [reflexivity |].
  destruct (N.eqb_spec c 9); [reflexivity |].
  destruct (N.ltb_spec c 65536).
  - apply layout_run_u_escape.
  - cbv zeta. now rewrite layout_run_app, !layout_run_u_escape.
Qed.

Lemma layout_run_string (s : pystr) (depth : nat) :
  run (encode_basestring_ascii s) (Some (Outside, depth)) = Some (Outside, depth).
Proof.
  unfold encode_basestring_ascii.
  change (dquote :: flat_map escape_char s ++ [dquote])
    with ([dquote] ++ flat_map escape_char s ++ [dquote]).
  rewrite !layout_run_app.
  change (run [dquote] (Some (Outside, depth))) with (Some (InString, depth)).
  assert (H : run (flat_map escape_char s) (Some (InString, depth)) =
              Some (InString, depth)).
  { induction s as [| c s IH]; [reflexivity |].
    cbn [flat_map]. now rewrite layout_run_app, layout_run_escape. }
  now rewrite H.
Qed.

Lemma layout_run_spaces_item (k j depth : nat) :
  run (repeat space k) (Some (IndentItem j, depth)) = Some (IndentItem (j + k), depth).
Proof.
  revert j. induction k as [| k IH]; intros j; [now rewrite Nat.add_0_r |].
  unfold layout_run in *. cbn [repeat fold_left].
  change (layout_step width (Some (IndentItem j, depth)) space)
    with (Some (IndentItem (S j), depth)).
  rewrite IH. now replace (j + S k)%nat with (S j + k)%nat by lia.
Qed.

Lemma layout_run_spaces_close (k j depth : nat) :
  run (repeat space k) (Some (IndentClose j, depth)) = Some (IndentClose (j + k), depth).
Proof.
  revert j. induction k as [| k IH]; intros j; [now rewrite Nat.add_0_r |].
  unfold layout_run in *. cbn [repeat fold_left].
  change (layout_step width (Some (IndentClose j, depth)) space)
    with (Some (IndentClose (S j), depth)).
  rewrite IH. now replace (j + S k)%nat with (S j + k)%nat by lia.
Qed.

(** An item at the start of its line, correctly indented. *)
Lemma layout_run_enter_item (t : text) (depth : nat) :
  first_is value_start t ->
  run t (Some (IndentItem (width * depth), depth)) = run t (Some (Outside, depth)).
Proof.
  destruct t as [| c t]; [contradiction |]. intros (Hws & _).
  unfold layout_run. cbn [fold_left layout_step].
  assert (Hsp : Ascii.eqb c space = false).
  { apply Ascii.eqb_neq. intros ->. discriminate. }
  now rewrite Hsp, Nat.eqb_refl.
Qed.

Lemma layout_run_items (depth : nat) (cs : list text) :
  cs <> [] ->
  Forall (fun c => first_is value_start c
                   /\ run c (Some (Outside, depth)) = Some (Outside, depth)) cs ->
  run (join (chars "," ++ newline_indent (Some width) depth) cs)
      (Some (IndentItem (width * depth), depth)) = Some (Outside, depth).
Proof.
  intros Hne Hcs. induction Hcs as [| c cs [Hhd Hc] Hcs IH]; [congruence |].
  rewrite join_cons, layout_run_app, layout_run_enter_item, Hc by exact Hhd.
  destruct cs as [| c' cs]; [reflexivity |].
  unfold newline_indent. cbn [chars list_ascii_of_string app].
  change (","%char :: newline :: repeat space (width * depth)
          ++ join (","%char :: newline :: repeat space (width * depth)) (c' :: cs))
    with ([","%char; newline] ++ repeat space (width * depth)
          ++ join ([","%char] ++ newline :: repeat space (width * depth)) (c' :: cs)).
  rewrite !layout_run_app.
  change (run [","%char; newline] (Some (Outside, depth)))
    with (Some (IndentItem 0, depth)).
  rewrite layout_run_spaces_item. apply IH. discriminate.
Qed.

Lemma layout_run_bracketed (opening closing : ascii) (level : nat) (cs : list text) :
  is_opening opening = true ->
  is_closing closing = true ->
  Forall (fun c => first_is value_start c
                   /\ run c (Some (Outside, S level)) = Some (Outside, S level)) cs ->
  run (bracketed (Some width) (chars ",") opening closing level cs)
      (Some (Outside, level)) = Some (Outside, level).
Proof.
  intros Hopen Hclose Hcs.
  assert (Hdq : Ascii.eqb opening dquote = false).
  { unfold is_opening in Hopen. apply orb_prop in Hopen as [H | H];
      apply Ascii.eqb_eq in H; now subst opening. }
  assert (Hstep : layout_step width (Some (Outside, level)) opening =
                  Some (Opened, S level)).
  { cbn [layout_step]. unfold layout_outside. now rewrite Hdq, Hopen. }
  assert (Hsp : Ascii.eqb closing space = false).
  { unfold is_closing in Hclose. apply orb_prop in Hclose as [H | H];
      apply Ascii.eqb_eq in H; now subst closing. }
  unfold bracketed. destruct cs as [| c cs].
  - unfold layout_run. cbn [fold_left]. rewrite Hstep. cbn [layout_step].
    now rewrite Hclose.
  - set (chunks := c :: cs) in *. cbn [inner_level].
    change (opening :: newline_indent (Some width) (S level)
            ++ join (chars "," ++ newline_indent (Some width) (S level)) chunks
            ++ newline_indent (Some width) level ++ [closing])
      with ([opening] ++ [newline] ++ repeat space (width * S level)
            ++ join (chars "," ++ newline_indent (Some width) (S level)) chunks
            ++ [newline] ++ repeat space (width * level) ++ [closing]).
    rewrite !layout_run_app.
    assert (H1 : run [opening] (Some (Outside, level)) = Some (Opened, S level))
      by exact Hstep.
    rewrite H1.
    change (run [newline] (Some (Opened, S level))) with (Some (IndentItem 0, S level)).
    rewrite layout_run_spaces_item. cbn [Nat.add].
    rewrite layout_run_items; [| subst chunks; discriminate | exact Hcs].
    change (run [newline] (Some (Outside, S level))) with (Some (IndentClose 0, S level)).
    rewrite layout_run_spaces_close. cbn [Nat.add].
    unfold layout_run. cbn [fold_left layout_step pred].
    now rewrite Hsp, Hclose, Nat.eqb_refl.
Qed.

Theorem layout_iterencode (v : pyval) :
  forall level t,
    iterencode (Some width) (chars ",") (chars ": ") v level = Some t ->
    run t (Some (Outside, level)) = Some (Outside, level).
Proof.
  induction v as [| b | n | s | l IH | l IH | d IH |] using pyval_nested_ind;
    intros level t Ht.
  - injection Ht as <-. reflexivity.
  - destruct b; injection Ht as <-; reflexivity.
  - injection Ht as <-. apply layout_run_inert, int_repr_inert.
  - injection Ht as <-. apply layout_run_string.
  - destruct (iterencode_items _ _ _ l level t (or_introl Ht)) as (cs & Hcs & ->).
    apply layout_run_bracketed; [reflexivity | reflexivity |].
    cbn [inner_level] in Hcs. clear Ht.
    induction Hcs as [| x c l cs Hx _ IHcs]; [constructor |].
    apply Forall_cons in IH as [IHx IHl]. constructor; [| now apply IHcs].
    split; [apply (iterencode_head _ _ _ _ _ _ Hx) | now apply IHx].
  - destruct (iterencode_items _ _ _ l level t (or_intror Ht)) as (cs & Hcs & ->).
    apply layout_run_bracketed; [reflexivity | reflexivity |].
    cbn [inner_level] in Hcs. clear Ht.
    induction Hcs as [| x c l cs Hx _ IHcs]; [constructor |].
    apply Forall_cons in IH as [IHx IHl]. constructor; [| now apply IHcs].
    split; [apply (iterencode_head _ _ _ _ _ _ Hx) | now apply IHx].
  - destruct (iterencode_entries _ _ _ d level t Ht) as (cs & Hcs & ->).
    apply layout_run_bracketed; [reflexivity | reflexivity |].
    cbn [inner_level] in Hcs. clear Ht.
    induction Hcs as [| kv c d cs Hx _ IHcs]; [constructor |].
    apply Forall_cons in IH as [IHx IHl]. constructor; [| now apply IHcs].
    destruct Hx as (ks & cv & _ & Hcv & ->). split; [now repeat split |].
    rewrite !layout_run_app, layout_run_string.
    change (run (chars ": ") (Some (Outside, S level))) with (Some (Outside, S level)).
    now apply IHx.
  - discriminate.
Qed.
End Layout.

(** *** The compact form *)

Lemma one_line_app (t u : text) : one_line t -> one_line u -> one_line (t ++ u).
Proof. intros Ht Hu. apply Forall_app. now split. Qed.

Lemma one_line_join (sep : text) (cs : list text) :
  one_line sep -> Forall one_line cs -> one_line (join sep cs).
Proof.
  intros Hsep Hcs. induction Hcs as [| c cs Hc _ IH]; [constructor |].
  rewrite join_cons. apply one_line_app; [exact Hc |].
  destruct cs; [constructor | now apply one_line_app].
Qed.

Lemma ascii_of_N_not_newline (n : N) : n < 256 -> n <> 10 -> ascii_of_N n <> newline.
Proof.
  intros Hn Hne H. apply (f_equal N_of_ascii) in H.
  rewrite N_ascii_embedding in H by exact Hn. now apply Hne.
Qed.

Lemma hex_digit_not_newline (y : N) : y < 16 -> hex_digit y <> newline.
Proof.
  intros Hy. unfold hex_digit.
  destruct (N.ltb_spec y 10); apply ascii_of_N_not_newline; lia.
Qed.

Lemma u_escape_one_line (n : N) : one_line (u_escape n).
Proof.
  unfold u_escape, hex4.
  repeat constructor; try discriminate; apply hex_digit_not_newline, N.mod_lt; lia.
Qed.

Lemma escape_char_one_line (c : N) : one_line (escape_char c).
Proof.
  unfold escape_char.
  destruct (N.eqb_spec c 92); [repeat constructor; discriminate |].
  destruct (N.eqb_spec c 34); [repeat constructor; discriminate |].
  destruct ((32 <=? c) && (c <=? 126)) eqn:Hplain.
  { apply andb_prop in Hplain as [H1 H2]. apply N.leb_le in H1, H2.
    repeat constructor. apply ascii_of_N_not_newline; lia. }
  destruct (N.eqb_spec c 8); [repeat constructor; discriminate |].
  destruct (N.eqb_spec c 12); [repeat constructor; discriminate |].
  destruct (N.eqb_spec c 10); [repeat constructor; discriminate |].
  destruct (N.eqb_spec c 13); [repeat constructor; discriminate |].
  destruct (N.eqb_spec c 9); [repeat constructor; discriminate |].
  destruct (N.ltb_spec c 65536); [apply u_escape_one_line |].
  cbv zeta. apply one_line_app; apply u_escape_one_line.
Qed.

Lemma encode_basestring_ascii_one_line (s : pystr) : one_line (encode_basestring_ascii s).
Proof.
  unfold encode_basestring_ascii. constructor; [discriminate |].
  apply one_line_app; [| repeat constructor; discriminate].
  induction s as [| c s IH]; [constructor |].
  cbn [flat_map]. apply one_line_app; [apply escape_char_one_line | exact IH].
Qed.

Lemma int_repr_one_line (n : Z) : one_line (int_repr n).
Proof.
  assert (Hdec : forall m, one_line (decimal m)).
  { intros m. destruct (decimal_spec m) as (ds & -> & Hall & _).
    eapply Forall_impl; [exact Hall |]. intros c Hc ->. discriminate. }
  destruct n as [| p | p]; unfold int_repr; [apply Hdec | apply Hdec |].
  constructor; [discriminate | apply Hdec].
Qed.

Lemma bracketed_one_line (isep : text) (opening closing : ascii) (level : nat)
    (cs : list text) :
  opening <> newline -> closing <> newline ->
  one_line isep -> Forall one_line cs ->
  one_line (bracketed None isep opening closing level cs).
Proof.
  intros Ho Hc Hsep Hcs. unfold bracketed, newline_indent.
  destruct cs as [| c cs]; [now repeat constructor |].
  cbn [app]. constructor; [exact Ho |]. rewrite app_nil_r.
  apply one_line_app; [now apply one_line_join | now repeat constructor].
Qed.

Theorem iterencode_one_line (isep ksep : text) (v : pyval) :
  one_line isep -> one_line ksep ->
  forall level t, iterencode None isep ksep v level = Some t -> one_line t.
Proof.
  intros Hisep Hksep.
  induction v as [| b | n | s | l IH | l IH | d IH |] using pyval_nested_ind;
    intros level t Ht.
  - injection Ht as <-. repeat constructor; discriminate.
  - destruct b; injection Ht as <-; repeat constructor; discriminate.
  - injection Ht as <-. apply int_repr_one_line.
  - injection Ht as <-. apply encode_basestring_ascii_one_line.
  - destruct (iterencode_items _ _ _ l level t (or_introl Ht)) as (cs & Hcs & ->).
    apply bracketed_one_line; [discriminate | discriminate | exact Hisep |].
    clear Ht. induction Hcs as [| x c l cs Hx _ IHcs]; [constructor |].
    apply Forall_cons in IH as [IHx IHl]. constructor; [eapply IHx; exact Hx | now apply IHcs].
  - destruct (iterencode_items _ _ _ l level t (or_intror Ht)) as (cs & Hcs & ->).
    apply bracketed_one_line; [discriminate | discriminate | exact Hisep |].
    clear Ht. induction Hcs as [| x c l cs Hx _ IHcs]; [constructor |].
    apply Forall_cons in IH as [IHx IHl]. constructor; [eapply IHx; exact Hx | now apply IHcs].
  - destruct (iterencode_entries _ _ _ d level t Ht) as (cs & Hcs & ->).
    apply bracketed_one_line; [discriminate | discriminate | exact Hisep |].
    clear Ht. induction Hcs as [| kv c d cs Hx _ IHcs]; [constructor |].
    apply Forall_cons in IH as [IHx IHl]. constructor; [| now apply IHcs].
    destruct Hx as (ks & cv & _ & Hcv & ->).
    apply one_line_app; [apply encode_basestring_ascii_one_line |].
    apply one_line_app; [exact Hksep | eapply IHx; exact Hcv].
  - discriminate.
Qed.

(** *** The separators of the compact form *)

Lemma compact_run_app (t u : text) (st : option compact_mode) :
  compact_run (t ++ u) st = compact_run u (compact_run t st).
Proof. apply fold_left_app. Qed.

Lemma calm_code (c : ascii) :
  N_of_ascii c ∉ [34; 44; 58; 32; 9; 10; 13] -> calm c.
Proof.
  intros H. unfold calm, compact_step, is_ws. rewrite !eqb_codes. cbn.
  repeat match goal with
         | |- context [N_of_ascii c =? ?k] =>
             destruct (N.eqb_spec (N_of_ascii c) k) as [E | _];
             [exfalso; apply H; rewrite E;
              repeat first [apply list_elem_of_here | apply list_elem_of_further] |]
         end.
  reflexivity.
Qed.

Lemma compact_run_calm (t : text) :
  Forall calm t -> compact_run t (Some Between) = Some Between.
Proof.
  induction 1 as [| c t Hc _ IH]; [reflexivity |].
  unfold compact_run in *. cbn [fold_left]. now rewrite Hc.
Qed.

Lemma int_repr_calm (n : Z) : Forall calm (int_repr n).
Proof.
  assert (Hdec : forall m, Forall calm (decimal m)).
  { intros m. destruct (decimal_spec m) as (ds & -> & Hall & _).
    eapply Forall_impl; [exact Hall |]. intros c Hc. unfold is_digit in Hc.
    apply andb_prop in Hc as [H1 H2]. apply N.leb_le in H1, H2.
    apply calm_code. intros Hin.
    repeat (apply elem_of_cons in Hin as [E | Hin]; [lia |]).
    now apply elem_of_nil in Hin. }
  destruct n as [| p | p]; unfold int_repr; [apply Hdec | apply Hdec |].
  constructor; [reflexivity | apply Hdec].
Qed.

Lemma compact_step_quoted (n : N) :
  n < 256 -> n <> 34 -> n <> 92 ->
  compact_step (Some Quoted) (ascii_of_N n) = Some Quoted.
Proof.
  intros H1 H2 H3. cbn [compact_step]. rewrite !eqb_ascii_of_N by exact H1.
  change (N_of_ascii dquote) with 34. change (N_of_ascii backslash) with 92.
  compare_codes. reflexivity.
Qed.

Lemma compact_step_hex (y : N) :
  y < 16 -> compact_step (Some Quoted) (hex_digit y) = Some Quoted.
Proof.
  intros Hy. unfold hex_digit.
  destruct (N.ltb_spec y 10); apply compact_step_quoted; lia.
Qed.

Lemma compact_run_u_escape (n : N) :
  compact_run (u_escape n) (Some Quoted) = Some Quoted.
Proof.
  unfold u_escape, hex4, compact_run. cbn [fold_left].
  change (compact_step (Some Quoted) backslash) with (Some QuotedEscape).
  change (compact_step (Some QuotedEscape) "u"%char) with (Some Quoted).
  now rewrite !compact_step_hex by (apply N.mod_lt; lia).
Qed.

Lemma compact_run_escape (c : N) :
  compact_run (escape_char c) (Some Quoted) = Some Quoted.
Proof.
  unfold escape_char.
  destruct (N.eqb_spec c 92); [reflexivity |].
  destruct (N.eqb_spec c 34); [reflexivity |].
  destruct ((32 <=? c) && (c <=? 126)) eqn:Hplain.
  { apply andb_prop in Hplain as [H1 H2]. apply N.leb_le in H1, H2.
    unfold compact_run. cbn [fold_left]. apply compact_step_quoted; lia. }
  destruct (N.eqb_spec c 8); [reflexivity |].
  destruct (N.eqb_spec c 12); [reflexivity |].
  destruct (N.eqb_spec c 10); [reflexivity |].
  destruct (N.eqb_spec c 13); [reflexivity |].
  destruct (N.eqb_spec c 9); [reflexivity |].
  destruct (N.ltb_spec c 65536).
  - apply compact_run_u_escape.
  - cbv zeta. now rewrite compact_run_app, !compact_run_u_escape.
Qed.

Lemma compact_run_string (s : pystr) :
  compact_run (encode_basestring_ascii s) (Some Between) = Some Between.
Proof.
  unfold encode_basestring_ascii.
  change (dquote :: flat_map escape_char s ++ [dquote])
    with ([dquote] ++ flat_map escape_char s ++ [dquote]).
  rewrite !compact_run_app.
  change (compact_run [dquote] (Some Between)) with (Some Quoted).
  assert (H : compact_run (flat_map escape_char s) (Some Quoted) = Some Quoted).
  { induction s as [| c s IH]; [reflexivity |].
    cbn [flat_map]. now rewrite compact_run_app, compact_run_escape. }
  now rewrite H.
Qed.

Lemma compact_run_join (cs : list text) :
  Forall (fun c => compact_run c (Some Between) = Some Between) cs ->
  compact_run (join (chars ", ") cs) (Some Between) = Some Between.
Proof.
  induction 1 as [| c cs Hc _ IH]; [reflexivity |].
  rewrite join_cons, compact_run_app, Hc. destruct cs; [reflexivity |].
  now rewrite compact_run_app.
Qed.

Lemma compact_run_bracketed (opening closing : ascii) (level : nat) (cs : list text) :
  calm opening -> calm closing ->
  Forall (fun c => compact_run c (Some Between) = Some Between) cs ->
  compact_run (bracketed None (chars ", ") opening closing level cs) (Some Between) =
    Some Between.
Proof.
  intros Ho Hc Hcs. unfold bracketed, newline_indent. destruct cs as [| c cs].
  - apply compact_run_calm. now repeat constructor.
  - set (chunks := c :: cs) in *. cbn [app]. rewrite app_nil_r.
    change (opening :: join (chars ", ") chunks ++ [closing])
      with ([opening] ++ join (chars ", ") chunks ++ [closing]).
    rewrite !compact_run_app, (compact_run_calm [opening]) by now repeat constructor.
    rewrite compact_run_join by exact Hcs.
    apply compact_run_calm. now repeat constructor.
Qed.

Theorem iterencode_default_separators (v : pyval) :
  forall level t,
    iterencode None (chars ", ") (chars ": ") v level = Some t ->
    compact_run t (Some Between) = Some Between.
Proof.
  induction v as [| b | n | s | l IH | l IH | d IH |] using pyval_nested_ind;
    intros level t Ht.
  - injection Ht as <-. reflexivity.
  - destruct b; injection Ht as <-; reflexivity.
  - injection Ht as <-. apply compact_run_calm, int_repr_calm.
  - injection Ht as <-. apply compact_run_string.
  - destruct (iterencode_items _ _ _ l level t (or_introl Ht)) as (cs & Hcs & ->).
    apply compact_run_bracketed; [reflexivity | reflexivity |].
    clear Ht. induction Hcs as [| x c l cs Hx _ IHcs]; [constructor |].
    apply Forall_cons in IH as [IHx IHl]. constructor; [eapply IHx; exact Hx | now apply IHcs].
  - destruct (iterencode_items _ _ _ l level t (or_intror Ht)) as (cs & Hcs & ->).
    apply compact_run_bracketed; [reflexivity | reflexivity |].
    clear Ht. induction Hcs as [| x c l cs Hx _ IHcs]; [constructor |].
    apply Forall_cons in IH as [IHx IHl]. constructor; [eapply IHx; exact Hx | now apply IHcs].
  - destruct (iterencode_entries _ _ _ d level t Ht) as (cs & Hcs & ->).
    apply compact_run_bracketed; [reflexivity | reflexivity |].
    clear Ht. induction Hcs as [| kv c d cs Hx _ IHcs]; [constructor |].
    apply Forall_cons in IH as [IHx IHl]. constructor; [| now apply IHcs].
    destruct Hx as (ks & cv & _ & Hcv & ->).
    rewrite !compact_run_app, compact_run_string.
    change (compact_run (chars ": ") (Some Between)) with (Some Between).
    eapply IHx. exact Hcv.
  - discriminate.
Qed.

(** C6, counterexample: [{"a": 1}] is written with a space after the colon;
    the text without that space parses to the same value and is shorter. *)
Lemma compact_is_minimal_counterexample :
  let written_text := chars "{" ++ quoted "a" ++ chars ": 1}" in
  let shorter_text := chars "{" ++ quoted "a" ++ chars ":1}" in
  json_dumps (indent_of false) example_profile = Some written_text
  /\ json_loads shorter_text = json_loads written_text
  /\ (length shorter_text < length written_text)%nat
  /\ ~ compact_is_minimal.
Proof.
  cbv zeta. split; [reflexivity |]. split; [reflexivity |]. split; [cbn; lia |].
  intros H.
  specialize (H example_profile _ eq_refl (chars "{" ++ quoted "a" ++ chars ":1}") eq_refl).
  vm_compute in H. lia.
Qed.

(** C6, amended: when the writer reports success, the file holds the text of
    [json.dumps]: with [pretty=true] it is laid out one item per line, each
    line indented by 2 spaces per nesting level; with [pretty=false] it is a
    single line in which every separating comma and colon is followed by one
    space, the default separators [", "] and [": "] (so it is not the
    minimal form). *)
Theorem write_json_file_layout (w : world) (data : pyval) (p : pure_path)
    (pretty : bool) (st st' : state) :
  write_json_file w data p pretty st = (Ret true, st') ->
  exists t,
    json_dumps (indent_of pretty) data = Some t
    /\ files st' !! p = Some (string_of_list_ascii t)
    /\ if pretty then indented_by 2 t else one_line t /\ default_separators t.
Proof.
  intros Hrun.
  pose proof (write_json_file_true _ _ _ _ _ _ Hrun) as Hok.
  destruct (write_json_file_succeeds w data p pretty st Hok) as (t & Ht & Hrun').
  rewrite Hrun' in Hrun. injection Hrun as <-.
  exists t. split; [exact Ht |]. split; [apply lookup_insert_eq |].
  destruct pretty; cbn [indent_of] in Ht; unfold json_dumps in Ht.
  - exact (layout_iterencode 2 data 0%nat t Ht).
  - split.
    + eapply iterencode_one_line; [| | exact Ht]; repeat constructor; discriminate.
    + exact (iterencode_default_separators data 0%nat t Ht).
Qed.

Lemma write_json_file_layout_witness :
  let p := ["out"; "profile.json"] in
  let run := write_json_file full_world example_profile p true (start ∅) in
  run.1 = Ret true
  /\ exists t, json_dumps (indent_of true) example_profile = Some t
       /\ files run.2 !! p = Some (string_of_list_ascii t)
       /\ indented_by 2 t.
Proof.
  cbv zeta. split; [reflexivity |].
  apply (write_json_file_layout full_world example_profile ["out"; "profile.json"]
           true (start ∅)).
  reflexivity.
Defined.

(** C10: when the value cannot be serialized, the writer reports failure and
    prints its error; no directory is made and no file is created, emptied
    or changed, because [json.dumps] raises before [mkdir] and [open] are
    reached. *)
Theorem write_json_file_unserializable (w : world) (data : pyval) (p : pure_path)
    (pretty : bool) (st : state) :
  json_dumps (indent_of pretty) data = None ->
  write_json_file w data p pretty st =
    (Ret false,
     {| files := files st; dirs := dirs st; console := console st ++ [ErrWrite p] |}).
Proof.
  intros Hfail. unfold write_json_file, try_except, dumps, mbind, proc_bind, indent_of in *.
  now rewrite Hfail.
Qed.

Lemma write_json_file_unserializable_witness :
  json_dumps (indent_of false) (PDict [(PStr (py "a"), PObj)]) = None
  /\ write_json_file full_world (PDict [(PStr (py "a"), PObj)]) ["out"; "profile.json"]
       false (start ∅) =
     (Ret false,
      {| files := ∅; dirs := ∅; console := [ErrWrite ["out"; "profile.json"]] |}).
Proof.
  split; [reflexivity |].
  apply (write_json_file_unserializable full_world (PDict [(PStr (py "a"), PObj)])
           ["out"; "profile.json"] false (start ∅)).
  reflexivity.
Defined.

(** * Further properties of the code *)

(** ** Locating the modules *)

Lemma chars_app (s1 s2 : string) : chars (s1 +:+ s2) = chars s1 ++ chars s2.
Proof.
  unfold chars. induction s1 as [| c s1 IH]; [reflexivity |].
  change (String c s1 +:+ s2) with (String c (s1 +:+ s2)). cbn. now f_equal.
Qed.

Lemma ends_with_app (a b suffix : string) :
  ends_with b suffix = true -> ends_with (a +:+ b) suffix = true.
Proof.
  unfold ends_with. rewrite !bool_decide_eq_true, chars_app.
  intros [k ->]. exists (chars a ++ k). now rewrite app_assoc.
Qed.

Lemma os_path_join_suffix (a b suffix : string) :
  ends_with b suffix = true -> ends_with (os_path_join a b) suffix = true.
Proof.
  intros H. unfold os_path_join.
  destruct (starts_with b "/"); [exact H |].
  destruct (_ || _); repeat apply ends_with_app; exact H.
Qed.

Lemma spec_from_module_file (w : world) (path name : string) :
  spec_from_file_location w (os_path_join path (name +:+ ".py")) =
    Some (os_path_join path (name +:+ ".py")).
Proof.
  unfold spec_from_file_location. cbn [app existsb].
  rewrite os_path_join_suffix; [reflexivity |].
  apply bool_decide_eq_true. exists (chars name). apply chars_app.
Qed.

Lemma isdir_exists (w : world) (path : string) :
  os_path_isdir w path = true -> os_path_exists w path = true.
Proof.
  unfold os_path_isdir, os_path_exists. intros H. apply bool_decide_eq_true.
  destruct (nodes w !! path); [eauto | discriminate].
Qed.

(** What [find_module] returns does not depend on the files written or the
    lines printed so far, and it never ends the process. *)
Lemma find_module_outcome (w : world) (path name : string) :
  (exists e, forall st, find_module w path name st = (Raise e, st))
  \/ (exists r, forall st, find_module w path name st = (Ret r, st)).
Proof.
  unfold find_module, exec_module.
  destruct (negb (os_path_exists w path)); [right; now eexists |].
  destruct (if os_path_isdir w path then _ else _) as [location |];
    [| right; now eexists].
  destruct (spec_from_file_location w location) as [file |]; [| right; now eexists].
  destruct (nodes w !! file) as [[| [ns | e]] |];
    [left | right | left | left]; now eexists.
Qed.

(** X1: for a path that is a directory, [find_module] returns [None]
    exactly when the file [<path>/<module_name>.py] does not exist.  When it
    exists the file is executed: the import machinery always has a loader
    for the suffix [.py], so the test [spec is None] cannot turn such a file
    down. *)
Theorem find_module_in_directory (w : world) (path module_name : string) (st : state) :
  os_path_isdir w path = true ->
  let module_path := os_path_join path (module_name +:+ ".py") in
  find_module w path module_name st =
    if os_path_exists w module_path
    then (module ← exec_module w module_path; mret (Some module)) st
    else (Ret None, st).
Proof.
  intros Hdir module_path. unfold find_module.
  rewrite (isdir_exists _ _ Hdir), Hdir. cbn [negb].
  fold module_path. destruct (os_path_exists w module_path); cbn [negb].
  - unfold module_path. now rewrite spec_from_module_file.
  - reflexivity.
Qed.

Lemma find_module_in_directory_witness :
  os_path_isdir full_world "sdk" = true
  /\ find_module full_world "sdk" "fit" (start ∅) = (Ret (Some example_fit), start ∅)
  /\ find_module full_world "sdk" "missing" (start ∅) = (Ret None, start ∅).
Proof.
  split; [reflexivity |]. split.
  - rewrite (find_module_in_directory full_world "sdk" "fit" (start ∅)); reflexivity.
  - rewrite (find_module_in_directory full_world "sdk" "missing" (start ∅)); reflexivity.
Defined.



(** ** The exits of [main] before anything is written *)

Lemma main_profile_none (w : world) (a : args) (st : state) :
  find_module w (args_path a) "profile" st = (Ret None, st) ->
  main w a st =
    (SysExit 1,
     {| files := files st; dirs := dirs st;
        console := console st ++ [ErrModule "profile" (args_path a)] |}).
Proof. intros H. unfold main. now rewrite (bind_eq _ _ _ _ _ H). Qed.

Lemma main_no_profile (w : world) (a : args) (profile_module : namespace) (st : state) :
  find_module w (args_path a) "profile" st = (Ret (Some profile_module), st) ->
  profile_module !! "Profile" = None ->
  main w a st =
    (SysExit 1,
     {| files := files st; dirs := dirs st; console := console st ++ [ErrNoProfile] |}).
Proof.
  intros H Hprof. unfold main. rewrite (bind_eq _ _ _ _ _ H). unfold hasattr.
  rewrite Hprof, bool_decide_eq_false_2 by (intros [? ?]; discriminate). reflexivity.
Qed.

Lemma main_fit_none (w : world) (a : args) (profile_module : namespace) (profile : pyval)
    (st : state) :
  find_module w (args_path a) "profile" st = (Ret (Some profile_module), st) ->
  profile_module !! "Profile" = Some profile ->
  find_module w (args_path a) "fit" st = (Ret None, st) ->
  main w a st =
    (SysExit 1,
     {| files := files st; dirs := dirs st;
        console := console st ++ [ErrModule "fit" (args_path a)] |}).
Proof.
  intros H Hprof Hfit. unfold main. rewrite (bind_eq _ _ _ _ _ H). unfold hasattr.
  rewrite Hprof, bool_decide_eq_true_2 by eauto. cbn [negb].
  now rewrite (bind_eq _ _ _ _ _ Hfit).
Qed.

Lemma main_fit_raises (w : world) (a : args) (profile_module : namespace) (profile : pyval)
    (e : exn) (st : state) :
  find_module w (args_path a) "profile" st = (Ret (Some profile_module), st) ->
  profile_module !! "Profile" = Some profile ->
  find_module w (args_path a) "fit" st = (Raise e, st) ->
  main w a st = (Raise e, st).
Proof.
  intros H Hprof Hfit. unfold main. rewrite (bind_eq _ _ _ _ _ H). unfold hasattr.
  rewrite Hprof, bool_decide_eq_true_2 by eauto. cbn [negb].
  now apply bind_raise.
Qed.

(** Every run takes one of three courses before it writes: an exception
    leaves it, it exits with one error message, or both modules are loaded
    and the output directory is made. *)
Lemma main_before_writes (w : world) (a : args) :
  (exists e,
     ((forall st, find_module w (args_path a) "profile" st = (Raise e, st))
      \/ (forall st, find_module w (args_path a) "fit" st = (Raise e, st))
      \/ (e = OSError /\ mkdir_ok w (Path (args_output a)) = false))
     /\ forall st, main w a st = (Raise e, st))
  \/ (exists m,
        is_error m = true
        /\ forall st, main w a st =
             (SysExit 1,
              {| files := files st; dirs := dirs st; console := console st ++ [m] |}))
  \/ (exists profile_module profile fit_module,
        resolves w a profile_module profile fit_module
        /\ extract_fit_objects fit_module <> ∅
        /\ mkdir_ok w (Path (args_output a)) = true).
Proof.
  destruct (find_module_outcome w (args_path a) "profile") as [[e He] | [[pm |] Hp]].
  - left. exists e. split; [now left |]. intros st. now apply bind_raise.
  - destruct (pm !! "Profile") as [profile |] eqn:Hprof.
    + destruct (find_module_outcome w (args_path a) "fit") as [[e He] | [[fm |] Hf]].
      * left. exists e. split; [now right; left |]. intros st.
        now apply (main_fit_raises w a pm profile).
      * assert (Hres : resolves w a pm profile fm) by (repeat split; auto).
        destruct (decide (extract_fit_objects fm = ∅)) as [Hempty | Hne].
        -- right. left. exists ErrNoFitObjects. split; [reflexivity |]. intros st.
           now apply (main_no_fit_objects w a pm profile fm).
        -- destruct (mkdir_ok w (Path (args_output a))) eqn:Hdir.
           ++ right. right. now exists pm, profile, fm.
           ++ left. exists OSError. split; [now right; right |]. intros st.
              now apply (main_mkdir_fails w a pm profile fm).
      * right. left. exists (ErrModule "fit" (args_path a)). split; [reflexivity |].
        intros st. now apply (main_fit_none w a pm profile).
    + right. left. exists ErrNoProfile. split; [reflexivity |].
      intros st. now apply (main_no_profile w a pm).
  - right. left. exists (ErrModule "profile" (args_path a)). split; [reflexivity |].
    intros st. now apply main_profile_none.
Qed.

(** X3: when the profile module cannot be located (the path does not
    exist, or it is a directory without [profile.py], or it is a file whose
    suffix no loader handles), the run prints the profile-module error and
    exits with code 1; no file is written and no directory is made. *)
Theorem main_profile_not_found (w : world) (a : args) (st : state) :
  (os_path_exists w (args_path a) = false
   \/ (os_path_isdir w (args_path a) = true
       /\ os_path_exists w (os_path_join (args_path a) "profile.py") = false)
   \/ (os_path_isdir w (args_path a) = false
       /\ spec_from_file_location w (args_path a) = None)) ->
  main w a st =
    (SysExit 1,
     {| files := files st; dirs := dirs st;
        console := console st ++ [ErrModule "profile" (args_path a)] |}).
Proof.
  intros H. apply main_profile_none. unfold find_module.
  destruct (os_path_exists w (args_path a)) eqn:Hex; [| reflexivity]. cbn [negb].
  destruct H as [H | [[Hdir Hfile] | [Hdir Hspec]]]; [discriminate | |].
  - rewrite Hdir.
    change ("profile" +:+ ".py") with "profile.py". now rewrite Hfile.
  - now rewrite Hdir, Hspec.
Qed.

Lemma main_profile_not_found_witness :
  let w := example_world profile_src None io_fine in
  let a := {| args_path := "nowhere"; args_output := "out"; args_pretty := false |} in
  main w a (start ∅) =
    (SysExit 1,
     {| files := ∅; dirs := ∅; console := [ErrModule "profile" "nowhere"] |}).
Proof.
  cbv zeta.
  apply (main_profile_not_found (example_world profile_src None io_fine)
           {| args_path := "nowhere"; args_output := "out"; args_pretty := false |}
           (start ∅)).
  left. reflexivity.
Defined.

(** X4: when the profile module loads but has no [Profile], the run prints
    its error and exits with code 1 before the fit module is looked at:
    nothing is written, and a fit module that is missing or cannot be
    executed plays no part. *)
Theorem main_profile_attribute_missing (w : world) (a : args) (profile_module : namespace)
    (st : state) :
  find_module w (args_path a) "profile" st = (Ret (Some profile_module), st) ->
  hasattr profile_module "Profile" = false ->
  main w a st =
    (SysExit 1,
     {| files := files st; dirs := dirs st; console := console st ++ [ErrNoProfile] |}).
Proof.
  intros Hp Hattr. apply (main_no_profile w a profile_module); [exact Hp |].
  unfold hasattr in Hattr. apply bool_decide_eq_false in Hattr.
  destruct (profile_module !! "Profile"); [| reflexivity].
  exfalso. apply Hattr. eauto.
Qed.

Lemma main_profile_attribute_missing_witness :
  let w := example_world (Defines ∅) (Some (Fails SyntaxError)) io_fine in
  main w example_args (start ∅) =
    (SysExit 1, {| files := ∅; dirs := ∅; console := [ErrNoProfile] |}).
Proof.
  cbv zeta.
  apply (main_profile_attribute_missing
           (example_world (Defines ∅) (Some (Fails SyntaxError)) io_fine)
           example_args ∅ (start ∅)); reflexivity.
Defined.

(** X5: the creation of the output directory is not guarded: when it fails
    (once both modules are loaded and a fit name is present) the [OSError]
    leaves [main]; the program has printed none of its messages and has
    written no file, and the interpreter ends with a traceback, exit
    code 1. *)
Theorem main_output_directory_failure (w : world) (a : args) (profile_module : namespace)
    (profile : pyval) (fit_module : namespace) (st : state) :
  resolves w a profile_module profile fit_module ->
  (exists name, name ∈ fit_names /\ is_Some (fit_module !! name)) ->
  mkdir_ok w (Path (args_output a)) = false ->
  (main w a st).1 = Raise OSError
  /\ exit_code (main w a st).1 = 1%Z
  /\ console (main w a st).2 = console st
  /\ files (main w a st).2 = files st.
Proof.
  intros Hres Hsome Hdir. apply some_name_present in Hsome.
  rewrite (main_mkdir_fails w a _ _ _ Hres st Hsome Hdir). now cbn.
Qed.

Lemma main_output_directory_failure_witness :
  (main no_mkdir_world example_args (start ∅)).1 = Raise OSError
  /\ console (main no_mkdir_world example_args (start ∅)).2 = [].
Proof.
  assert (Hres : resolves no_mkdir_world example_args {[ "Profile" := example_profile ]}
                   example_profile example_fit) by (repeat split).
  assert (Hsome : exists name, name ∈ fit_names /\ is_Some (example_fit !! name)).
  { exists "BASE_TYPE". split; [apply base_type_name | vm_compute; eauto]. }
  destruct (main_output_directory_failure no_mkdir_world example_args _ _ _ (start ∅)
              Hres Hsome eq_refl) as (Hr & _ & Hc & _).
  split; [exact Hr | exact Hc].
Defined.

(** ** What a run prints *)

Lemma write_fit_files_log (w : world) (out : pure_path) (pretty : bool)
    (items : list (string * pyval)) :
  forall (success : bool) (st : state),
  exists fs' ds',
    write_fit_files w out pretty items success st =
      (Ret (success && forallb (write_succeeds w pretty) (loop_writes out items)),
       {| files := fs'; dirs := ds';
          console := console st ++ map (loop_message w out pretty) items |}).
Proof.
  induction items as [| [filename data] rest IH]; intros success st.
  - exists (files st), (dirs st). cbn. now rewrite app_nil_r, andb_true_r, state_eta.
  - destruct (write_fit_files_step w out pretty filename data rest success st)
      as (success' & st1 & Hstep & _).
    unfold loop_writes, loop_message at 1. cbn [map omap list_omap fst snd].
    fold (loop_writes out rest).
    destruct (is_pynone data) eqn:Hnone.
    + destruct data; try discriminate. cbn [write_fit_files].
      erewrite bind_eq by reflexivity.
      destruct (IH success {| files := files st; dirs := dirs st;
                              console := console st ++ [WarnNoData filename] |})
        as (fs' & ds' & ->).
      exists fs', ds'. cbn [console]. now rewrite <- app_assoc.
    + assert (Hunfold : write_fit_files w out pretty ((filename, data) :: rest) success =
                (ok ← write_json_file w data (joinpath out filename) pretty;
                 if ok : bool then
                   print (WroteFile filename (joinpath out filename));;
                   write_fit_files w out pretty rest success
                 else write_fit_files w out pretty rest false))
        by (destruct data; try discriminate; reflexivity).
      rewrite Hunfold. cbn [forallb].
      destruct (write_succeeds w pretty (joinpath out filename, data)) eqn:Hok.
      * destruct (write_json_file_succeeds w data _ pretty st Hok) as (s & _ & Hwr).
        erewrite bind_eq by exact Hwr. cbv beta iota.
        erewrite bind_eq by reflexivity.
        match goal with
        | |- context [write_fit_files _ _ _ rest success ?st2] =>
            destruct (IH success st2) as (fs' & ds' & ->)
        end.
        exists fs', ds'. cbn [console andb]. now rewrite <- app_assoc.
      * destruct (write_json_file_fails w data _ pretty st Hok) as (fs1 & ds1 & Hwr).
        erewrite bind_eq by exact Hwr. cbv beta iota.
        match goal with
        | |- context [write_fit_files _ _ _ rest false ?st2] =>
            destruct (IH false st2) as (fs' & ds' & ->)
        end.
        exists fs', ds'. cbn [console andb]. now rewrite <- app_assoc, andb_false_r.
Qed.

Lemma main_run (w : world) (a : args) (profile_module : namespace) (profile : pyval)
    (fit_module : namespace) (st : state) :
  resolves w a profile_module profile fit_module ->
  extract_fit_objects fit_module <> ∅ ->
  mkdir_ok w (Path (args_output a)) = true ->
  exists fs' ds',
    main w a st =
      (if write_succeeds w (args_pretty a) (profile_entry a profile)
          && forallb (write_succeeds w (args_pretty a)) (fit_writes a fit_module)
       then Ret tt else SysExit 1,
       {| files := fs'; dirs := ds';
          console := console st ++ transcript w a profile fit_module |}).
Proof.
  intros Hres Hne Hdir. unfold transcript. cbv zeta.
  destruct (write_succeeds w (args_pretty a) (profile_entry a profile)) eqn:Hok.
  - rewrite (main_writes w a _ _ _ Hres st Hne Hdir).
    match goal with
    | |- context [(_ ≫= _) ?st1] =>
        destruct (write_json_file_succeeds w profile _ (args_pretty a) st1 Hok)
          as (s & _ & Hwr)
    end.
    rewrite (bind_eq _ _ _ _ _ Hwr). cbn [negb].
    erewrite bind_eq by reflexivity.
    match goal with
    | |- context [(write_fit_files _ ?out _ ?items true ≫= _) ?st2] =>
        destruct (write_fit_files_log w out (args_pretty a) items true st2)
          as (fs' & ds' & Hloop)
    end.
    rewrite (bind_eq _ _ _ _ _ Hloop). rewrite loop_writes_fit_files.
    cbn [andb console]. exists fs', ds'.
    destruct (forallb (write_succeeds w (args_pretty a)) (fit_writes a fit_module));
      unfold print, sys_exit; cbn [files dirs console];
      do 2 f_equal; rewrite <- ?app_assoc, ?app_nil_r; reflexivity.
  - destruct (main_profile_write_fails w a _ _ _ Hres st Hne Hdir Hok) as (fs' & ds' & ->).
    now exists fs', ds'.
Qed.

Lemma loop_message_error (w : world) (out : pure_path) (pretty : bool)
    (item : string * pyval) :
  is_error (loop_message w out pretty item) =
    negb (is_pynone item.2) && negb (write_succeeds w pretty (joinpath out item.1, item.2)).
Proof.
  unfold loop_message. destruct (is_pynone item.2); [reflexivity |].
  now destruct (write_succeeds _ _ _).
Qed.

Lemma loop_messages_errors (w : world) (out : pure_path) (pretty : bool)
    (items : list (string * pyval)) :
  forallb (write_succeeds w pretty) (loop_writes out items) =
    forallb (fun m => negb (is_error m)) (map (loop_message w out pretty) items).
Proof.
  induction items as [| [filename data] rest IH]; [reflexivity |].
  unfold loop_writes in *. cbn [map omap list_omap forallb fst snd].
  rewrite loop_message_error. cbn [fst snd].
  destruct (is_pynone data); cbn [forallb negb andb]; [exact IH |].
  rewrite negb_involutive. now f_equal.
Qed.

Lemma loop_messages_not_final (w : world) (out : pure_path) (pretty : bool)
    (items : list (string * pyval)) (output : string) :
  AllExported output ∉ map (loop_message w out pretty) items.
Proof.
  intros H. apply list_elem_of_fmap in H as (item & Hm & _). unfold loop_message in Hm.
  destruct (is_pynone item.2); [discriminate |].
  destruct (write_succeeds _ _ _); discriminate.
Qed.

(** X6: once the arguments are parsed, and when loading the two modules
    raises nothing, how [main] ends can be read off the lines it printed.
    It returns only after printing the final success line, and then none of
    its lines is an error; it leaves through one of its [sys.exit] calls
    only with code 1, after printing at least one error line and without the
    final success line. *)
Theorem main_exit_status (w : world) (a : args) (st : state) :
  (forall e, find_module w (args_path a) "profile" st <> (Raise e, st)) ->
  (forall e, find_module w (args_path a) "fit" st <> (Raise e, st)) ->
  exists log,
    console (main w a st).2 = console st ++ log
    /\ ((main w a st).1 = Ret tt ->
        last log = Some (AllExported (args_output a))
        /\ forall m, m ∈ log -> is_error m = false)
    /\ (forall code, (main w a st).1 = SysExit code ->
        code = 1%Z
        /\ (exists m, m ∈ log /\ is_error m = true)
        /\ AllExported (args_output a) ∉ log).
Proof.
  intros Hprofile Hfit.
  destruct (main_before_writes w a)
    as [(e & Hwhy & Hrun) | [(m & Hm & Hrun) | (pm & profile & fm & Hres & Hne & Hdir)]].
  - destruct Hwhy as [H | [H | [-> _]]];
      [now destruct (Hprofile e) | now destruct (Hfit e) |].
    exists []. rewrite Hrun. cbn. rewrite app_nil_r.
    split; [reflexivity |]. split; [discriminate | intros code; discriminate].
  - exists [m]. rewrite Hrun. cbn. split; [reflexivity |].
    split; [discriminate |]. intros code [= <-]. split; [reflexivity |]. split.
    + exists m. split; [apply list_elem_of_here | exact Hm].
    + intros Hin. apply list_elem_of_singleton in Hin. subst m. discriminate.
  - destruct (main_run w a pm profile fm st Hres Hne Hdir) as (fs' & ds' & ->).
    exists (transcript w a profile fm). cbn [fst snd console]. split; [reflexivity |].
    unfold transcript. cbv zeta.
    destruct (write_succeeds w (args_pretty a) (profile_entry a profile)); cbn [andb].
    + rewrite <- (loop_writes_fit_files a fm), loop_messages_errors.
      set (lines := map _ (fit_files _)).
      destruct (forallb _ lines) eqn:Hall.
      * split; [| intros code; discriminate]. intros _. split.
        -- change (WroteProfile ?p :: lines ++ ?l) with ((WroteProfile p :: lines) ++ l).
           apply last_snoc.
        -- rewrite forallb_forall in Hall. intros m Hin.
           apply elem_of_cons in Hin as [-> | Hin]; [reflexivity |].
           apply elem_of_app in Hin as [Hin | Hin].
           ++ apply list_elem_of_In, Hall in Hin. now apply negb_true_iff in Hin.
           ++ apply list_elem_of_singleton in Hin. now subst m.
      * split; [discriminate |]. intros code [= <-]. split; [reflexivity |].
        rewrite app_nil_r. split.
        -- apply not_true_iff_false in Hall. rewrite forallb_forall in Hall.
           destruct (decide (Exists (fun m => is_error m = true) lines)) as [E | E].
           ++ apply Exists_exists in E as (m & Hin & Hm). exists m.
              split; [now apply list_elem_of_further | exact Hm].
           ++ exfalso. apply Hall. intros m Hin. apply list_elem_of_In in Hin.
              apply negb_true_iff, not_true_iff_false. intros Hm. apply E.
              apply Exists_exists. now exists m.
        -- intros Hin. apply elem_of_cons in Hin as [Hin | Hin]; [discriminate |].
           now apply loop_messages_not_final in Hin.
    + split; [discriminate |]. intros code [= <-]. split; [reflexivity |]. split.
      * eexists. split; [apply list_elem_of_here | reflexivity].
      * intros Hin. apply list_elem_of_singleton in Hin. discriminate.
Qed.

Lemma main_exit_status_witness :
  let w := example_world profile_src (Some (Defines two_fit)) io_base_type_refused in
  exists log,
    console (main w example_args (start ∅)).2 = log
    /\ (main w example_args (start ∅)).1 = SysExit 1
    /\ (exists m, m ∈ log /\ is_error m = true)
    /\ AllExported "out" ∉ log.
Proof.
  cbv zeta.
  pose (w := example_world profile_src (Some (Defines two_fit)) io_base_type_refused).
  destruct (main_exit_status w example_args (start ∅)) as (log & Hlog & _ & Hexit);
    [intros e; discriminate | intros e; discriminate |].
  destruct (Hexit 1%Z eq_refl) as (_ & Herr & Hfinal).
  exists log. split; [exact Hlog |]. split; [reflexivity |]. now split.
Defined.



(** X8: once both modules are loaded, a fit name is present and the output
    directory is made, the lines a run prints are fixed by which writes
    succeed: the error of the writer alone when [profile.json] fails;
    otherwise the success line of [profile.json], then one line per entry of
    [fit_files] in its order (the warning for a missing value, the success
    line, or the writer's error), then the final line when no write failed.
    The exit code is 0 exactly when every write succeeded. *)
Theorem main_transcript (w : world) (a : args) (profile_module : namespace)
    (profile : pyval) (fit_module : namespace) (st : state) :
  resolves w a profile_module profile fit_module ->
  (exists name, name ∈ fit_names /\ is_Some (fit_module !! name)) ->
  mkdir_ok w (Path (args_output a)) = true ->
  console (main w a st).2 = console st ++ transcript w a profile fit_module
  /\ (exit_code (main w a st).1 = 0%Z <->
      Forall (fun e => write_succeeds w (args_pretty a) e = true)
             (profile_entry a profile :: fit_writes a fit_module)).
Proof.
  intros Hres Hsome Hdir. apply some_name_present in Hsome.
  destruct (main_run w a _ _ _ st Hres Hsome Hdir) as (fs' & ds' & ->).
  cbn [fst snd console]. split; [reflexivity |].
  rewrite Forall_cons, Forall_forall.
  destruct (write_succeeds w (args_pretty a) (profile_entry a profile)); cbn [andb].
  - destruct (forallb _ _) eqn:Hall; cbn [exit_code].
    + rewrite forallb_forall in Hall. split; [| reflexivity]. intros _.
      split; [reflexivity |]. intros e He. apply Hall. now apply list_elem_of_In.
    + split; [discriminate |]. intros [_ H]. exfalso.
      apply not_true_iff_false in Hall. apply Hall, forallb_forall.
      intros e He. apply H. now apply list_elem_of_In.
  - cbn. split; [discriminate | intros [? _]; discriminate].
Qed.

Lemma main_transcript_witness :
  let w := example_world profile_src (Some (Defines example_fit)) io_base_type_refused in
  console (main w example_args (start ∅)).2 =
    [WroteProfile ["out"; "profile.json"];
     ErrWrite ["out"; "base_type.json"];
     WarnNoData "field_type_to_base_type.json";
     WarnNoData "base_type_definitions.json";
     WarnNoData "numeric_field_types.json"].
Proof.
  cbv zeta.
  pose (w := example_world profile_src (Some (Defines example_fit)) io_base_type_refused).
  assert (Hsome : exists name, name ∈ fit_names /\ is_Some (example_fit !! name)).
  { exists "BASE_TYPE". split; [apply base_type_name | vm_compute; eauto]. }
  destruct (main_transcript w example_args _ _ _ (start ∅)
              (resolves_example io_base_type_refused) Hsome eq_refl) as [Hlog _].
  exact (eq_trans Hlog eq_refl).
Defined.

(** ** The footprint of a run *)

Section Footprint.
Context {A B : Type}.
Variable q : pure_path.
Variable D : gset pure_path.

Lemma keeps_file_ret (x : A) : keeps_file q (mret x : proc A).
Proof. now intros st. Qed.

Lemma keeps_file_raise (e : exn) : keeps_file q (raise e : proc A).
Proof. now intros st. Qed.



Lemma dirs_within_ret (x : A) : dirs_within D (mret x : proc A).
Proof. intros st. apply union_subseteq_r. Qed.

Lemma dirs_within_raise (e : exn) : dirs_within D (raise e : proc A).
Proof. intros st. apply union_subseteq_r. Qed.

Lemma dirs_within_sys_exit (c : Z) : dirs_within D (sys_exit c : proc A).
Proof. intros st. apply union_subseteq_r. Qed.

Lemma dirs_within_bind (m : proc A) (k : A -> proc B) :
  dirs_within D m -> (forall x, dirs_within D (k x)) -> dirs_within D (m ≫= k).
Proof.
  intros Hm Hk st. unfold mbind, proc_bind. specialize (Hm st).
  destruct (m st) as [[x | e | c] st']; cbn [snd] in *; [| exact Hm | exact Hm].
  etransitivity; [apply Hk |]. apply union_least; [apply union_subseteq_l | exact Hm].
Qed.
End Footprint.


Lemma dirs_within_print (D : gset pure_path) (m : message) : dirs_within D (print m).
Proof. intros st. apply union_subseteq_r. Qed.


Lemma dirs_within_mkdir (D : gset pure_path) (w : world) (p : pure_path) :
  list_to_set (ancestors p) ⊆ D -> dirs_within D (mkdir w p).
Proof.
  intros H st. unfold mkdir.
  destruct (mkdir_ok w p); cbn [snd dirs]; [now apply union_mono_r | apply union_subseteq_r].
Qed.

Lemma dirs_within_write_json_file (D : gset pure_path) (w : world) (d : pyval)
    (p : pure_path) (pretty : bool) :
  list_to_set (ancestors (parent p)) ⊆ D -> dirs_within D (write_json_file w d p pretty).
Proof.
  intros H st. unfold write_json_file, try_except, dumps, mkdir, open_and_write, mbind,
    proc_bind.
  destruct (json_dumps _ d) as [t |]; cbn; [| apply union_subseteq_r].
  destruct (mkdir_ok w (parent p)); cbn; [| apply union_subseteq_r].
  destruct (write_outcome w p); cbn; now apply union_mono_r.
Qed.

Lemma parent_joinpath (out : pure_path) (filename : string) :
  filename <> "/" -> filename <> "//" -> parent (joinpath out filename) = out.
Proof.
  intros H1 H2. unfold parent, joinpath. destruct out as [| a [| b out]].
  - cbn. rewrite bool_decide_eq_false_2; [reflexivity | intros [? | ?]; contradiction].
  - reflexivity.
  - cbn [app]. change (a :: b :: out ++ [filename]) with ((a :: b :: out) ++ [filename]).
    apply removelast_last.
Qed.


Lemma dirs_within_write_fit_files (D : gset pure_path) (w : world) (out : pure_path)
    (pretty : bool) (items : list (string * pyval)) :
  list_to_set (ancestors out) ⊆ D ->
  Forall (fun filename => filename <> "/" /\ filename <> "//") items.*1 ->
  forall success, dirs_within D (write_fit_files w out pretty items success).
Proof.
  intros HD. induction items as [| [filename data] rest IH]; intros Hnames success.
  - apply dirs_within_ret.
  - cbn [fmap list_fmap fst] in Hnames. apply Forall_cons in Hnames as [[H1 H2] Hnames].
    assert (Hwr : dirs_within D (write_json_file w data (joinpath out filename) pretty)).
    { apply dirs_within_write_json_file. now rewrite parent_joinpath. }
    assert (Hgo : dirs_within D
              (ok ← write_json_file w data (joinpath out filename) pretty;
               if ok : bool then
                 print (WroteFile filename (joinpath out filename));;
                 write_fit_files w out pretty rest success
               else write_fit_files w out pretty rest false)).
    { apply dirs_within_bind; [exact Hwr |]. intros [|]; [| now apply IH].
      apply dirs_within_bind; [apply dirs_within_print | intros _; now apply IH]. }
    destruct data; try exact Hgo.
    cbn [write_fit_files].
    apply dirs_within_bind; [apply dirs_within_print | intros _; now apply IH].
Qed.

(** Once both modules are loaded and a fit name is present, [main] is
    [write_outputs]. *)
Lemma main_write_outputs (w : world) (a : args) (profile_module : namespace)
    (profile : pyval) (fit_module : namespace) (st : state) :
  resolves w a profile_module profile fit_module ->
  extract_fit_objects fit_module <> ∅ ->
  main w a st = write_outputs w a profile (extract_fit_objects fit_module) st.
Proof.
  intros (Hp & Hprof & Hf) Hne. unfold main, write_outputs.
  rewrite (bind_eq _ _ _ _ _ (Hp st)). unfold hasattr.
  rewrite Hprof, bool_decide_eq_true_2 by eauto. cbn [negb].
  rewrite (bind_eq _ _ _ _ _ (Hf st)). cbv zeta.
  rewrite bool_decide_eq_false_2 by exact Hne.
  unfold getattr. rewrite Hprof. reflexivity.
Qed.



(** X10: from the creation of the output directory to the end of the run,
    the only directories the program makes are the output directory and its
    ancestors; every file is written directly in the output directory, so
    the writer's own [mkdir] of the parent adds nothing. *)
Theorem write_outputs_makes_only_output_directory (w : world) (a : args) (profile : pyval)
    (fit_objects : namespace) (st : state) :
  dirs (write_outputs w a profile fit_objects st).2
    ⊆ list_to_set (ancestors (Path (args_output a))) ∪ dirs st.
Proof.
  revert st.
  change (dirs_within (list_to_set (ancestors (Path (args_output a))))
            (write_outputs w a profile fit_objects)).
  unfold write_outputs. cbv zeta.
  apply dirs_within_bind; [apply dirs_within_mkdir; reflexivity | intros _].
  apply dirs_within_bind;
    [apply dirs_within_write_json_file; rewrite parent_joinpath by discriminate;
     reflexivity | intros ok].
  destruct ok; cbn [negb]; [| apply dirs_within_sys_exit].
  apply dirs_within_bind; [apply dirs_within_print | intros _].
  apply dirs_within_bind;
    [apply dirs_within_write_fit_files;
     [reflexivity | rewrite fit_files_names; repeat constructor; discriminate]
    | intros success].
  destruct success; [apply dirs_within_print | apply dirs_within_sys_exit].
Qed.

(** ** Names bound to [None], and a [Profile] without a JSON form *)





(** X12: when [Profile] has no JSON form, the run ends with exit code 1
    after the writer's error for [profile.json]; no file is written, and the
    output directory, made before the write is tried, stays behind. *)
Theorem main_unserializable_profile (w : world) (a : args) (profile_module : namespace)
    (profile : pyval) (fit_module : namespace) (st : state) :
  resolves w a profile_module profile fit_module ->
  (exists name, name ∈ fit_names /\ is_Some (fit_module !! name)) ->
  mkdir_ok w (Path (args_output a)) = true ->
  json_dumps (indent_of (args_pretty a)) profile = None ->
  main w a st =
    (SysExit 1,
     {| files := files st;
        dirs := list_to_set (ancestors (Path (args_output a))) ∪ dirs st;
        console := console st
                   ++ [ErrWrite (joinpath (Path (args_output a)) "profile.json")] |}).
Proof.
  intros Hres Hsome Hdir Hfail. apply some_name_present in Hsome.
  rewrite (main_writes w a _ _ _ Hres st Hsome Hdir).
  assert (Hwr : forall st1,
            write_json_file w profile (joinpath (Path (args_output a)) "profile.json")
              (args_pretty a) st1 =
            (Ret false,
             {| files := files st1; dirs := dirs st1;
                console := console st1
                           ++ [ErrWrite (joinpath (Path (args_output a)) "profile.json")] |})).
  { intros st1. unfold write_json_file, try_except, dumps, mbind, proc_bind, indent_of in *.
    now rewrite Hfail. }
  now rewrite (bind_eq _ _ _ _ _ (Hwr _)).
Qed.

Lemma main_unserializable_profile_witness :
  let w := example_world (Defines {[ "Profile" := PObj ]}) (Some (Defines example_fit))
             io_fine in
  main w example_args (start ∅) =
    (SysExit 1,
     {| files := ∅; dirs := {[ ["out"] ]}; console := [ErrWrite ["out"; "profile.json"]] |}).
Proof.
  cbv zeta.
  pose (w := example_world (Defines {[ "Profile" := PObj ]}) (Some (Defines example_fit))
               io_fine).
  assert (Hres : resolves w example_args {[ "Profile" := PObj ]} PObj example_fit)
    by (repeat split).
  assert (Hsome : exists name, name ∈ fit_names /\ is_Some (example_fit !! name)).
  { exists "BASE_TYPE". split; [apply base_type_name | vm_compute; eauto]. }
  rewrite (main_unserializable_profile w example_args _ _ _ (start ∅)
             Hres Hsome eq_refl eq_refl).
  reflexivity.
Defined.

(** ** The writer *)

(** X13: [write_json_file] returns [True] exactly when the three steps go
    through: the value has a JSON text, the parent directory can be made,
    and the whole text reaches the file.  It then prints nothing.  A
    [TypeError] of [json.dumps] and an [OSError] of [mkdir], [open] or
    [write] are all caught: each gives [False] and exactly one error line
    that names the path. *)
Theorem write_json_file_result (w : world) (data : pyval) (p : pure_path) (pretty : bool)
    (st : state) :
  let ok :=
    bool_decide (is_Some (json_dumps (indent_of pretty) data))
    && mkdir_ok w (parent p)
    && match write_outcome w p with IoOk => true | _ => false end in
  (write_json_file w data p pretty st).1 = Ret ok
  /\ console (write_json_file w data p pretty st).2 =
       console st ++ (if ok then [] else [ErrWrite p]).
Proof.
  cbv zeta. change (_ && _ && _) with (write_succeeds w pretty (p, data)).
  destruct (write_succeeds w pretty (p, data)) eqn:Hok.
  - destruct (write_json_file_succeeds w data p pretty st Hok) as (s & _ & ->).
    cbn. now rewrite app_nil_r.
  - destruct (write_json_file_fails w data p pretty st Hok) as (fs' & ds' & ->).
    now cbn.
Qed.

(** X14: when the parent directory cannot be made, the file is never
    opened: the writer returns [False] with its error line, and every file,
    the one at the output path included, is left as it was. *)
Theorem write_json_file_mkdir_failure (w : world) (data : pyval) (p : pure_path)
    (pretty : bool) (st : state) :
  mkdir_ok w (parent p) = false ->
  write_json_file w data p pretty st =
    (Ret false,
     {| files := files st; dirs := dirs st; console := console st ++ [ErrWrite p] |}).
Proof.
  intros Hdir. unfold write_json_file, try_except, dumps, mkdir, mbind, proc_bind.
  destruct (json_dumps _ data) as [t |]; cbn; [| reflexivity].
  now rewrite Hdir.
Qed.

Lemma write_json_file_mkdir_failure_witness :
  write_json_file no_mkdir_world example_profile ["out"; "profile.json"] false
    (start {[ ["out"; "profile.json"] := "old" ]}) =
  (Ret false,
   {| files := {[ ["out"; "profile.json"] := "old" ]}; dirs := ∅;
      console := [ErrWrite ["out"; "profile.json"]] |}).
Proof.
  exact (write_json_file_mkdir_failure no_mkdir_world example_profile
           ["out"; "profile.json"] false (start {[ ["out"; "profile.json"] := "old" ]})
           eq_refl).
Defined.

(** X15: a successful write replaces the content of the file at the output
    path by the JSON text, whatever the file held before, and changes no
    other file; it makes sure the parent directory and its ancestors exist,
    and prints nothing. *)
Theorem write_json_file_effect (w : world) (data : pyval) (p : pure_path) (pretty : bool)
    (st st' : state) :
  write_json_file w data p pretty st = (Ret true, st') ->
  (exists t, json_dumps (indent_of pretty) data = Some t
     /\ files st' = <[p := string_of_list_ascii t]> (files st))
  /\ (forall q, q <> p -> files st' !! q = files st !! q)
  /\ dirs st' = list_to_set (ancestors (parent p)) ∪ dirs st
  /\ console st' = console st.
Proof.
  intros Hrun.
  pose proof (write_json_file_true _ _ _ _ _ _ Hrun) as Hok.
  destruct (write_json_file_succeeds w data p pretty st Hok) as (t & Ht & Hrun').
  rewrite Hrun' in Hrun. injection Hrun as <-. cbn [files dirs console].
  split; [now exists t |]. split; [| now split].
  intros q Hq. now apply lookup_insert_ne.
Qed.

Lemma write_json_file_effect_witness :
  let st := start {[ ["out"; "profile.json"] := "old"; ["out"; "notes.txt"] := "kept" ]} in
  let run := write_json_file full_world example_profile ["out"; "profile.json"] false st in
  run.1 = Ret true
  /\ files run.2 !! ["out"; "profile.json"] =
       Some (string_of_list_ascii
               ("{"%char :: dquote :: "a"%char :: dquote :: chars ": 1}"))
  /\ files run.2 !! ["out"; "notes.txt"] = Some "kept"
  /\ dirs run.2 = {[ ["out"] ]}.
Proof.
  cbv zeta.
  set (run := write_json_file full_world example_profile ["out"; "profile.json"] false _).
  assert (Hrun : run = (Ret true, run.2)) by reflexivity.
  destruct (write_json_file_effect full_world example_profile ["out"; "profile.json"]
              false _ _ Hrun) as ((t & Ht & Hfiles) & Hother & Hd & _).
  split; [reflexivity |]. split; [| split].
  - rewrite Hfiles, lookup_insert_eq. injection Ht as <-. reflexivity.
  - rewrite Hother by discriminate. reflexivity.
  - rewrite Hd. reflexivity.
Defined.

(** X16: a failure of [open] or of [write] is reported (the writer returns
    [False] with its error line) but not undone: the parent directory made
    for the file stays, and when the write broke after the file was opened,
    the file keeps the part of the text that reached it instead of its
    earlier content. *)
Theorem write_json_file_io_failure (w : world) (data : pyval) (p : pure_path)
    (pretty : bool) (t : text) (st : state) :
  json_dumps (indent_of pretty) data = Some t ->
  mkdir_ok w (parent p) = true ->
  write_outcome w p <> IoOk ->
  write_json_file w data p pretty st =
    (Ret false,
     {| files := match write_outcome w p with
                 | IoBroken kept => <[p := string_of_list_ascii (take kept t)]> (files st)
                 | _ => files st
                 end;
        dirs := list_to_set (ancestors (parent p)) ∪ dirs st;
        console := console st ++ [ErrWrite p] |}).
Proof.
  intros Ht Hdir Hio.
  unfold write_json_file, try_except, dumps, mkdir, open_and_write, mbind, proc_bind,
    indent_of in *.
  rewrite Ht, Hdir. cbn. destruct (write_outcome w p); [contradiction | |]; reflexivity.
Qed.

Lemma write_json_file_io_failure_witness :
  let st := start {[ ["out"; "profile.json"] := "old" ]} in
  let run := write_json_file (broken_write_world 3) example_profile
               ["out"; "profile.json"] false st in
  run.1 = Ret false
  /\ files run.2 !! ["out"; "profile.json"] =
       Some (string_of_list_ascii ["{"%char; dquote; "a"%char])
  /\ dirs run.2 = {[ ["out"] ]}.
Proof.
  cbv zeta.
  rewrite (write_json_file_io_failure (broken_write_world 3) example_profile
             ["out"; "profile.json"] false
             ("{"%char :: dquote :: "a"%char :: dquote :: chars ": 1}")
             (start {[ ["out"; "profile.json"] := "old" ]}));
    [| reflexivity | reflexivity | discriminate].
  repeat split.
Defined.

(** ** The encoder, built up *)

Section EncoderBuilds.
Variable indent : option nat.
Variables item_separator key_separator : text.

Local Abbreviation enc := (iterencode indent item_separator key_separator).
Local Abbreviation box := (bracketed indent item_separator).

Lemma iterencode_items_intro (l : list pyval) (level : nat) (cs : list text) :
  Forall2 (fun x c => enc x (inner_level indent level) = Some c) l cs ->
  enc (PList l) level = Some (box "["%char "]"%char level cs)
  /\ enc (PTuple l) level = Some (box "["%char "]"%char level cs).
Proof.
  intros H. cbn [iterencode]. generalize dependent (inner_level indent level).
  intros lvl H.
  match goal with
  | |- match ?f l lvl with _ => _ end = _ /\ _ =>
      assert (E : f l lvl = Some cs); [| now rewrite E]
  end.
  induction H as [| x c l cs Hx _ IH]; [reflexivity |]. now rewrite Hx, IH.
Qed.

Lemma iterencode_entries_intro (d : list (pyval * pyval)) (level : nat) (cs : list text) :
  Forall2 (fun kv c =>
             exists ks cv, dict_key kv.1 = Some ks
               /\ enc kv.2 (inner_level indent level) = Some cv
               /\ c = encode_basestring_ascii ks ++ key_separator ++ cv) d cs ->
  enc (PDict d) level = Some (box "{"%char "}"%char level cs).
Proof.
  intros H. cbn [iterencode]. generalize dependent (inner_level indent level).
  intros lvl H.
  match goal with
  | |- match ?f d lvl with _ => _ end = _ =>
      assert (E : f d lvl = Some cs); [| now rewrite E]
  end.
  induction H as [| [k x] c d cs (ks & cv & Hk & Hx & ->) _ IH]; [reflexivity |].
  cbn [fst snd] in *. now rewrite Hk, Hx, IH.
Qed.
End EncoderBuilds.

(** ** Which values have a JSON text *)

Lemma iterencode_serializable (indent : option nat) (isep ksep : text) (v : pyval) :
  forall level, is_Some (iterencode indent isep ksep v level) <-> serializable v = true.
Proof.
  induction v as [| b | n | s | l IH | l IH | d IH |] using pyval_nested_ind;
    intros level;
    try (split; [reflexivity | intros _; try destruct b; now eexists]).
  - split.
    + intros [t Ht].
      destruct (iterencode_items _ _ _ l level t (or_introl Ht)) as (cs & Hcs & _).
      cbn [serializable]. apply forallb_forall. intros x Hx.
      apply list_elem_of_In in Hx. rewrite Forall_forall in IH.
      apply list_elem_of_lookup in Hx as [i Hi].
      destruct (Forall2_lookup_l _ _ _ i x Hcs Hi) as (c & _ & Hc).
      apply (proj1 (IH x ltac:(apply list_elem_of_lookup; eauto)
                      (inner_level indent level))). eauto.
    + cbn [serializable]. intros Hall. rewrite forallb_forall in Hall.
      assert (Hcs : exists cs,
                Forall2 (fun x c => iterencode indent isep ksep x
                                      (inner_level indent level) = Some c) l cs).
      { clear -IH Hall. induction l as [| x l IHl]; [exists []; constructor |].
        apply Forall_cons in IH as [IHx IH].
        destruct (proj2 (IHx (inner_level indent level)) (Hall x (or_introl eq_refl)))
          as [c Hc].
        destruct IHl as [cs Hcs]; [exact IH | intros y Hy; apply Hall; now right |].
        exists (c :: cs). now constructor. }
      destruct Hcs as [cs Hcs].
      destruct (iterencode_items_intro _ _ _ l level cs Hcs) as [-> _]. eauto.
  - split.
    + intros [t Ht].
      destruct (iterencode_items _ _ _ l level t (or_intror Ht)) as (cs & Hcs & _).
      cbn [serializable]. apply forallb_forall. intros x Hx.
      apply list_elem_of_In in Hx. rewrite Forall_forall in IH.
      apply list_elem_of_lookup in Hx as [i Hi].
      destruct (Forall2_lookup_l _ _ _ i x Hcs Hi) as (c & _ & Hc).
      apply (proj1 (IH x ltac:(apply list_elem_of_lookup; eauto)
                      (inner_level indent level))). eauto.
    + cbn [serializable]. intros Hall. rewrite forallb_forall in Hall.
      assert (Hcs : exists cs,
                Forall2 (fun x c => iterencode indent isep ksep x
                                      (inner_level indent level) = Some c) l cs).
      { clear -IH Hall. induction l as [| x l IHl]; [exists []; constructor |].
        apply Forall_cons in IH as [IHx IH].
        destruct (proj2 (IHx (inner_level indent level)) (Hall x (or_introl eq_refl)))
          as [c Hc].
        destruct IHl as [cs Hcs]; [exact IH | intros y Hy; apply Hall; now right |].
        exists (c :: cs). now constructor. }
      destruct Hcs as [cs Hcs].
      destruct (iterencode_items_intro _ _ _ l level cs Hcs) as [_ ->]. eauto.
  - split.
    + intros [t Ht].
      destruct (iterencode_entries _ _ _ d level t Ht) as (cs & Hcs & _).
      cbn [serializable]. apply forallb_forall. intros [k x] Hx.
      apply list_elem_of_In in Hx. rewrite Forall_forall in IH.
      apply list_elem_of_lookup in Hx as [i Hi].
      destruct (Forall2_lookup_l _ _ _ i (k, x) Hcs Hi) as (c & _ & ks & cv & Hk & Hv & _).
      cbn [fst snd] in *. rewrite bool_decide_eq_true_2 by eauto. cbn [andb].
      apply (proj1 (IH (k, x) ltac:(apply list_elem_of_lookup; eauto)
                      (inner_level indent level))). eauto.
    + cbn [serializable]. intros Hall. rewrite forallb_forall in Hall.
      assert (Hcs : exists cs,
                Forall2 (fun kv c =>
                           exists ks cv, dict_key kv.1 = Some ks
                             /\ iterencode indent isep ksep kv.2
                                  (inner_level indent level) = Some cv
                             /\ c = encode_basestring_ascii ks ++ ksep ++ cv) d cs).
      { clear -IH Hall. induction d as [| [k x] d IHd]; [exists []; constructor |].
        apply Forall_cons in IH as [IHx IH].
        pose proof (Hall (k, x) (or_introl eq_refl)) as Hkx.
        apply andb_prop in Hkx as [Hk Hx]. apply bool_decide_eq_true in Hk as [ks Hk].
        destruct (proj2 (IHx (inner_level indent level)) Hx) as [cv Hcv].
        destruct IHd as [cs Hcs]; [exact IH | intros y Hy; apply Hall; now right |].
        eexists (_ :: cs). constructor; [| exact Hcs]. exists ks, cv. eauto. }
      destruct Hcs as [cs Hcs].
      rewrite (iterencode_entries_intro _ _ _ d level cs Hcs). eauto.
  - split; [intros [t Ht]; discriminate | discriminate].
Qed.

(** X17: [json.dumps] raises its [TypeError] exactly when the value
    contains an object with no JSON mapping or a dictionary key that is not
    a string, an integer, a boolean or [None]; tuples are accepted.  Whether
    the text is pretty-printed plays no part, so [--pretty] never changes
    which values can be written. *)
Theorem dumps_type_error (data : pyval) (pretty : bool) (st : state) :
  (dumps data pretty st = (Raise TypeError, st) <-> serializable data = false)
  /\ ((exists json_str, dumps data pretty st = (Ret json_str, st))
      <-> serializable data = true).
Proof.
  assert (H : is_Some (json_dumps (if pretty then Some 2%nat else None) data)
              <-> serializable data = true).
  { unfold json_dumps. destruct pretty; apply iterencode_serializable. }
  unfold dumps. destruct (json_dumps _ data) as [t |].
  - assert (Hs : serializable data = true) by (apply H; eauto). rewrite Hs.
    split; split; try discriminate; eauto.
  - assert (Hs : serializable data = false).
    { apply not_true_iff_false. intros Hs. apply H in Hs as [t Ht]. discriminate. }
    rewrite Hs. split; split; try discriminate; try reflexivity.
    intros [t Ht]. discriminate.
Qed.

(** ** What a reader of the file gets *)

Lemma Forall2_json_form_items (indent : option nat) (isep ksep : text) (lvl : nat)
    (l : list pyval) (cs : list text) :
  Forall (fun x => forall level,
            iterencode indent isep ksep (json_form x) level =
            iterencode indent isep ksep x level) l ->
  Forall2 (fun x c => iterencode indent isep ksep x lvl = Some c) l cs <->
  Forall2 (fun x c => iterencode indent isep ksep x lvl = Some c) (map json_form l) cs.
Proof.
  intros IH. revert cs. induction l as [| x l IHl]; intros cs.
  - reflexivity.
  - apply Forall_cons in IH as [IHx IH]. cbn [map]. split; intros H.
    + apply Forall2_cons_inv_l in H as (c & cs' & Hc & Hcs & ->).
      constructor; [now rewrite IHx | now apply IHl].
    + apply Forall2_cons_inv_l in H as (c & cs' & Hc & Hcs & ->).
      constructor; [now rewrite <- IHx | now apply IHl].
Qed.

Lemma Forall2_json_form_entries (indent : option nat) (isep ksep : text) (lvl : nat)
    (d : list (pyval * pyval)) (cs : list text) :
  let chunk := fun (kv : pyval * pyval) (c : text) =>
    exists ks cv, dict_key kv.1 = Some ks
      /\ iterencode indent isep ksep kv.2 lvl = Some cv
      /\ c = encode_basestring_ascii ks ++ ksep ++ cv in
  Forall (fun kv : pyval * pyval => forall level,
            iterencode indent isep ksep (json_form kv.2) level =
            iterencode indent isep ksep kv.2 level) d ->
  Forall2 chunk d cs <->
  Forall2 chunk
    (map (fun kv : pyval * pyval =>
            match kv with
            | (k, x) =>
                (match dict_key k with Some s => PStr s | None => k end, json_form x)
            end) d) cs.
Proof.
  intros chunk IH. revert cs. induction d as [| [k x] d IHd]; intros cs.
  - reflexivity.
  - apply Forall_cons in IH as [IHx IH]. cbn [map fst snd] in *. split; intros H.
    + apply Forall2_cons_inv_l in H as (c & cs' & (ks & cv & Hk & Hcv & ->) & Hcs & ->).
      cbn [fst snd] in *. constructor; [| now apply IHd].
      exists ks, cv. rewrite Hk. cbn [fst snd]. now rewrite IHx.
    + apply Forall2_cons_inv_l in H as (c & cs' & (ks & cv & Hk & Hcv & ->) & Hcs & ->).
      cbn [fst snd] in *. constructor; [| now apply IHd].
      exists ks, cv. cbn [fst snd]. rewrite <- IHx. split; [| now split].
      destruct (dict_key k) as [s |] eqn:E; [| congruence].
      cbn in Hk. congruence.
Qed.

(** The encoder writes the same text for a value and for its JSON form. *)
Lemma iterencode_json_form (indent : option nat) (isep ksep : text) (v : pyval) :
  forall level,
    iterencode indent isep ksep (json_form v) level = iterencode indent isep ksep v level.
Proof.
  induction v as [| b | n | s | l IH | l IH | d IH |] using pyval_nested_ind;
    intros level; try reflexivity.
  - cbn [json_form].
    destruct (iterencode indent isep ksep (PList l) level) as [t |] eqn:E.
    + destruct (iterencode_items _ _ _ l level t (or_introl E)) as (cs & Hcs & ->).
      apply (Forall2_json_form_items _ _ _ _ _ _ IH) in Hcs.
      now destruct (iterencode_items_intro _ _ _ _ level cs Hcs) as [-> _].
    + destruct (iterencode indent isep ksep (PList (map json_form l)) level)
        as [t |] eqn:E'; [| reflexivity].
      destruct (iterencode_items _ _ _ _ level t (or_introl E')) as (cs & Hcs & ->).
      apply (Forall2_json_form_items _ _ _ _ _ _ IH) in Hcs.
      destruct (iterencode_items_intro _ _ _ _ level cs Hcs) as [E'' _]. congruence.
  - cbn [json_form].
    destruct (iterencode indent isep ksep (PTuple l) level) as [t |] eqn:E.
    + destruct (iterencode_items _ _ _ l level t (or_intror E)) as (cs & Hcs & ->).
      apply (Forall2_json_form_items _ _ _ _ _ _ IH) in Hcs.
      now destruct (iterencode_items_intro _ _ _ _ level cs Hcs) as [-> _].
    + destruct (iterencode indent isep ksep (PList (map json_form l)) level)
        as [t |] eqn:E'; [| reflexivity].
      destruct (iterencode_items _ _ _ _ level t (or_introl E')) as (cs & Hcs & ->).
      apply (Forall2_json_form_items _ _ _ _ _ _ IH) in Hcs.
      destruct (iterencode_items_intro _ _ _ _ level cs Hcs) as [_ E'']. congruence.
  - cbn [json_form].
    destruct (iterencode indent isep ksep (PDict d) level) as [t |] eqn:E.
    + destruct (iterencode_entries _ _ _ d level t E) as (cs & Hcs & ->).
      apply (Forall2_json_form_entries _ _ _ _ _ _ IH) in Hcs.
      now rewrite (iterencode_entries_intro _ _ _ _ level cs Hcs).
    + match goal with
      | |- ?lhs = None => destruct lhs as [t |] eqn:E'; [| reflexivity]
      end.
      destruct (iterencode_entries _ _ _ _ level t E') as (cs & Hcs & ->).
      apply (Forall2_json_form_entries _ _ _ _ _ _ IH) in Hcs.
      rewrite (iterencode_entries_intro _ _ _ _ level cs Hcs) in E. discriminate.
Qed.

Lemma json_dumps_json_form (indent : option nat) (v : pyval) :
  json_dumps indent (json_form v) = json_dumps indent v.
Proof. unfold json_dumps. destruct indent; apply iterencode_json_form. Qed.

(** A value that already has a faithful JSON form is its own JSON form. *)
Lemma json_form_json_value (v : pyval) : json_value v = true -> json_form v = v.
Proof.
  induction v as [| b | n | s | l IH | l IH | d IH |] using pyval_nested_ind;
    intros Hv; try reflexivity; try discriminate.
  - cbn [json_form json_value] in *. f_equal. rewrite forallb_forall in Hv.
    induction l as [| x l IHl]; [reflexivity |].
    apply Forall_cons in IH as [IHx IH]. cbn [map]. f_equal.
    + apply IHx, Hv. now left.
    + apply IHl; [exact IH | intros y Hy; apply Hv; now right].
  - destruct (json_value_entries d Hv) as [Hvals Hkeys]. cbn [json_form]. f_equal.
    clear Hv. induction d as [| [k x] d IHd]; [reflexivity |].
    apply Forall_cons in IH as [IHx IH]. apply Forall_cons in Hvals as [Hx Hvals].
    apply Forall_cons in Hkeys as [(s & Hk & _) Hkeys]. cbn [fst snd map] in *. subst k.
    cbn [dict_key]. f_equal; [now rewrite IHx | now apply IHd].
Qed.

(** X18: what a reader of a written file gets, beyond the values that
    come back unchanged: the JSON form of the value, in which tuples are
    lists and every dictionary key is the string the encoder wrote for it
    (["13"] for [13], ["true"] for [True], ["null"] for [None]).  This
    holds, pretty or compact, whenever that JSON form has strings of scalar
    values and the keys of each dictionary stay distinct once converted; for
    a value that is its own JSON form it is the plain round trip. *)
Theorem write_json_file_reads_back (w : world) (data : pyval) (p : pure_path)
    (pretty : bool) (st st' : state) :
  json_value (json_form data) = true ->
  write_json_file w data p pretty st = (Ret true, st') ->
  exists s, files st' !! p = Some s /\ json_loads (chars s) = Some (json_form data).
Proof.
  intros Hv Hrun.
  pose proof (write_json_file_true _ _ _ _ _ _ Hrun) as Hok.
  destruct (write_json_file_succeeds w data p pretty st Hok) as (t & Ht & Hrun').
  rewrite Hrun' in Hrun. injection Hrun as <-.
  exists (string_of_list_ascii t). cbn [files]. split; [apply lookup_insert_eq |].
  unfold chars. rewrite list_ascii_of_string_of_list_ascii.
  rewrite <- json_dumps_json_form in Ht.
  exact (json_loads_dumps _ _ _ Hv Ht).
Qed.

Lemma write_json_file_reads_back_witness :
  let p := ["out"; "base_type_definitions.json"] in
  let run := write_json_file full_world mixed_keys p true (start ∅) in
  run.1 = Ret true
  /\ exists s, files run.2 !! p = Some s
       /\ json_loads (chars s) =
            Some (PDict [(PStr (py "13"), PList [PInt 1; PStr (py "x")]);
                         (PStr (py "true"), PNone)]).
Proof.
  cbv zeta. split; [reflexivity |].
  apply (write_json_file_reads_back full_world mixed_keys
           ["out"; "base_type_definitions.json"] true (start ∅)); reflexivity.
Defined.

(** ** The characters of the text *)

Section Characters.
Variable indent : option nat.
Variables item_separator key_separator : text.
Variable P : ascii -> Prop.
Hypothesis Hprintable : forall c, printable c = true -> P c.
Hypothesis Hnewline : indent <> None -> P newline.
Hypothesis Hitem : Forall P item_separator.
Hypothesis Hkey : Forall P key_separator.

Lemma printable_code (n : N) : 32 <= n <= 126 -> P (ascii_of_N n).
Proof.
  intros Hn. apply Hprintable. unfold printable.
  rewrite N_ascii_embedding by lia. apply andb_true_intro.
  split; apply N.leb_le; lia.
Qed.

Lemma hex_digit_printable (y : N) : y < 16 -> P (hex_digit y).
Proof.
  intros Hy. unfold hex_digit. destruct (N.ltb_spec y 10); apply printable_code; lia.
Qed.

Lemma u_escape_printable (n : N) : Forall P (u_escape n).
Proof.
  unfold u_escape, hex4.
  repeat constructor;
    first [ now apply Hprintable | apply hex_digit_printable, N.mod_lt; lia ].
Qed.

Lemma escape_char_printable (c : N) : Forall P (escape_char c).
Proof.
  unfold escape_char.
  repeat match goal with
         | |- Forall P (if ?b then _ else _) => destruct b eqn:?
         end;
    try (repeat constructor; now apply Hprintable);
    try apply u_escape_printable.
  - constructor; [| constructor]. apply printable_code.
    match goal with
    | H : (_ <=? _) && (_ <=? _) = true |- _ =>
        apply andb_prop in H as [H1 H2]; apply N.leb_le in H1, H2
    end.
    lia.
  - cbv zeta. apply Forall_app. split; apply u_escape_printable.
Qed.

Lemma encode_basestring_ascii_printable (s : pystr) :
  Forall P (encode_basestring_ascii s).
Proof.
  unfold encode_basestring_ascii. constructor; [now apply Hprintable |].
  apply Forall_app. split; [| repeat constructor; now apply Hprintable].
  induction s as [| c s IH]; [constructor |].
  cbn [flat_map]. apply Forall_app. split; [apply escape_char_printable | exact IH].
Qed.

Lemma int_repr_printable (n : Z) : Forall P (int_repr n).
Proof.
  assert (Hdec : forall m, Forall P (decimal m)).
  { intros m. destruct (decimal_spec m) as (ds & -> & Hall & _).
    eapply Forall_impl; [exact Hall |]. intros c Hc. apply Hprintable.
    unfold is_digit in Hc. unfold printable.
    apply andb_prop in Hc as [H1 H2]. apply N.leb_le in H1, H2.
    apply andb_true_intro. split; apply N.leb_le; lia. }
  destruct n as [| p | p]; unfold int_repr; [apply Hdec | apply Hdec |].
  constructor; [now apply Hprintable | apply Hdec].
Qed.

Lemma newline_indent_printable (level : nat) : Forall P (newline_indent indent level).
Proof.
  unfold newline_indent. destruct indent as [width |] eqn:E; [| constructor].
  constructor; [apply Hnewline; congruence |].
  induction (width * level)%nat as [| k IH]; [constructor |].
  cbn [repeat]. constructor; [now apply Hprintable | exact IH].
Qed.

Lemma join_printable (sep : text) (cs : list text) :
  Forall P sep -> Forall (Forall P) cs -> Forall P (join sep cs).
Proof.
  intros Hsep. induction 1 as [| c cs Hc _ IH]; [constructor |].
  rewrite join_cons. apply Forall_app. split; [exact Hc |].
  destruct cs; [constructor |]. apply Forall_app. now split.
Qed.

Lemma bracketed_printable (opening closing : ascii) (level : nat) (cs : list text) :
  P opening -> P closing -> Forall (Forall P) cs ->
  Forall P (bracketed indent item_separator opening closing level cs).
Proof.
  intros Ho Hc Hcs. unfold bracketed. destruct cs as [| c cs]; [now repeat constructor |].
  constructor; [exact Ho |].
  repeat (apply Forall_app; split);
    try apply newline_indent_printable; [| now repeat constructor].
  apply join_printable; [| exact Hcs].
  apply Forall_app. split; [exact Hitem | apply newline_indent_printable].
Qed.

Lemma iterencode_printable (v : pyval) :
  forall level t,
    iterencode indent item_separator key_separator v level = Some t -> Forall P t.
Proof.
  induction v as [| b | n | s | l IH | l IH | d IH |] using pyval_nested_ind;
    intros level t Ht.
  - injection Ht as <-. repeat constructor; now apply Hprintable.
  - destruct b; injection Ht as <-; repeat constructor; now apply Hprintable.
  - injection Ht as <-. apply int_repr_printable.
  - injection Ht as <-. apply encode_basestring_ascii_printable.
  - destruct (iterencode_items _ _ _ l level t (or_introl Ht)) as (cs & Hcs & ->).
    apply bracketed_printable; try now apply Hprintable.
    clear Ht. induction Hcs as [| x c l cs Hx _ IHcs]; [constructor |].
    apply Forall_cons in IH as [IHx IHl].
    constructor; [eapply IHx; exact Hx | now apply IHcs].
  - destruct (iterencode_items _ _ _ l level t (or_intror Ht)) as (cs & Hcs & ->).
    apply bracketed_printable; try now apply Hprintable.
    clear Ht. induction Hcs as [| x c l cs Hx _ IHcs]; [constructor |].
    apply Forall_cons in IH as [IHx IHl].
    constructor; [eapply IHx; exact Hx | now apply IHcs].
  - destruct (iterencode_entries _ _ _ d level t Ht) as (cs & Hcs & ->).
    apply bracketed_printable; try now apply Hprintable.
    clear Ht. induction Hcs as [| kv c d cs Hx _ IHcs]; [constructor |].
    apply Forall_cons in IH as [IHx IHl]. constructor; [| now apply IHcs].
    destruct Hx as (ks & cv & _ & Hcv & ->).
    repeat (apply Forall_app; split);
      [apply encode_basestring_ascii_printable | exact Hkey | eapply IHx; exact Hcv].
  - discriminate.
Qed.
End Characters.

(** X19: a written file is plain 7-bit text.  Every character of it is
    printable ASCII ([' '] to ['~']), with the line feed as the only other
    character and only in the pretty-printed form: control characters and
    every code point above ['~'] inside a string are written as escapes
    ([ensure_ascii] is left at its default). *)
Theorem write_json_file_ascii (w : world) (data : pyval) (p : pure_path) (pretty : bool)
    (st st' : state) :
  write_json_file w data p pretty st = (Ret true, st') ->
  exists t, files st' !! p = Some (string_of_list_ascii t)
    /\ Forall (fun c => text_char pretty c = true) t.
Proof.
  intros Hrun.
  pose proof (write_json_file_true _ _ _ _ _ _ Hrun) as Hok.
  destruct (write_json_file_succeeds w data p pretty st Hok) as (t & Ht & Hrun').
  rewrite Hrun' in Hrun. injection Hrun as <-.
  exists t. split; [apply lookup_insert_eq |].
  assert (Hp : forall c, printable c = true -> text_char pretty c = true)
    by (intros c Hc; unfold text_char; now rewrite Hc).
  destruct pretty; cbn [indent_of] in Ht; unfold json_dumps in Ht.
  - eapply (iterencode_printable (Some 2%nat) (chars ",") (chars ": ")); try exact Ht;
      try exact Hp; [reflexivity | |]; repeat constructor.
  - eapply (iterencode_printable None (chars ", ") (chars ": ")); try exact Ht;
      try exact Hp; [congruence | |]; repeat constructor.
Qed.

Lemma write_json_file_ascii_witness :
  let p := ["out"; "profile.json"] in
  let data := PStr [233; 10; 128512] in
  let run := write_json_file full_world data p false (start ∅) in
  run.1 = Ret true
  /\ exists t, files run.2 !! p = Some (string_of_list_ascii t)
       /\ Forall (fun c => text_char false c = true) t.
Proof.
  cbv zeta. split; [reflexivity |].
  apply (write_json_file_ascii full_world (PStr [233; 10; 128512]) ["out"; "profile.json"]
           false (start ∅)).
  reflexivity.
Defined.

(** ** The extractor as a projection *)


(** ** The output directory *)

Lemma segments_nonempty (s : string) : segments s <> [].
Proof.
  induction s as [| c s IH]; [discriminate |]. cbn [segments].
  destruct (Ascii.eqb c "/"%char); [discriminate |].
  destruct (segments s); [contradiction | discriminate].
Qed.

Lemma segments_trailing_slash (s : string) : segments (s +:+ "/") = segments s ++ [""].
Proof.
  induction s as [| c s IH]; [reflexivity |].
  change (String c s +:+ "/") with (String c (s +:+ "/")). cbn [segments].
  rewrite IH. destruct (Ascii.eqb c "/"%char); [reflexivity |].
  pose proof (segments_nonempty s) as Hne.
  destruct (segments s) as [| seg more]; [contradiction | reflexivity].
Qed.

Lemma path_root_relative (s : string) : starts_with s "/" = false -> path_root s = [].
Proof.
  intros H. unfold path_root.
  assert (Hpre : forall p, chars "/" `prefix_of` chars p -> starts_with s p = false).
  { intros p Hp. apply bool_decide_eq_false. intros Hsp.
    apply bool_decide_eq_false in H. apply H. now transitivity (chars p). }
  rewrite (Hpre "///"), (Hpre "//"), H; [reflexivity | |].
  - now exists (chars "/").
  - now exists (chars "//").
Qed.

Lemma starts_with_cons (c : ascii) (s : string) :
  starts_with (String c s) "/" = Ascii.eqb c "/"%char.
Proof.
  unfold starts_with. destruct (Ascii.eqb_spec c "/"%char) as [-> | Hc].
  - apply bool_decide_eq_true. now exists (chars s).
  - apply bool_decide_eq_false. intros [k Hk]. cbn in Hk. congruence.
Qed.

(** X21: a relative output name may end with a slash or begin with [./]:
    [--output out], [--output out/] and [--output ./out] give the same
    output directory, hence the same five output files. *)
Theorem Path_redundant_parts (s : string) :
  s <> "" ->
  starts_with s "/" = false ->
  Path (s +:+ "/") = Path s /\ Path ("./" +:+ s) = Path s.
Proof.
  intros Hne Hrel. unfold Path.
  rewrite (path_root_relative s Hrel). split.
  - rewrite path_root_relative, segments_trailing_slash.
    + rewrite filter_app, filter_cons_False by (intros [? _]; congruence).
      cbn. now rewrite app_nil_r.
    + destruct s as [| c s]; [contradiction |].
      change (String c s +:+ "/") with (String c (s +:+ "/")).
      now rewrite starts_with_cons in *.
  - rewrite path_root_relative by reflexivity.
    change ("./" +:+ s) with (String "."%char (String "/"%char s)).
    cbn [segments app]. change (Ascii.eqb "."%char "/"%char) with false.
    change (Ascii.eqb "/"%char "/"%char) with true. cbv iota.
    rewrite filter_cons_False by (intros [_ ?]; congruence). reflexivity.
Qed.

Lemma Path_redundant_parts_witness :
  Path "out/" = ["out"] /\ Path "./out" = ["out"].
Proof.
  destruct (Path_redundant_parts "out") as [H1 H2]; [discriminate | reflexivity |].
  split; [exact H1 | exact H2].
Defined.

(** X22: [--pretty] changes the layout of a file and nothing else: the
    pretty-printed text and the compact text of a value are read back as
    the same value (its JSON form, under the conditions of the round
    trip). *)
Theorem pretty_and_compact_agree (data : pyval) (t_pretty t_compact : text) :
  json_value (json_form data) = true ->
  json_dumps (indent_of true) data = Some t_pretty ->
  json_dumps (indent_of false) data = Some t_compact ->
  json_loads t_pretty = Some (json_form data)
  /\ json_loads t_compact = json_loads t_pretty.
Proof.
  intros Hv Hp Hc. rewrite <- json_dumps_json_form in Hp, Hc.
  rewrite (json_loads_dumps _ _ _ Hv Hp), (json_loads_dumps _ _ _ Hv Hc). now split.
Qed.

Lemma pretty_and_compact_agree_witness :
  exists t_pretty t_compact,
    json_dumps (indent_of true) mixed_keys = Some t_pretty
    /\ json_dumps (indent_of false) mixed_keys = Some t_compact
    /\ t_pretty <> t_compact
    /\ json_loads t_compact = json_loads t_pretty.
Proof.
  eexists _, _. split; [reflexivity |]. split; [reflexivity |]. split; [discriminate |].
  apply (pretty_and_compact_agree mixed_keys); reflexivity.
Defined.

(** ** What exit code 0 promises, and what no run does *)

(** X23: exit code 0 is a promise about the files.  Whenever [main]
    returns, both modules were loaded, and [profile.json] and the file of
    every fit name whose value is present and not [None] hold the JSON text
    of their object. *)
Theorem main_success_files (w : world) (a : args) (st : state) :
  (main w a st).1 = Ret tt ->
  exists profile_module profile fit_module,
    resolves w a profile_module profile fit_module
    /\ forall e, e ∈ profile_entry a profile :: fit_writes a fit_module ->
         exists t, json_dumps (indent_of (args_pretty a)) e.2 = Some t
           /\ files (main w a st).2 !! e.1 = Some (string_of_list_ascii t).
Proof.
  intros Hret.
  destruct (main_before_writes w a)
    as [(e & _ & Hrun) | [(m & _ & Hrun) | (pm & profile & fm & Hres & Hne & Hdir)]].
  - rewrite Hrun in Hret. discriminate.
  - rewrite Hrun in Hret. discriminate.
  - exists pm, profile, fm. split; [exact Hres |].
    destruct (write_succeeds w (args_pretty a) (profile_entry a profile)) eqn:Hok.
    + destruct (main_profile_write_succeeds w a _ _ _ Hres st Hne Hdir Hok)
        as (fs' & ds' & log & Hrun & _ & _ & _ & Hfiles).
      rewrite Hrun in *. cbn [fst snd files] in *.
      destruct (forallb _ _) eqn:Hall; [| discriminate].
      rewrite forallb_forall in Hall. intros e He. apply Hfiles; [exact He |].
      apply elem_of_cons in He as [-> | He]; [exact Hok |].
      apply Hall. now apply list_elem_of_In.
    + destruct (main_profile_write_fails w a _ _ _ Hres st Hne Hdir Hok)
        as (fs' & ds' & Hrun).
      rewrite Hrun in Hret. discriminate.
Qed.

Lemma main_success_files_witness :
  exists t, json_dumps None example_profile = Some t
    /\ files (main full_world example_args (start ∅)).2 !! ["out"; "profile.json"] =
         Some (string_of_list_ascii t).
Proof.
  destruct (main_success_files full_world example_args (start ∅) eq_refl)
    as (pm & profile & fm & (Hp & Hprof & _) & Hfiles).
  specialize (Hp (start ∅)). injection Hp as <-.
  injection (eq_trans (eq_sym Hprof) (eq_refl : _ = Some example_profile)) as ->.
  exact (Hfiles (profile_entry example_args example_profile)
           ltac:(apply list_elem_of_here)).
Defined.

(** X24: no run removes anything: a path that holds a file before the run
    holds one afterwards, a directory that exists stays, and the lines
    already on the console are only added to. *)
Theorem main_removes_nothing (w : world) (a : args) (st : state) :
  dom (files st) ⊆ dom (files (main w a st).2)
  /\ dirs st ⊆ dirs (main w a st).2
  /\ console st `prefix_of` console (main w a st).2.
Proof.
  destruct (framed_main w a) as (r & M & D & log & H). rewrite H.
  cbn [snd files dirs console]. split; [| split].
  - rewrite dom_union. apply union_subseteq_r.
  - apply union_subseteq_r.
  - now exists log.
Qed.

(** ** The ends of the text *)

Lemma bracketed_last (indent : option nat) (isep : text) (opening closing : ascii)
    (level : nat) (cs : list text) :
  exists t', bracketed indent isep opening closing level cs = t' ++ [closing].
Proof.
  unfold bracketed. destruct cs as [| c cs]; [now exists [opening] |].
  exists (opening :: newline_indent indent (inner_level indent level)
                     ++ join (isep ++ newline_indent indent (inner_level indent level))
                          (c :: cs)
                     ++ newline_indent indent level).
  cbn [app]. f_equal. now rewrite <- !app_assoc.
Qed.

Lemma iterencode_last (indent : option nat) (isep ksep : text) (v : pyval) (level : nat)
    (t : text) :
  iterencode indent isep ksep v level = Some t ->
  exists t' c, t = t' ++ [c] /\ is_ws c = false.
Proof.
  destruct v as [| [|] | n | s | l | l | d |]; cbn [iterencode].
  - intros [= <-]. now exists (chars "nul"), "l"%char.
  - intros [= <-]. now exists (chars "tru"), "e"%char.
  - intros [= <-]. now exists (chars "fals"), "e"%char.
  - intros [= <-].
    assert (Hdec : forall m, exists t' c, decimal m = t' ++ [c] /\ is_ws c = false).
    { intros m. destruct (decimal_spec m) as (ds & -> & Hall & _ & Hhead).
      destruct ds as [| d0 ds _] using rev_ind; [contradiction |].
      exists ds, d0. split; [reflexivity |].
      apply Forall_app in Hall as [_ Hc]. apply Forall_inv in Hc.
      unfold is_digit in Hc. apply andb_prop in Hc as [H1 H2]. apply N.leb_le in H1, H2.
      unfold is_ws. cbv zeta.
      repeat match goal with
             | |- context [?x =? ?k] =>
                 destruct (N.eqb_spec x k); [lia |]
             end.
      reflexivity. }
    destruct n as [| q | q]; unfold int_repr; [apply Hdec | apply Hdec |].
    destruct (Hdec (Npos q)) as (t' & c & -> & Hc). now exists ("-"%char :: t'), c.
  - intros [= <-]. unfold encode_basestring_ascii.
    now exists (dquote :: flat_map escape_char s), dquote.
  - intros H. destruct (iterencode_items indent isep ksep l level t (or_introl H))
      as (cs & _ & ->).
    destruct (bracketed_last indent isep "["%char "]"%char level cs) as [t' ->].
    now exists t', "]"%char.
  - intros H. destruct (iterencode_items indent isep ksep l level t (or_intror H))
      as (cs & _ & ->).
    destruct (bracketed_last indent isep "["%char "]"%char level cs) as [t' ->].
    now exists t', "]"%char.
  - intros H. destruct (iterencode_entries indent isep ksep d level t H) as (cs & _ & ->).
    destruct (bracketed_last indent isep "{"%char "}"%char level cs) as [t' ->].
    now exists t', "}"%char.
  - discriminate.
Qed.

(** X25: a written file holds the JSON text and nothing around it: it
    begins with the first character of the value and ends with its last
    one.  In particular there is no line feed at the end of the file, not
    even when the text is pretty-printed. *)
Theorem write_json_file_bare_text (w : world) (data : pyval) (p : pure_path)
    (pretty : bool) (st st' : state) :
  write_json_file w data p pretty st = (Ret true, st') ->
  exists t, files st' !! p = Some (string_of_list_ascii t)
    /\ first_is (fun c => is_ws c = false) t
    /\ exists t' c, t = t' ++ [c] /\ is_ws c = false.
Proof.
  intros Hrun.
  pose proof (write_json_file_true _ _ _ _ _ _ Hrun) as Hok.
  destruct (write_json_file_succeeds w data p pretty st Hok) as (t & Ht & Hrun').
  rewrite Hrun' in Hrun. injection Hrun as <-.
  exists t. split; [apply lookup_insert_eq |].
  unfold json_dumps in Ht. split.
  - assert (Hhd : first_is value_start t)
      by (destruct (indent_of pretty); eapply iterencode_head; exact Ht).
    eapply first_is_impl; [| exact Hhd]. now intros c (H & _).
  - destruct (indent_of pretty); eapply iterencode_last; exact Ht.
Qed.

Lemma write_json_file_bare_text_witness :
  let p := ["out"; "profile.json"] in
  let run := write_json_file full_world example_profile p true (start ∅) in
  run.1 = Ret true
  /\ exists t, files run.2 !! p = Some (string_of_list_ascii t)
       /\ first_is (fun c => is_ws c = false) t
       /\ exists t' c, t = t' ++ [c] /\ is_ws c = false.
Proof.
  cbv zeta. split; [reflexivity |].
  apply (write_json_file_bare_text full_world example_profile ["out"; "profile.json"]
           true (start ∅)).
  reflexivity.
Defined.
